(** * Kurtosis data server: packet decoding, batching, averaging and run control

    A shallow embedding of [BackEnds/data_server.py] (the real-time
    ingestion pipeline of MonitorControl) together with the properties its
    specification states about it.

    Layout of the development:
    - [Binary32], [Binary64]: the two IEEE-754 formats numpy and HDF5 use
      here, built on the Standard Library's [SpecFloat];
    - [Wire]: the datagram format [pkt_fmt] and [unpack_from];
    - [Decode]: the nested function [unscramble];
    - [Unpacker]: the worker loop [unscramble_packet];
    - [Reader]: the packet reader [get_packet];
    - [Averager]: [open_monitor_files] and [average_one_second];
    - [KurtosisDataServer]: [__init__], [run] and [_terminate];
    - [Aggregator]: [aggregate_data];
    - [Workers]: [_create_workers_and_queues], [_start_workers] and
      [_join_workers];
    - [RawFile]: the names of the groups [run] makes in the raw file. *)

From Stdlib Require Import ZArith QArith Qround Lia List.
From Stdlib Require Import Strings.Byte.
From Stdlib Require Import Floats.SpecFloat.
From Stdlib Require Strings.Ascii Strings.String Numbers.DecimalString Numbers.DecimalNat.
From stdpp Require Import base option list gmap.

Import ListNotations.

(** ** Module constants *)

(** [pkt_size = 1026*64/8] (Python 2 integer division). *)
Definition pkt_size : nat := Eval cbv in Z.to_nat ((1026 * 64) / 8).
Definition num_workers : nat := 16.
Definition num_aggregators : nat := 4.
Definition max_count : Z := 5000.

(** The two polarisation channels, the keys ['I'] and ['Q'] of the
    dictionaries the program indexes by channel. *)
Inductive channel : Set := ChI | ChQ.

#[global] Instance byte_eq_dec : EqDecision byte := Byte.byte_eq_dec.

#[global] Instance channel_eq_dec : EqDecision channel.
Proof. solve_decision. Defined.

(** A dictionary with exactly the keys ['I'] and ['Q']. *)
Record per_channel (A : Type) : Type := PerChannel { at_I : A; at_Q : A }.
Arguments PerChannel {A} _ _.
Arguments at_I {A} _.
Arguments at_Q {A} _.

Definition sel {A} (d : per_channel A) (c : channel) : A :=
  match c with ChI => at_I d | ChQ => at_Q d end.

Definition upd {A} (d : per_channel A) (c : channel) (v : A) : per_channel A :=
  match c with
  | ChI => PerChannel v (at_Q d)
  | ChQ => PerChannel (at_I d) v
  end.

(** ** Floating point formats *)

(** The exact rational a floating point datum stands for; [None] for
    infinities and NaN. *)
Definition SF2Q (x : spec_float) : option Q :=
  match x with
  | S754_zero _ => Some 0%Q
  | S754_finite s m e =>
      Some (inject_Z (if s then Z.neg m else Z.pos m) * Qpower 2 e)%Q
  | S754_infinity _ | S754_nan => None
  end.

(** [exactly x q]: the datum [x] is finite and its value is the rational
    [q]. *)
Definition exactly (x : spec_float) (q : Q) : Prop :=
  match SF2Q x with Some r => (r == q)%Q | None => False end.

Definition exactlyb (x : spec_float) (q : Q) : bool :=
  match SF2Q x with Some r => Qeq_bool r q | None => false end.

(** Two data, possibly of different formats, with the same value: what
    numpy's [==] tests. *)
Definition same_value (x y : spec_float) : Prop :=
  exists q : Q, exactly x q /\ exactly y q.

Definition same_valueb (x y : spec_float) : bool :=
  match SF2Q x, SF2Q y with
  | Some q, Some r => Qeq_bool q r
  | _, _ => false
  end.

(** Rounding of an already rounded datum into another format (a numpy or
    HDF5 type conversion between float types). *)
Definition SFconvert (prec emax : Z) (x : spec_float) : spec_float :=
  match x with
  | S754_finite s m e =>
      binary_normalize prec emax (if s then Z.neg m else Z.pos m) e s
  | _ => x
  end.

(** [numpy.float32]. *)
Module Binary32.
Definition prec : Z := 24.
Definition emax : Z := 128.
Definition of_Z (z : Z) : spec_float := binary_normalize prec emax z 0 false.
Definition add : spec_float -> spec_float -> spec_float := SFadd prec emax.
Definition div : spec_float -> spec_float -> spec_float := SFdiv prec emax.
Definition of_float : spec_float -> spec_float := SFconvert prec emax.
End Binary32.

(** [numpy.float64], also the Python [float]. *)
Module Binary64.
Definition prec : Z := 53.
Definition emax : Z := 1024.
Definition of_Z (z : Z) : spec_float := binary_normalize prec emax z 0 false.
Definition add : spec_float -> spec_float -> spec_float := SFadd prec emax.
Definition div : spec_float -> spec_float -> spec_float := SFdiv prec emax.
End Binary64.

(** ** Wire format *)

Module Wire.

Local Open Scope Z_scope.

Definition byte_val (b : byte) : Z := Z.of_N (Byte.to_N b).

(** Network byte order (the [!] of [pkt_fmt]). *)
Fixpoint be_uint (bs : list byte) (acc : Z) : Z :=
  match bs with
  | [] => acc
  | b :: bs' => be_uint bs' (256 * acc + byte_val b)
  end.

(** [n] consecutive unsigned shorts (format [n*"H"]). *)
Fixpoint unpack_H (n : nat) (buf : list byte) : list Z :=
  match n with
  | O => []
  | S n' => be_uint (take 2 buf) 0 :: unpack_H n' (drop 2 buf)
  end.

(** The tuple [unpack_from(pkt_fmt, buf)] returns, with
    [pkt_fmt = "!8cHHI" + 1024*4*"H"]: items 0..7, 8, 9, 10 and 11... *)
Record unpacked : Type := Unpacked {
  u_hdr : list byte;
  u_pkt_cnt_sec : Z;
  u_sec_cnt : Z;
  u_raw_pkt_cnt : Z;
  u_data : list Z
}.

(** [struct.calcsize(pkt_fmt)]: 8 chars, two shorts, one int and 4096
    shorts, without padding. *)
Definition calcsize : nat := 8 + 2 + 2 + 4 + 2 * (1024 * 4).

(** [unpack_from(pkt_fmt, buf)]; [None] is [struct.error], raised when
    the buffer is shorter than the format. *)
Definition unpack_from (buf : list byte) : option unpacked :=
  if decide (length buf < calcsize)%nat then None
  else Some {|
    u_hdr := take 8 buf;
    u_pkt_cnt_sec := be_uint (take 2 (drop 8 buf)) 0;
    u_sec_cnt := be_uint (take 2 (drop 10 buf)) 0;
    u_raw_pkt_cnt := be_uint (take 4 (drop 12 buf)) 0;
    u_data := unpack_H (1024 * 4) (drop 16 buf)
  |}.

End Wire.

(** ** Decoding one payload *)

Module Decode.

Local Open Scope Z_scope.

(** Element conversion of [numpy.array(data, dtype=numpy.uint16)]. *)
Definition uint16 (x : Z) : Z := x mod 65536.

(** The rows of a C-ordered array with [cols] columns. *)
Fixpoint rows_of {A} (cols n : nat) (l : list A) : list (list A) :=
  match n with
  | O => []
  | S n' => take cols l :: rows_of cols n' (drop cols l)
  end.

(** [a.reshape((rows, cols))]; [None] is the [ValueError] numpy raises
    when the number of elements does not fit. *)
Definition reshape {A} (rows cols : nat) (l : list A) : option (list (list A)) :=
  if decide (length l = rows * cols)%nat then Some (rows_of cols rows l)
  else None.

(** [D[:, c]] *)
Definition column (c : nat) (D : list (list Z)) : list Z :=
  map (fun row => nth c row 0) D.

(** [a.astype(numpy.float32)/4096.] on one element. *)
Definition kurt_scale (v : Z) : spec_float :=
  Binary32.div (Binary32.of_Z v) (Binary32.of_Z 4096).

Definition unscramble (data : list Z)
  : option (per_channel (list Z) * per_channel (list spec_float)) :=
  D ← reshape 1024 4 (map uint16 data);
  let power :=
    PerChannel (column 0 (take 512 D) ++ column 1 (take 512 D))
               (column 0 (drop 512 D) ++ column 1 (drop 512 D)) in
  let kurt :=
    PerChannel
      (map kurt_scale (column 2 (take 512 D) ++ column 3 (take 512 D)))
      (map kurt_scale (column 2 (drop 512 D) ++ column 3 (drop 512 D))) in
  Some (power, kurt).

(** A payload as [unpack_from] delivers it: 4096 unsigned 16-bit words. *)
Definition wf_payload (data : list Z) : bool :=
  bool_decide (length data = 4096%nat)
  && forallb (fun x => (0 <=? x) && (x <? 65536)) data.

(** [p] holds of the [n] integers from [v] on. *)
Fixpoint all_from (n : nat) (v : Z) (p : Z -> bool) : bool :=
  match n with
  | O => true
  | S n' => p v && all_from n' (v + 1) p
  end.

(** The first [n] words scale to exactly their 4096th part. *)
Definition kurt_scale_exact_below (n : nat) : bool :=
  all_from n 0 (fun v => exactlyb (kurt_scale v) (inject_Z v / 4096)%Q).

(** The matrix of the specification: entry [(r, c)] of the payload
    reshaped to 1024 rows of 4 words. *)
Definition spec_D (data : list Z) (r c : nat) : Z := nth (4 * r + c) data 0.

(** [concat(D[lo:lo+512, c0], D[lo:lo+512, c1])] *)
Definition spec_concat (data : list Z) (lo c0 c1 : nat) : list Z :=
  map (fun r => spec_D data r c0) (seq lo 512)
  ++ map (fun r => spec_D data r c1) (seq lo 512).

End Decode.

(** ** Outcomes of effectful code *)

(** What a loop or a call with effects comes to: it goes on with a new
    state, it blocks for ever on an empty queue or socket, or it raises
    an exception nobody catches. *)
Inductive outcome (S : Type) : Type :=
| Next (s : S)
| Waiting
| Raised.
Arguments Next {S} _.
Arguments Waiting {S}.
Arguments Raised {S}.

(** ** The unpacker worker *)

Module Unpacker.

Import Wire Decode.
Local Open Scope Z_scope.

(** The dictionary [one_second]: one field per key.  The key ['time']
    exists only once the first packet of the batch has been taken. *)
Record one_second : Type := OneSecond {
  os_time : option Q;
  os_hdr : list (list byte);
  os_pkt_cnt_sec : list Z;
  os_sec_cnt : list Z;
  os_raw_pkt_cnt : list Z;
  os_pwr_I : list (list Z);
  os_krt_I : list (list spec_float);
  os_pwr_Q : list (list Z);
  os_krt_Q : list (list spec_float)
}.

(** [one_second['pwr-'+IF]] and [one_second['krt-'+IF]]. *)
Definition os_pwr (e : one_second) (c : channel) : list (list Z) :=
  match c with ChI => os_pwr_I e | ChQ => os_pwr_Q e end.
Definition os_krt (e : one_second) (c : channel) : list (list spec_float) :=
  match c with ChI => os_krt_I e | ChQ => os_krt_Q e end.

(** The dictionary as the outer loop sets it up. *)
Definition fresh : one_second := OneSecond None [] [] [] [] [] [] [] [].

(** An item of the input queue, with the reading [time.time()] gives
    right after [input_queue.get()] has returned it. *)
Record arrival : Type := Arrival { a_clock : Q; a_buf : list byte }.

(** The worker between two iterations of its inner loop. *)
Record worker : Type := Worker {
  w_input : list arrival;
  w_one_second : one_second;
  w_count : Z;
  w_output : list one_second
}.

(** The eight [append] calls of the inner loop body. *)
Definition append_packet (e : one_second) (result : unpacked)
    (powr : per_channel (list Z)) (kurtsis : per_channel (list spec_float))
  : one_second :=
  {| os_time := os_time e;
     os_hdr := os_hdr e ++ [u_hdr result];
     os_pkt_cnt_sec := os_pkt_cnt_sec e ++ [u_pkt_cnt_sec result];
     os_sec_cnt := os_sec_cnt e ++ [u_sec_cnt result];
     os_raw_pkt_cnt := os_raw_pkt_cnt e ++ [u_raw_pkt_cnt result];
     os_pwr_I := os_pwr_I e ++ [sel powr ChI];
     os_krt_I := os_krt_I e ++ [sel kurtsis ChI];
     os_pwr_Q := os_pwr_Q e ++ [sel powr ChQ];
     os_krt_Q := os_krt_Q e ++ [sel kurtsis ChQ] |}.

Definition set_time (e : one_second) (t : Q) : one_second :=
  {| os_time := Some t;
     os_hdr := os_hdr e;
     os_pkt_cnt_sec := os_pkt_cnt_sec e;
     os_sec_cnt := os_sec_cnt e;
     os_raw_pkt_cnt := os_raw_pkt_cnt e;
     os_pwr_I := os_pwr_I e;
     os_krt_I := os_krt_I e;
     os_pwr_Q := os_pwr_Q e;
     os_krt_Q := os_krt_Q e |}.

Section Batch.

(** The batch size, the module constant [max_count] of the source. *)
Variable b : Z.

Definition start (input : list arrival) : worker :=
  Worker input fresh b [].

(** One test of [while count:].  When [count] is zero the inner loop
    is left, the dictionary is put on the output queue and the outer
    loop starts a new one; otherwise the body runs once. *)
Definition step (w : worker) : outcome worker :=
  if decide (w_count w = 0) then
    Next (Worker (w_input w) fresh b (w_output w ++ [w_one_second w]))
  else
    match w_input w with
    | [] => Waiting
    | a :: rest =>
        let e :=
          if decide (w_count w = b) then set_time (w_one_second w) (a_clock a)
          else w_one_second w in
        match unpack_from (a_buf a) with
        | None => Raised
        | Some result =>
            match unscramble (u_data result) with
            | None => Raised
            | Some (powr, kurtsis) =>
                Next (Worker rest (append_packet e result powr kurtsis)
                             (w_count w - 1) (w_output w))
            end
        end
    end.

(** Lines 132 to 134, which the body of the inner loop runs before it
    calls [unpack_from] on line 135: the packet is off the input
    queue, and when it is the first of its batch the time of the
    dictionary is set.  When line 135 or line 143 raises, this is
    what the round has done. *)
Definition taken (w : worker) : worker :=
  match w_input w with
  | [] => w
  | a :: rest =>
      Worker rest
             (if decide (w_count w = b) then set_time (w_one_second w) (a_clock a)
              else w_one_second w)
             (w_count w) (w_output w)
  end.

(** [unscramble_packet], run for at most [fuel] loop tests.  The
    result is the worker at the last loop test it has come to: when
    [step] blocks or raises there, the worker never comes to another
    one.  In a round that raises the packet has left the input queue
    all the same: the queue the dead worker leaves behind is that of
    [taken]. *)
Fixpoint unscramble_packet (fuel : nat) (w : worker) : worker :=
  match fuel with
  | O => w
  | S fuel' =>
      match step w with
      | Next w' => unscramble_packet fuel' w'
      | Waiting | Raised => w
      end
  end.

(** Every list of the dictionary has [b] entries. *)
Definition full (e : one_second) : Prop :=
  Z.of_nat (length (os_hdr e)) = b
  /\ Z.of_nat (length (os_pkt_cnt_sec e)) = b
  /\ Z.of_nat (length (os_sec_cnt e)) = b
  /\ Z.of_nat (length (os_raw_pkt_cnt e)) = b
  /\ Z.of_nat (length (os_pwr_I e)) = b
  /\ Z.of_nat (length (os_krt_I e)) = b
  /\ Z.of_nat (length (os_pwr_Q e)) = b
  /\ Z.of_nat (length (os_krt_Q e)) = b.

End Batch.

(** What one packet contributes to a dictionary, in the order of the
    keys [hdr], [pkt cnt sec], [sec cnt], [raw pkt cnt], [pwr-I], [krt-I],
    [pwr-Q], [krt-Q]. *)
Record decoded : Type := Decoded {
  d_hdr : list byte;
  d_pkt_cnt_sec : Z;
  d_sec_cnt : Z;
  d_raw_pkt_cnt : Z;
  d_pwr_I : list Z;
  d_krt_I : list spec_float;
  d_pwr_Q : list Z;
  d_krt_Q : list spec_float
}.

Definition decode (buf : list byte) : option decoded :=
  result ← unpack_from buf;
  pk ← unscramble (u_data result);
  Some (Decoded (u_hdr result) (u_pkt_cnt_sec result) (u_sec_cnt result)
                (u_raw_pkt_cnt result)
                (sel pk.1 ChI) (sel pk.2 ChI) (sel pk.1 ChQ) (sel pk.2 ChQ)).

(** The packets of a dictionary, row by row. *)
Definition rows_into (t : option Q) (ds : list decoded) : one_second :=
  {| os_time := t;
     os_hdr := map d_hdr ds;
     os_pkt_cnt_sec := map d_pkt_cnt_sec ds;
     os_sec_cnt := map d_sec_cnt ds;
     os_raw_pkt_cnt := map d_raw_pkt_cnt ds;
     os_pwr_I := map d_pwr_I ds;
     os_krt_I := map d_krt_I ds;
     os_pwr_Q := map d_pwr_Q ds;
     os_krt_Q := map d_krt_Q ds |}.

(** A decoded packet with the clock reading it was taken at. *)
Definition stamped : Type := Q * decoded.

(** The dictionary made of a block of packets: its time is the reading
    at the first of them. *)
Definition epoch_of (blk : list stamped) : one_second :=
  rows_into (head (map fst blk)) (map snd blk).

Definition decodes_to (a : arrival) (r : stamped) : Prop :=
  a_clock a = r.1 /\ decode (a_buf a) = Some r.2.

(** The state of a worker with batch size [b] that was started on
    [input]: the packets taken so far are decoded, in order, into whole
    blocks of [b] packets, one per dictionary put on the output queue,
    followed by the packets of the dictionary in the making. *)
Definition batched (b : Z) (input : list arrival) (w : worker) : Prop :=
  exists (consumed : list arrival) (blocks : list (list stamped))
         (cur : list stamped),
    input = consumed ++ w_input w
    /\ Forall2 decodes_to consumed (concat blocks ++ cur)
    /\ Forall (fun blk => Z.of_nat (length blk) = b) blocks
    /\ w_output w = map epoch_of blocks
    /\ w_one_second w = epoch_of cur
    /\ Z.of_nat (length cur) = b - w_count w.

End Unpacker.

(** ** The packet reader *)

Module Reader.

(** The reader between two calls of [recvfrom].  [r_socket] holds what
    the coming calls of [socket.recvfrom(pkt_size)] return, in order, each
    a pair [(data, addr)]; [r_queues] is the dictionary [unpacker_queues];
    [r_puts] records every [put] that was made, with the key of the queue
    it went to. *)
Record reader (addr : Type) : Type := MkReader {
  r_socket : list (list byte * addr);
  r_queues : gmap nat (list (list byte));
  r_puts : list (nat * list byte)
}.
Arguments MkReader {addr} _ _ _.
Arguments r_socket {addr} _.
Arguments r_queues {addr} _.
Arguments r_puts {addr} _.

(** The dictionary [_create_workers_and_queues] fills: an empty queue
    under each of the keys [0 .. n-1]. *)
Fixpoint new_queues (n : nat) : gmap nat (list (list byte)) :=
  match n with
  | O => ∅
  | S n' => <[n' := []]> (new_queues n')
  end.

Section Loops.

Context {addr : Type}.

(** [num_workers] and [max_count] of the source. *)
Variable N : nat.
Variable b : Z.

(** The body of the innermost loop:
    [data, addr = socket.recvfrom(pkt_size)] and
    [unpacker_queues[unpacker].put(data)]. *)
Definition recv_put (unpacker : nat) (r : reader addr) : outcome (reader addr) :=
  match r_socket r with
  | [] => Waiting
  | (data, _) :: rest =>
      match r_queues r !! unpacker with
      | None => Raised
      | Some q =>
          Next (MkReader rest (<[unpacker := q ++ [data]]> (r_queues r))
                         (r_puts r ++ [(unpacker, data)]))
      end
  end.

(** [for count in range(max_count): ...], with [n] rounds to go. *)
Fixpoint for_count (n : nat) (unpacker : nat) (r : reader addr)
  : reader addr * outcome unit :=
  match n with
  | O => (r, Next tt)
  | S n' =>
      match recv_put unpacker r with
      | Next r' => for_count n' unpacker r'
      | Waiting => (r, Waiting)
      | Raised => (r, Raised)
      end
  end.

(** [for unpacker in range(num_workers): ...] over the keys left. *)
Fixpoint for_unpacker (keys : list nat) (r : reader addr)
  : reader addr * outcome unit :=
  match keys with
  | [] => (r, Next tt)
  | unpacker :: keys' =>
      match for_count (Z.to_nat b) unpacker r with
      | (r', Next _) => for_unpacker keys' r'
      | stopped => stopped
      end
  end.

(** [get_packet]: [while True], for at most [fuel] rounds. *)
Fixpoint get_packet (fuel : nat) (r : reader addr)
  : reader addr * outcome unit :=
  match fuel with
  | O => (r, Next tt)
  | S fuel' =>
      match for_unpacker (seq 0 N) r with
      | (r', Next _) => get_packet fuel' r'
      | stopped => stopped
      end
  end.

(** The worker datagram number [i] belongs to. *)
Definition owner (i : nat) : nat := Z.to_nat ((Z.of_nat i / b) mod Z.of_nat N).

(** The puts the specification asks for, for the datagrams numbered
    from [i] on. *)
Fixpoint spec_puts (i : nat) (ds : list (list byte * addr)) : list (nat * list byte) :=
  match ds with
  | [] => []
  | (data, _) :: ds' => (owner i, data) :: spec_puts (S i) ds'
  end.

(** The content of worker [w]'s queue after a series of puts. *)
Definition queue_of (w : nat) (puts : list (nat * list byte)) : list (list byte) :=
  map snd (filter (fun p => p.1 = w) puts).

End Loops.

(** The reader as the server starts it. *)
Definition start {addr} (N : nat) (incoming : list (list byte * addr)) : reader addr :=
  MkReader incoming (new_queues N) [].

End Reader.

(** ** The averager and its monitor files *)

Module Averager.

Import Unpacker.

(** The four datasets of a monitor file. *)
Inductive dsname : Set := DsTime | DsPktCnt | DsPower | DsKurtosis.

(** The calls made on a monitor file and its datasets, as they happen. *)
Inductive h5op : Set :=
| Resize (d : dsname) (n : nat)
| SetItem (d : dsname) (i : nat)
| Flush
| Close.

(** One monitor file: [mfile[RF]] with its attributes and with the
    datasets [aqtime[RF]], [pkt_cnt[RF]], [power[RF]] and [kurtosis[RF]],
    each a list of rows along axis 0.  ['time'] is created with
    [dtype=numpy.float64], ['pkt cnt'] with [dtype=numpy.int32]; ['power']
    and ['kurtosis'] get no [dtype] and so h5py's default, single
    precision. *)
Record monitor_file : Type := MonitorFile {
  mf_path : list byte;
  mf_signal : list byte;
  mf_channel : channel;
  aqtime : list Q;
  pkt_cnt : list Z;
  power : list (list spec_float);
  kurtosis : list (list spec_float);
  mf_ops : list h5op;
  mf_open : bool
}.

(** The value HDF5 fills new elements with. *)
Definition zero_row : list spec_float := replicate 1024 (S754_zero false).

(** One round of the loop of [open_monitor_files] on a path no file
    exists at yet (the file names end in the second the server was
    started at): [h5py.File] makes the file, the attributes are set and
    the four datasets are created, each of length one. *)
Definition open_monitor_file (path signal : list byte) (RF : channel) : monitor_file :=
  {| mf_path := path; mf_signal := signal; mf_channel := RF;
     aqtime := [0%Q]; pkt_cnt := [0%Z];
     power := [zero_row]; kurtosis := [zero_row];
     mf_ops := []; mf_open := true |}.

(** [open_monitor_files]: the round for ['I'], then the round for
    ['Q'].  When both paths name one file, [h5py.File] gives in the
    second round the file of the first, which has a dataset ['time']
    already: [create_dataset('time', ...)] raises, and nobody catches
    it.  Paths name one file when they are the same string; links in
    the file system are left out. *)
Definition open_monitor_files (monfile_full_path signal : per_channel (list byte))
  : option (per_channel monitor_file) :=
  let fI := open_monitor_file (sel monfile_full_path ChI) (sel signal ChI) ChI in
  if decide (sel monfile_full_path ChQ = sel monfile_full_path ChI) then None
  else Some (PerChannel fI
               (open_monitor_file (sel monfile_full_path ChQ) (sel signal ChQ) ChQ)).

(** [dataset.resize(n, axis=0)]: rows beyond [n] are dropped, new rows
    hold the fill value. *)
Definition resize {A} (fill : A) (n : nat) (rows : list A) : list A :=
  take n rows ++ replicate (n - length rows) fill.

(** [dataset[i] = v]; [None] when [i] is not a row of the dataset. *)
Definition setitem {A} (i : nat) (v : A) (rows : list A) : option (list A) :=
  if decide (i < length rows) then Some (<[i := v]> rows) else None.

(** A Python integer written into the ['pkt cnt'] dataset becomes a
    signed 32-bit integer.  Which one, when it does not fit, depends on
    who converts: numpy's cast wraps around, the conversion of the HDF5
    library saturates. *)
Definition int32_wrap (x : Z) : Z := ((x + 2 ^ 31) mod 2 ^ 32 - 2 ^ 31)%Z.
Definition int32_sat (x : Z) : Z := Z.max (- 2 ^ 31) (Z.min (2 ^ 31 - 1) x).

(** What both have in common. *)
Definition int32_conversion (conv : Z -> Z) : Prop :=
  forall x : Z,
    (- 2 ^ 31 <= conv x < 2 ^ 31)%Z
    /\ ((- 2 ^ 31 <= x < 2 ^ 31)%Z -> conv x = x).

(** [numpy.array(rows)] summed along axis 0 with the addition [add];
    [None] when there is no row or when the rows differ in length. *)
Definition sum_axis0 {A} (add : A -> A -> A) (rows : list (list A)) : option (list A) :=
  match rows with
  | [] => None
  | r :: rs =>
      if forallb (fun r' => bool_decide (length r' = length r)) rs
      then Some (fold_left (zip_with add) rs r)
      else None
  end.

(** [numpy.array(rows).mean(axis=0)] for rows of unsigned 16-bit words:
    numpy converts to double precision, sums and divides by the number
    of rows.  Without rows the result is the scalar NaN, here a vector of
    one element. *)
Definition mean_power (rows : list (list Z)) : option (list spec_float) :=
  match rows with
  | [] => Some [S754_nan]
  | _ =>
      s ← sum_axis0 Binary64.add (map (map Binary64.of_Z) rows);
      Some (map (fun x => Binary64.div x (Binary64.of_Z (Z.of_nat (length rows)))) s)
  end.

(** The same for rows of single precision numbers: sum and quotient
    stay in single precision. *)
Definition mean_kurt (rows : list (list spec_float)) : option (list spec_float) :=
  match rows with
  | [] => Some [S754_nan]
  | _ =>
      s ← sum_axis0 Binary32.add rows;
      Some (map (fun x => Binary32.div x (Binary32.of_Z (Z.of_nat (length rows)))) s)
  end.

(** The value of a row assignment: a vector of 1024 elements, or one
    element for all of them. *)
Definition broadcast_row (v : list spec_float) : option (list spec_float) :=
  if decide (length v = 1024) then Some v
  else match v with
       | [x] => Some (replicate 1024 x)
       | _ => None
       end.

(** The four [resize(counter+1, axis=0)] calls. *)
Definition grow (n : nat) (f : monitor_file) : monitor_file :=
  {| mf_path := mf_path f; mf_signal := mf_signal f; mf_channel := mf_channel f;
     aqtime := resize 0%Q n (aqtime f);
     pkt_cnt := resize 0%Z n (pkt_cnt f);
     power := resize zero_row n (power f);
     kurtosis := resize zero_row n (kurtosis f);
     mf_ops := mf_ops f ++ [Resize DsTime n; Resize DsPktCnt n;
                            Resize DsPower n; Resize DsKurtosis n];
     mf_open := mf_open f |}.

Definition close (f : monitor_file) : monitor_file :=
  {| mf_path := mf_path f; mf_signal := mf_signal f; mf_channel := mf_channel f;
     aqtime := aqtime f; pkt_cnt := pkt_cnt f; power := power f;
     kurtosis := kurtosis f; mf_ops := mf_ops f ++ [Close]; mf_open := false |}.

(** The averager between two tests of [while working.value]. *)
Record averager : Type := MkAverager {
  av_files : per_channel monitor_file;
  av_counter : nat
}.

(** What one round of the loop meets: the flag read as zero, an empty
    queue ([QueueEmpty]), or a dictionary. *)
Inductive poll : Type :=
| Stop
| Empty
| Got (one_second : one_second).

(** How the averager ends: it has left the loop and closed its files,
    it is still polling, or it has died of an exception. *)
Inductive ending : Type :=
| Finished (files : per_channel monitor_file)
| Polling (a : averager)
| Died.

Section Int32.

(** The conversion to the type of the ['pkt cnt'] dataset. *)
Variable to_int32 : Z -> Z.

(** The body of [for IF in ['I', 'Q']] for one channel: [t] is
    [one_second['time']] and [first] is [one_second['raw pkt cnt'][0]]. *)
Definition write_row (counter : nat) (t : Q) (first : Z) (e : one_second)
    (IF : channel) (f : monitor_file) : option monitor_file :=
  let f := if decide (counter = 0) then f else grow (counter + 1) f in
  tm ← setitem counter t (aqtime f);
  pc ← setitem counter (to_int32 first) (pkt_cnt f);
  p ← mean_power (os_pwr e IF);
  prow ← broadcast_row (map Binary32.of_float p);
  pw ← setitem counter prow (power f);
  k ← mean_kurt (os_krt e IF);
  krow ← broadcast_row k;
  kt ← setitem counter krow (kurtosis f);
  Some {| mf_path := mf_path f; mf_signal := mf_signal f;
          mf_channel := mf_channel f;
          aqtime := tm; pkt_cnt := pc; power := pw; kurtosis := kt;
          mf_ops := mf_ops f ++ [SetItem DsTime counter; SetItem DsPktCnt counter;
                                 SetItem DsPower counter; SetItem DsKurtosis counter;
                                 Flush];
          mf_open := mf_open f |}.

(** The [else] branch of the loop body. *)
Definition record_one_second (e : one_second) (a : averager) : option averager :=
  t ← os_time e;
  first ← head (os_raw_pkt_cnt e);
  fI ← write_row (av_counter a) t first e ChI (sel (av_files a) ChI);
  fQ ← write_row (av_counter a) t first e ChQ (sel (av_files a) ChQ);
  Some (MkAverager (PerChannel fI fQ) (av_counter a + 1)).

Fixpoint average_loop (polls : list poll) (a : averager) : ending :=
  match polls with
  | [] => Polling a
  | Stop :: _ =>
      Finished (PerChannel (close (sel (av_files a) ChI))
                           (close (sel (av_files a) ChQ)))
  | Empty :: polls' => average_loop polls' a
  | Got e :: polls' =>
      match record_one_second e a with
      | Some a' => average_loop polls' a'
      | None => Died
      end
  end.

(** [average_one_second(inqueue, working, monfile_full_path, signal)];
    [polls] is what the queue and the flag show, round after round. *)
Definition average_one_second (polls : list poll)
    (monfile_full_path signal : per_channel (list byte)) : ending :=
  match open_monitor_files monfile_full_path signal with
  | None => Died
  | Some files => average_loop polls (MkAverager files 0)
  end.

End Int32.

(** *** The monitor files in closed form *)

(** The dictionaries taken before the flag was seen cleared. *)
Fixpoint gots (polls : list poll) : list one_second :=
  match polls with
  | [] => []
  | Stop :: _ => []
  | Empty :: polls' => gots polls'
  | Got e :: polls' => e :: gots polls'
  end.

(** Whether the flag was seen cleared. *)
Fixpoint stopped (polls : list poll) : bool :=
  match polls with
  | [] => false
  | Stop :: _ => true
  | Empty :: polls' | Got _ :: polls' => stopped polls'
  end.

(** A dictionary the averager can take: it has a time, a first packet
    counter, and for each channel at least one row of power and of
    kurtosis, all rows 1024 wide. *)
Definition rows_ok {A} (rows : list (list A)) : bool :=
  match rows with
  | [] => false
  | _ => forallb (fun r => bool_decide (length r = 1024)) rows
  end.

Definition epoch_ok (e : one_second) : bool :=
  match os_time e, os_raw_pkt_cnt e with
  | Some _, _ :: _ =>
      rows_ok (os_pwr_I e) && rows_ok (os_krt_I e)
      && rows_ok (os_pwr_Q e) && rows_ok (os_krt_Q e)
  | _, _ => false
  end.

(** Column [j] of a stack of rows. *)
Definition column {A} (d : A) (j : nat) (rows : list (list A)) : list A :=
  map (fun r => nth j r d) rows.

(** The sum of a list, taken from the left, starting with its head. *)
Definition sum_left {A} (add : A -> A -> A) (l : list A) (d : A) : A :=
  match l with
  | [] => d
  | x :: l' => fold_left add l' x
  end.

(** The double precision mean of a column of 16-bit words. *)
Definition mean64 (col : list Z) : spec_float :=
  Binary64.div (sum_left Binary64.add (map Binary64.of_Z col) S754_nan)
               (Binary64.of_Z (Z.of_nat (length col))).

(** The single precision mean of a column of single precision numbers. *)
Definition mean32 (col : list spec_float) : spec_float :=
  Binary32.div (sum_left Binary32.add col S754_nan)
               (Binary32.of_Z (Z.of_nat (length col))).

(** The arithmetic mean of a column of 16-bit words. *)
Definition mean_exact (col : list Z) : Q :=
  (inject_Z (fold_right Z.add 0%Z col) / inject_Z (Z.of_nat (length col)))%Q.

(** The power and kurtosis rows a dictionary gives rise to. *)
Definition power_row (e : one_second) (IF : channel) : list spec_float :=
  map (fun j => Binary32.of_float (mean64 (column 0%Z j (os_pwr e IF)))) (seq 0 1024).

Definition kurtosis_row (e : one_second) (IF : channel) : list spec_float :=
  map (fun j => mean32 (column S754_nan j (os_krt e IF))) (seq 0 1024).

(** The calls made for row [k]. *)
Definition row_ops (k : nat) : list h5op :=
  (if decide (k = 0) then []
   else [Resize DsTime (k + 1); Resize DsPktCnt (k + 1);
         Resize DsPower (k + 1); Resize DsKurtosis (k + 1)])
  ++ [SetItem DsTime k; SetItem DsPktCnt k; SetItem DsPower k;
      SetItem DsKurtosis k; Flush].

(** A dataset with the rows [l], or as it was created when there is
    none yet. *)
Definition rows_or {A} (fill : A) (l : list A) : list A :=
  match l with
  | [] => [fill]
  | _ => l
  end.

(** The monitor file of channel [IF] after rows for the dictionaries
    [es] have been written, one after the other. *)
Definition written_file (to_int32 : Z -> Z) (path signal : list byte)
    (IF : channel) (es : list one_second) : monitor_file :=
  {| mf_path := path; mf_signal := signal; mf_channel := IF;
     aqtime := rows_or 0%Q (map (fun e => default 0%Q (os_time e)) es);
     pkt_cnt := rows_or 0%Z
                  (map (fun e => to_int32 (default 0%Z (head (os_raw_pkt_cnt e)))) es);
     power := rows_or zero_row (map (fun e => power_row e IF) es);
     kurtosis := rows_or zero_row (map (fun e => kurtosis_row e IF) es);
     mf_ops := flat_map row_ops (seq 0 (length es));
     mf_open := true |}.

Definition written (to_int32 : Z -> Z) (monfile_full_path signal : per_channel (list byte))
    (es : list one_second) : per_channel monitor_file :=
  PerChannel
    (written_file to_int32 (sel monfile_full_path ChI) (sel signal ChI) ChI es)
    (written_file to_int32 (sel monfile_full_path ChQ) (sel signal ChQ) ChQ es).

(** What the loop comes to when its files are those of [written]. *)
Definition ending_of (conv : Z -> Z) (paths signal : per_channel (list byte))
    (es : list one_second) (stop : bool) : ending :=
  if stop
  then Finished (PerChannel (close (sel (written conv paths signal es) ChI))
                            (close (sel (written conv paths signal es) ChQ)))
  else Polling (MkAverager (written conv paths signal es) (length es)).

(** The files an averager leaves or is working on. *)
Definition files_of (x : ending) : option (per_channel monitor_file) :=
  match x with
  | Finished files => Some files
  | Polling a => Some (av_files a)
  | Died => None
  end.

(** Element [(k, j)] of a two-dimensional dataset. *)
Definition element {A} (rows : list (list A)) (k j : nat) : option A :=
  row ← rows !! k; row !! j.

(** A dictionary of [b] packets in which one word only is not zero:
    the first packet has power 1 and fourth moment 1 in its first
    frequency bin.  The packets are numbered from [first] on. *)
Definition spike_epoch (b : nat) (first : Z) : one_second :=
  let words := (1%Z :: repeat 0%Z 1023) :: repeat (repeat 0%Z 1024) (b - 1) in
  let one := Decode.kurt_scale 1 in
  let zero := Decode.kurt_scale 0 in
  let moments := (one :: repeat zero 1023) :: repeat (repeat zero 1024) (b - 1) in
  {| os_time := Some 1530000000%Q;
     os_hdr := repeat [x4b; x31; x34; x49; x4b; x31; x34; x51] b;
     os_pkt_cnt_sec := map Z.of_nat (seq 0 b);
     os_sec_cnt := repeat 0%Z b;
     os_raw_pkt_cnt := map (fun i => (first + Z.of_nat i)%Z) (seq 0 b);
     os_pwr_I := words; os_krt_I := moments;
     os_pwr_Q := words; os_krt_Q := moments |}.


End Averager.

(** ** The server: start, main loop and shutdown *)

Module KurtosisDataServer.

Import Unpacker.
Local Open Scope Z_scope.

(** *** UTC wall clock *)

(** The fields of [time.struct_time] the server reads. *)
Record struct_time : Type := StructTime { tm_hour : Z; tm_min : Z; tm_sec : Z }.

(** [time.gmtime(t)]: the fraction of a second is cut off, and the
    seconds since the epoch are split into days of 86400 seconds. *)
Definition gmtime (t : Q) : struct_time :=
  let s := Z.quot (Qnum t) (Z.pos (Qden t)) in
  {| tm_hour := (s / 3600) mod 24;
     tm_min := (s / 60) mod 60;
     tm_sec := s mod 60 |}.

(** *** [__init__]: the first packet *)

(** The network as the first [recvfrom] meets it: nothing ever arrives,
    or a datagram arrives after [delay] seconds. *)
Definition network : Type := option (Q * list byte).

Inductive received : Type :=
| Data (data : list byte)
| TimedOut
| NoReturn.

(** [socket.recvfrom(bufsize)] under the socket's timeout ([None]: a
    blocking socket).  A datagram is cut to [bufsize] bytes. *)
Definition recvfrom (timeout : option Q) (bufsize : nat) (net : network) : received :=
  match net, timeout with
  | Some (delay, data), Some limit =>
      if Qle_bool delay limit then Data (take bufsize data) else TimedOut
  | Some (_, data), None => Data (take bufsize data)
  | None, Some _ => TimedOut
  | None, None => NoReturn
  end.

(** The datagram that arrives within [limit] seconds, if one does. *)
Definition arrives_within (limit : Q) (net : network) : option (list byte) :=
  match net with
  | Some (delay, data) => if Qle_bool delay limit then Some data else None
  | None => None
  end.

(** How the first lines of [__init__] end. *)
Inductive first_packet_result : Type :=
| Exit (status : Z)
| Uncaught
| Hangs
| Sniffed (signal : per_channel (list byte)) (dss : per_channel Z)
          (band : per_channel (list byte)) (timeout : option Q).

Section Init.

(** Python's [int] on a string; [None] is its [ValueError]. *)
Variable int : list byte -> option Z.

(** Lines 281 to 293 of the source: [settimeout(2.)], one [recvfrom],
    [settimeout(None)], and the signal codes from the header. *)
Definition first_packet (net : network) : first_packet_result :=
  match recvfrom (Some 2%Q) pkt_size net with
  | TimedOut => Exit 1
  | NoReturn => Hangs
  | Data data =>
      match Wire.unpack_from data with
      | None => Uncaught
      | Some packet =>
          let signal := PerChannel (take 4 (Wire.u_hdr packet))
                                   (take 4 (drop 4 (Wire.u_hdr packet))) in
          match int (take 2 (drop 1 (sel signal ChI))),
                int (take 2 (drop 1 (sel signal ChQ))) with
          | Some dI, Some dQ =>
              Sniffed signal (PerChannel dI dQ)
                      (PerChannel (take 1 (sel signal ChI))
                                  (take 1 (sel signal ChQ)))
                      None
          | _, _ => Uncaught
          end
      end
  end.

End Init.

(** The decimal digit a character stands for. *)
Definition digit (c : byte) : option Z :=
  let v := Wire.byte_val c in
  if (48 <=? v) && (v <=? 57) then Some (v - 48) else None.

(** Python's [int] on the strings of two decimal digits.  It is used
    in examples only, on such strings and on ['xx'], where [int] raises
    [ValueError]; the theorems take [int] as a parameter.  Python's
    [int] reads a digit with a sign or next to a blank as well, where
    [two_digits] has no value: it is not used on such strings. *)
Definition two_digits (s : list byte) : option Z :=
  match s with
  | [c1; c0] => d1 ← digit c1; d0 ← digit c0; Some (10 * d1 + d0)
  | _ => None
  end.

(** *** [__init__]: the monitor file names *)

Section Paths.

(** The first component of
    [get_obs_dirs("PESD", dss, UTtuple.tm_year, UTtuple.tm_yday)], as a
    function of the station; the date is the same for both channels.
    [get_obs_dirs] belongs to the package [Data_Reduction], which is
    not among the sources. *)
Variable session_data_path : Z -> list byte.

(** [time.strftime("-%Y-%j-%H%M%S.hdf5", UTtuple)] *)
Variable name_suffix : list byte.

(** Lines 305 to 315: for each channel the directory of its station
    and the file name ["mon-" + band + name_suffix]. *)
Definition monfile_full_path (dss : per_channel Z) (band : per_channel (list byte))
  : per_channel (list byte) :=
  let path RF :=
    session_data_path (sel dss RF)
    ++ ([x6d; x6f; x6e; x2d] ++ sel band RF ++ name_suffix) in
  PerChannel (path ChI) (path ChQ).

End Paths.

(** *** [__init__]: the end time *)

(** [(self.endhr, self.endmin, self.endsec)] *)
Record target : Type := Target { endhr : Z; endmin : Z; endsec : Z }.

(** Lines 319 to 327: [endtime] is the argument of [__init__], [now]
    the reading of [time.time()]. *)
Definition end_time (endtime : option (Z * Z)) (now : Q) : target :=
  match endtime with
  | Some (hr, mn) => Target hr mn 0
  | None => Target (tm_hour (gmtime now) + 1) 0 0
  end.

(** The instant the hour after the one of [now] begins. *)
Definition top_of_next_hour (now : Q) : Q :=
  inject_Z ((Z.quot (Qnum now) (Z.pos (Qden now)) / 3600 + 1) * 3600).

(** *** [run] *)

(** The test on lines 505 and 506. *)
Definition end_reached (tg : target) (timestruc : struct_time) : bool :=
  (tm_hour timestruc =? endhr tg) && (tm_min timestruc =? endmin tg)
  && (tm_sec timestruc =? endsec tg).

(** What the main thread owns: the monitor queue, the groups of the raw
    file (each with the number its name is printed from), the number of
    flushes and [grpnum]. *)
Record recorder : Type := Recorder {
  monitor_queue : list one_second;
  groups : list (nat * one_second);
  flushes : nat;
  grpnum : nat
}.

Definition recorder_start : recorder := Recorder [] [] 0 0.

(** How far a round of the loop has got when a [KeyboardInterrupt] is
    raised in it after [self.ordered_queue.get()] has returned.  The
    [try] block spans lines 501 to 522, so all these places are inside
    it. *)
Inductive progress : Set :=
| Taken      (* line 502 is through: the dictionary is off the queue;
                line 504 has not yet looked up ['time'] *)
| Tested     (* ['time'] was looked up; lines 504 to 513, before the
                [put] of line 514 has taken place *)
| Forwarded  (* line 514 is through: the dictionary is on the monitor
                queue; [create_group] of line 517 has not yet made
                the group *)
| GroupMade  (* line 517 is through: the group exists, with none, some
                or all of its datasets (lines 518 and 519), and the
                [flush] of line 520 is not through *)
| Flushed.   (* line 520 is through: the group is on disk; [grpnum]
                has not yet been incremented on line 522 *)

(** What a round of the loop meets: [self.ordered_queue.get()] returns
    a dictionary and the round is run to its end; a [KeyboardInterrupt]
    is raised while the thread waits in [get()]; [get()] returns a
    dictionary and a [KeyboardInterrupt] is raised later in the round,
    when it gets to the place [p]; or a [KeyboardInterrupt] is raised
    at the loop test of line 500, between two rounds and outside the
    [try] block.  An interrupt raised inside the [try] block when
    line 522 is through, or before [get()] is called, comes to the same
    as one raised in [get()]: the rounds before are complete and no
    dictionary is taken. *)
Inductive event : Type :=
| Dequeued (one_second : one_second)
| Interrupt
| Interrupted (one_second : one_second) (p : progress)
| InterruptOutside.

(** How the loop is left. *)
Inductive leave : Set := EndTime | KeyboardInterrupt.

(** What becomes of the loop.  [Left how r rest]: it is left between
    two dictionaries, through the [break] of line 511 or on an interrupt
    in [get()], with the recorder [r].  [LeftWithin r one_second p rest]:
    it is left on an interrupt in the round of [one_second], which had
    got to [p], with the recorder [r].  [InLoop r]: it waits in
    [get()].  [Crashed]: an exception that [run] does not catch leaves
    it, and the lines behind the loop are not run.  [rest] is what the
    loop has not met. *)
Inductive run_result : Type :=
| Left (how : leave) (r : recorder) (rest : list event)
| LeftWithin (r : recorder) (one_second : one_second) (p : progress)
             (rest : list event)
| InLoop (r : recorder)
| Crashed.

(** Lines 512 to 522: the dictionary goes to the monitor queue and into
    a new group of the raw file. *)
Definition process (one_second : one_second) (r : recorder) : recorder :=
  {| monitor_queue := monitor_queue r ++ [one_second];
     groups := groups r ++ [(grpnum r, one_second)];
     flushes := S (flushes r);
     grpnum := S (grpnum r) |}.

(** The recorder when the round of [one_second] is interrupted at [p].
    From [Forwarded] on the dictionary is on the monitor queue.  From
    [Flushed] on its group is in the raw file with all its datasets, but
    [grpnum] has not advanced.  At [GroupMade] the raw file holds a
    group of the name made from [grpnum] with part of the datasets;
    [groups] lists whole groups only, so that there it is [p] that
    tells of this group. *)
Definition interrupted_at (p : progress) (one_second : one_second) (r : recorder)
  : recorder :=
  match p with
  | Taken | Tested => r
  | Forwarded | GroupMade =>
      {| monitor_queue := monitor_queue r ++ [one_second];
         groups := groups r;
         flushes := flushes r;
         grpnum := grpnum r |}
  | Flushed =>
      {| monitor_queue := monitor_queue r ++ [one_second];
         groups := groups r ++ [(grpnum r, one_second)];
         flushes := S (flushes r);
         grpnum := grpnum r |}
  end.

(** The loop [while self.not_done].  A round in which an interrupt is
    due at [p] runs as any round up to there: a dictionary without
    ['time'] raises [KeyError] on line 504 and one at the end time
    leaves through the [break] of line 511 before any place behind the
    test is reached.  An interrupt that is raised inside the [try]
    block is caught on line 523, [self.not_done] becomes false and the
    loop test fails; one raised at the loop test is not caught. *)
Fixpoint run_loop (tg : target) (events : list event) (r : recorder) : run_result :=
  match events with
  | [] => InLoop r
  | Interrupt :: rest => Left KeyboardInterrupt r rest
  | InterruptOutside :: _ => Crashed
  | Interrupted one_second p :: rest =>
      match p, os_time one_second with
      | Taken, _ => LeftWithin r one_second Taken rest
      | _, None => Crashed
      | Tested, Some _ => LeftWithin r one_second Tested rest
      | _, Some t =>
          if end_reached tg (gmtime t) then Left EndTime r rest
          else LeftWithin (interrupted_at p one_second r) one_second p rest
      end
  | Dequeued one_second :: rest =>
      match os_time one_second with
      | None => Crashed
      | Some t =>
          if end_reached tg (gmtime t) then Left EndTime r rest
          else run_loop tg rest (process one_second r)
      end
  end.

(** The dictionary has the key ['time']. *)
Definition timed (e : one_second) : bool :=
  match os_time e with Some _ => true | None => false end.

(** The time of the dictionary, on the UTC wall clock, is the target. *)
Definition at_target (tg : target) (e : one_second) : bool :=
  match os_time e with
  | Some t => end_reached tg (gmtime t)
  | None => false
  end.

(** The recorder after it has processed the dictionaries [es]. *)
Definition processed (es : list one_second) (r : recorder) : recorder :=
  fold_left (fun r e => process e r) es r.

(** Whether the round of the dictionary [e] gets to the place [p]: any
    round gets to [Taken], one whose dictionary has a time to [Tested],
    and one whose dictionary has a time that is not the end time to the
    places behind the test. *)
Definition reached (tg : target) (e : one_second) (p : progress) : bool :=
  match p with
  | Taken => true
  | Tested => timed e
  | Forwarded | GroupMade | Flushed => timed e && negb (at_target tg e)
  end.

(** *** Shutdown *)

Inductive pstate : Set := NotStarted | Alive | Terminated.

Inductive proc : Set :=
| PReader
| PUnpacker (count : nat)
| PAggregator (count : nat)
| PAverager.

Inductive level : Set := LInfo | LError | LDebug.

(** What the shutdown does, in the order it does it.  [Terminate p ok]
    is a call of [terminate()] on [p]; [ok] tells whether it returned or
    raised [AttributeError]. *)
Inductive effect : Set :=
| AveragingOff
| Terminate (p : proc) (ok : bool)
| Log (l : level) (about : option proc)
| Sleep (seconds : Z)
| SocketClose.

(** The processes, the shared flag, the socket and the raw file of the
    server, with what has been done to them so far. *)
Record server : Type := Server {
  reader : pstate;
  unpacker : gmap nat pstate;
  aggregator : gmap nat pstate;
  averager : pstate;
  averaging : Z;
  socket_open : bool;
  file_open : bool;
  trace : list effect
}.

(** [Process.terminate()]: a process that was never started has no
    [_popen] to terminate, which is an [AttributeError]. *)
Definition terminate (p : pstate) : option pstate :=
  match p with
  | NotStarted => None
  | Alive | Terminated => Some Terminated
  end.

Definition did (s : server) (es : list effect) : server :=
  Server (reader s) (unpacker s) (aggregator s) (averager s) (averaging s)
         (socket_open s) (file_open s) (trace s ++ es).

(** Lines 444 to 449. *)
Definition stop_reader (s : server) : server :=
  match terminate (reader s) with
  | Some p =>
      Server p (unpacker s) (aggregator s) (averager s) (averaging s)
             (socket_open s) (file_open s)
             (trace s ++ [Terminate PReader true; Log LInfo (Some PReader)])
  | None => did s [Terminate PReader false; Log LError (Some PReader)]
  end.

(** Lines 452 to 458, for one [count]; [None] is the [KeyError] of
    [self.unpacker[count]]. *)
Definition stop_unpacker (count : nat) (s : server) : option server :=
  p ← unpacker s !! count;
  Some match terminate p with
       | Some p' =>
           Server (reader s) (<[count := p']> (unpacker s)) (aggregator s)
                  (averager s) (averaging s) (socket_open s) (file_open s)
                  (trace s ++ [Terminate (PUnpacker count) true;
                               Log LInfo (Some (PUnpacker count))])
       | None => did s [Terminate (PUnpacker count) false;
                        Log LError (Some (PUnpacker count))]
       end.

(** Lines 461 to 469, for one [count]. *)
Definition stop_aggregator (count : nat) (s : server) : option server :=
  p ← aggregator s !! count;
  Some match terminate p with
       | Some p' =>
           Server (reader s) (unpacker s) (<[count := p']> (aggregator s))
                  (averager s) (averaging s) (socket_open s) (file_open s)
                  (trace s ++ [Terminate (PAggregator count) true;
                               Log LInfo (Some (PAggregator count))])
       | None => did s [Terminate (PAggregator count) false;
                        Log LError (Some (PAggregator count))]
       end.

(** [self.averaging.value = 0] *)
Definition averaging_off (s : server) : server :=
  Server (reader s) (unpacker s) (aggregator s) (averager s) 0
         (socket_open s) (file_open s) (trace s ++ [AveragingOff]).

(** Lines 471 to 485. *)
Definition stop_averager (s : server) : server :=
  let s := did (averaging_off s) [Sleep 1] in
  match terminate (averager s) with
  | Some p =>
      Server (reader s) (unpacker s) (aggregator s) p (averaging s)
             (socket_open s) (file_open s)
             (trace s ++ [Terminate PAverager true; Log LInfo (Some PAverager)])
  | None => did s [Terminate PAverager false; Log LError (Some PAverager)]
  end.

(** Lines 488 to 492. *)
Definition close_socket (s : server) : server :=
  Server (reader s) (unpacker s) (aggregator s) (averager s) (averaging s)
         false (file_open s) (trace s ++ [SocketClose; Log LDebug None]).

(** [for count in range(n): ...] with a body that can raise. *)
Fixpoint for_range (body : nat -> server -> option server) (counts : list nat)
    (s : server) : option server :=
  match counts with
  | [] => Some s
  | count :: counts' => s' ← body count s; for_range body counts' s'
  end.

Definition _terminate (s : server) : option server :=
  let s := stop_reader s in
  s ← for_range stop_unpacker (seq 0 num_workers) s;
  s ← for_range stop_aggregator (seq 0 num_aggregators) s;
  Some (close_socket (stop_averager s)).

(** Lines 525 to 527, what [run] does once the loop is left. *)
Definition shutdown (s : server) : option server :=
  _terminate (did (averaging_off s) [Log LInfo None]).

(** What stopping process [p], found in state [st], does. *)
Definition stop_effects (p : proc) (st : pstate) : list effect :=
  match terminate st with
  | Some _ => [Terminate p true; Log LInfo (Some p)]
  | None => [Terminate p false; Log LError (Some p)]
  end.

(** The state process [count] of a dictionary is in. *)
Definition state_of (procs : gmap nat pstate) (count : nat) : pstate :=
  default NotStarted (procs !! count).

(** The effects of a shutdown of the server [s], in order. *)
Definition shutdown_trace (s : server) : list effect :=
  [AveragingOff; Log LInfo None]
  ++ stop_effects PReader (reader s)
  ++ flat_map (fun count => stop_effects (PUnpacker count) (state_of (unpacker s) count))
              (seq 0 num_workers)
  ++ flat_map (fun count => stop_effects (PAggregator count) (state_of (aggregator s) count))
              (seq 0 num_aggregators)
  ++ [AveragingOff; Sleep 1]
  ++ stop_effects PAverager (averager s)
  ++ [SocketClose; Log LDebug None].

(** Both dictionaries of processes have all their keys. *)
Definition complete (s : server) : bool :=
  forallb (fun count => bool_decide (is_Some (unpacker s !! count))) (seq 0 num_workers)
  && forallb (fun count => bool_decide (is_Some (aggregator s !! count)))
             (seq 0 num_aggregators).

#[global] Instance proc_eq_dec : EqDecision proc.
Proof. solve_decision. Defined.
#[global] Instance level_eq_dec : EqDecision level.
Proof. solve_decision. Defined.
#[global] Instance effect_eq_dec : EqDecision effect.
Proof. solve_decision. Defined.

(** The place of the first [a] in a trace. *)
Fixpoint place (a : effect) (tr : list effect) : option nat :=
  match tr with
  | [] => None
  | x :: tr' => if decide (x = a) then Some O else S <$> place a tr'
  end.

(** Both [a] and [b] happen, and [a] first. *)
Definition comes_before (a b : effect) (tr : list effect) : bool :=
  match place a tr, place b tr with
  | Some i, Some j => (i <? j)%nat
  | _, _ => false
  end.

(** The flag, the socket and the raw file are as they were. *)
Definition same_rest (s s' : server) : Prop :=
  averaging s' = averaging s /\ socket_open s' = socket_open s
  /\ file_open s' = file_open s.

(** The dictionaries of processes [_create_workers_and_queues] builds,
    all in the state [p]. *)
Fixpoint processes (n : nat) (p : pstate) : gmap nat pstate :=
  match n with
  | O => ∅
  | S n' => <[n' := p]> (processes n' p)
  end.

(** The server once [_start_workers] has returned. *)
Definition started : server :=
  Server Alive (processes num_workers Alive) (processes num_aggregators Alive)
         Alive 1 true true [].

End KurtosisDataServer.


(** ** The aggregator *)

Module Aggregator.

(** The two queues of an aggregator, with what is on them. *)
Record relay (A : Type) : Type := MkRelay {
  g_inqueue : list A;
  g_outqueue : list A
}.
Arguments MkRelay {A} _ _.
Arguments g_inqueue {A} _.
Arguments g_outqueue {A} _.

(** One round of the loop: [data = inqueue.get()] and
    [outqueue.put(data)]. *)
Definition step {A} (g : relay A) : outcome (relay A) :=
  match g_inqueue g with
  | [] => Waiting
  | data :: rest => Next (MkRelay rest (g_outqueue g ++ [data]))
  end.

(** [aggregate_data], for at most [fuel] rounds. *)
Fixpoint aggregate_data {A} (fuel : nat) (g : relay A) : relay A :=
  match fuel with
  | O => g
  | S fuel' =>
      match step g with
      | Next g' => aggregate_data fuel' g'
      | Waiting | Raised => g
      end
  end.

End Aggregator.

(** ** Creating, starting and joining the processes *)

Module Workers.

Import KurtosisDataServer.

(** What [_create_workers_and_queues] builds: the keys of the dictionary
    of unpacker queues, the dictionaries of processes, and for each
    unpacker the key of the aggregator queue it was given as output. *)
Record plant : Type := MkPlant {
  pl_unpacker_queue : gmap nat unit;
  pl_aggregator_queue : gmap nat unit;
  pl_aggregator : gmap nat pstate;
  pl_unpacker : gmap nat pstate;
  pl_output : gmap nat nat
}.

Definition no_plant : plant := MkPlant ∅ ∅ ∅ ∅ ∅.

Section Sizes.

(** [num_workers] and [num_aggregators] of the source. *)
Variable N M : nat.

(** The body of [for count in range(num_workers)].  The variable
    [aggregatorID] is bound by the first round that satisfies
    [count % num_aggregators == 0]; [None] is the exception of a
    division by zero, of an unbound variable or of a missing key. *)
Definition create_one (count : nat) (st : plant * option nat)
  : option (plant * option nat) :=
  let '(pl, aggregatorID) := st in
  if decide (M = 0) then None
  else
    let pl := MkPlant (<[count := tt]> (pl_unpacker_queue pl))
                      (pl_aggregator_queue pl) (pl_aggregator pl)
                      (pl_unpacker pl) (pl_output pl) in
    let '(pl, aggregatorID) :=
      if decide (count mod M = 0) then
        let id := count / M in
        (MkPlant (pl_unpacker_queue pl) (<[id := tt]> (pl_aggregator_queue pl))
                 (<[id := NotStarted]> (pl_aggregator pl))
                 (pl_unpacker pl) (pl_output pl),
         Some id)
      else (pl, aggregatorID) in
    id ← aggregatorID;
    _ ← pl_aggregator_queue pl !! id;
    Some (MkPlant (pl_unpacker_queue pl) (pl_aggregator_queue pl)
                  (pl_aggregator pl)
                  (<[count := NotStarted]> (pl_unpacker pl))
                  (<[count := id]> (pl_output pl)),
          Some id).

Fixpoint create_loop (counts : list nat) (st : plant * option nat)
  : option (plant * option nat) :=
  match counts with
  | [] => Some st
  | count :: counts' => st' ← create_one count st; create_loop counts' st'
  end.

Definition _create_workers_and_queues : option plant :=
  fst <$> create_loop (seq 0 N) (no_plant, None).

End Sizes.

(** The server as [_create_workers_and_queues] leaves it: the averager
    and the reader are made too, the flag is 1 and nothing runs. *)
Definition server_of (pl : plant) : server :=
  Server NotStarted (pl_unpacker pl) (pl_aggregator pl) NotStarted 1 true true [].

(** [Process.start()]: a process can be started once only. *)
Definition start (p : pstate) : option pstate :=
  match p with
  | NotStarted => Some Alive
  | Alive | Terminated => None
  end.

(** What [_start_workers] does, in order. *)
Inductive launch : Set :=
| Launched (p : proc)
| SyncSecond.

Definition start_aggregator (count : nat) (st : server * list launch)
  : option (server * list launch) :=
  let '(s, done) := st in
  p ← aggregator s !! count;
  p' ← start p;
  Some (Server (reader s) (unpacker s) (<[count := p']> (aggregator s))
               (averager s) (averaging s) (socket_open s) (file_open s) (trace s),
        done ++ [Launched (PAggregator count)]).

Definition start_unpacker (count : nat) (st : server * list launch)
  : option (server * list launch) :=
  let '(s, done) := st in
  p ← unpacker s !! count;
  p' ← start p;
  Some (Server (reader s) (<[count := p']> (unpacker s)) (aggregator s)
               (averager s) (averaging s) (socket_open s) (file_open s) (trace s),
        done ++ [Launched (PUnpacker count)]).

Fixpoint start_loop (body : nat -> server * list launch -> option (server * list launch))
    (counts : list nat) (st : server * list launch) : option (server * list launch) :=
  match counts with
  | [] => Some st
  | count :: counts' => st' ← body count st; start_loop body counts' st'
  end.

Section Sizes.

Variable N M : nat.

Definition _start_workers (s : server) : option (server * list launch) :=
  st ← start_loop start_aggregator (seq 0 M) (s, []);
  st ← start_loop start_unpacker (seq 0 N) st;
  let '(s, done) := st in
  av ← start (averager s);
  rd ← start (reader s);
  Some (Server rd (unpacker s) (aggregator s) av (averaging s)
               (socket_open s) (file_open s) (trace s),
        done ++ [Launched PAverager; SyncSecond; Launched PReader]).

(** How [_join_workers] ends: every process has been joined, the
    thread waits for a process that is alive, or a process that was
    never started makes [join] fail. *)
Inductive joining : Set :=
| AllJoined
| WaitsFor (p : proc)
| JoinError (p : proc).

(** [Process.join()] *)
Definition join (name : proc) (p : option pstate) (then_ : joining) : joining :=
  match p with
  | Some Terminated => then_
  | Some Alive => WaitsFor name
  | Some NotStarted | None => JoinError name
  end.

Fixpoint join_loop (name : nat -> proc) (procs : gmap nat pstate)
    (counts : list nat) (then_ : joining) : joining :=
  match counts with
  | [] => then_
  | count :: counts' =>
      join (name count) (procs !! count) (join_loop name procs counts' then_)
  end.

Definition _join_workers (s : server) : joining :=
  join PReader (Some (reader s))
    (join_loop PUnpacker (unpacker s) (seq 0 N)
       (join_loop PAggregator (aggregator s) (seq 0 M)
          (join PAverager (Some (averager s)) AllJoined))).

End Sizes.

(** The dictionaries after the rounds [0 .. n-1] of the loop of
    [_create_workers_and_queues]. *)
Definition wired (M n : nat) (st : plant * option nat) : Prop :=
  st.2 = (if decide (n = 0) then None else Some ((n - 1) / M))
  /\ forall count,
      pl_unpacker_queue st.1 !! count
      = (if decide (count < n) then Some tt else None)
      /\ pl_unpacker st.1 !! count
         = (if decide (count < n) then Some NotStarted else None)
      /\ pl_output st.1 !! count
         = (if decide (count < n) then Some (count / M) else None)
      /\ pl_aggregator st.1 !! count
         = (if decide (count * M < n) then Some NotStarted else None)
      /\ pl_aggregator_queue st.1 !! count
         = (if decide (count * M < n) then Some tt else None).

End Workers.

(** ** The groups of the raw file *)

Module RawFile.

(** [str(n)] for a number that is not negative: its decimal digits. *)
Definition decimal (n : nat) : list Ascii.ascii :=
  String.list_ascii_of_string
    (DecimalString.NilEmpty.string_of_uint (Nat.to_uint n)).

(** ["%5d" % grpnum]: the digits, with blanks before them when they
    are fewer than five. *)
Definition grpname (grpnum : nat) : list Ascii.ascii :=
  repeat Ascii.Space (5 - length (decimal grpnum)) ++ decimal grpnum.

(** [self.file.create_group(grpname)] on a file with the groups
    [names]; [None] is the [ValueError] h5py raises when there is a
    group of that name already. *)
Definition create_group (name : list Ascii.ascii) (names : list (list Ascii.ascii))
  : option (list (list Ascii.ascii)) :=
  if List.in_dec (List.list_eq_dec Ascii.ascii_dec) name names then None
  else Some (names ++ [name]).

(** The groups [run] makes for [k] dictionaries, the first of them
    with the number [grpnum]. *)
Fixpoint create_groups (k grpnum : nat) (names : list (list Ascii.ascii))
  : option (list (list Ascii.ascii)) :=
  match k with
  | O => Some names
  | S k' =>
      names' ← create_group (grpname grpnum) names;
      create_groups k' (S grpnum) names'
  end.

(** A string without its leading blanks. *)
Fixpoint lstrip (s : list Ascii.ascii) : list Ascii.ascii :=
  match s with
  | [] => []
  | c :: s' => if Ascii.ascii_dec c Ascii.Space then lstrip s' else s
  end.

End RawFile.
(** * Properties *)

(** ** Decoding *)

Module DecodeFacts.

Import Wire Decode Unpacker.

Lemma rows_of_seq {A} (cols n : nat) (l : list A) :
  rows_of cols n l = map (fun r => take cols (drop (r * cols) l)) (seq 0 n).
Proof.
  revert l. induction n as [|n IH]; intros l; [reflexivity|].
  cbn [rows_of seq map]. rewrite IH, <- seq_shift, map_map.
  change (drop (0 * cols) l) with l. f_equal.
  apply map_ext. intros r. rewrite drop_drop. reflexivity.
Qed.

Lemma length_rows_of {A} (cols n : nat) (l : list A) :
  length (rows_of cols n l) = n.
Proof. rewrite rows_of_seq, length_map, length_seq. reflexivity. Qed.

Lemma nth_row (cols r c : nat) (l : list Z) :
  c < cols -> nth c (take cols (drop (r * cols) l)) 0%Z = nth (r * cols + c) l 0%Z.
Proof.
  intros Hc. rewrite nth_firstn.
  destruct (Nat.ltb_spec c cols); [|lia].
  apply nth_skipn.
Qed.

(** A column of a block of rows, read off the flat payload. *)
Lemma column_block (data : list Z) (c lo : nat) (rows : list nat) :
  c < 4 ->
  column c (map (fun r => take 4 (drop (r * 4) data)) rows)
  = map (fun r => spec_D data r c) rows.
Proof.
  intros Hc. unfold column, spec_D. rewrite map_map.
  apply map_ext. intros r. rewrite nth_row by assumption.
  f_equal. lia.
Qed.

Lemma column_upper (data : list Z) (c : nat) :
  c < 4 ->
  column c (take 512 (rows_of 4 1024 data))
  = map (fun r => spec_D data r c) (seq 0 512).
Proof.
  intros Hc. rewrite rows_of_seq, firstn_map, take_seq.
  change (512 `min` 1024) with 512.
  apply (column_block data c 0); assumption.
Qed.

Lemma column_lower (data : list Z) (c : nat) :
  c < 4 ->
  column c (drop 512 (rows_of 4 1024 data))
  = map (fun r => spec_D data r c) (seq 512 512).
Proof.
  intros Hc. rewrite rows_of_seq, skipn_map, drop_seq.
  change (0 + 512) with 512. change (1024 - 512) with 512.
  apply (column_block data c 0); assumption.
Qed.

Lemma wf_payload_spec (data : list Z) :
  wf_payload data = true <->
  length data = 4096 /\ Forall (fun x => 0 <= x < 65536)%Z data.
Proof.
  unfold wf_payload. rewrite andb_true_iff, bool_decide_eq_true.
  rewrite forallb_forall, Forall_forall.
  split; intros [Hl Hr]; (split; [assumption|]); intros x Hx.
  - apply list_elem_of_In, Hr in Hx. lia.
  - apply list_elem_of_In, Hr in Hx. lia.
Qed.

Lemma uint16_id (data : list Z) :
  Forall (fun x => 0 <= x < 65536)%Z data -> map uint16 data = data.
Proof.
  induction 1 as [|x l Hx _ IH]; [reflexivity|].
  cbn. rewrite IH. unfold uint16. rewrite Z.mod_small by lia. reflexivity.
Qed.

Lemma all_from_spec (n : nat) (v : Z) (p : Z -> bool) :
  all_from n v p = true ->
  forall x, (v <= x < v + Z.of_nat n)%Z -> p x = true.
Proof.
  revert v. induction n as [|n IH]; intros v H x Hx; [lia|].
  cbn [all_from] in H. apply andb_true_iff in H as [Hv Hn].
  destruct (Z.eq_dec x v) as [->|Hne]; [assumption|].
  apply (IH (v + 1)%Z); [assumption|lia].
Qed.

Lemma kurt_scale_table : kurt_scale_exact_below (Z.to_nat 65536) = true.
Proof. vm_compute. reflexivity. Qed.

(** In single precision the quotient of a 16-bit word by 4096 is exact. *)
Lemma kurt_scale_exact (v : Z) :
  (0 <= v < 65536)%Z -> exactly (kurt_scale v) (inject_Z v / 4096)%Q.
Proof.
  intros Hv.
  assert (H : exactlyb (kurt_scale v) (inject_Z v / 4096)%Q = true).
  { generalize kurt_scale_table. unfold kurt_scale_exact_below.
    generalize (Z.to_nat 65536) (Z2Nat.id 65536). intros n Hn Htable.
    apply (all_from_spec n 0 _ Htable). lia. }
  unfold exactlyb in H. unfold exactly.
  destruct (SF2Q (kurt_scale v)); [apply Qeq_bool_eq, H | discriminate H].
Qed.

Lemma spec_D_range (data : list Z) (r c : nat) :
  Forall (fun x => 0 <= x < 65536)%Z data -> (0 <= spec_D data r c < 65536)%Z.
Proof.
  intros Hall. unfold spec_D.
  destruct (Nat.lt_ge_cases (4 * r + c) (length data)) as [Hlt|Hge].
  - rewrite Forall_forall in Hall. apply Hall, list_elem_of_In, nth_In, Hlt.
  - rewrite nth_overflow by assumption. lia.
Qed.

Lemma kurt_exact_map (xs : list Z) :
  Forall (fun x => 0 <= x < 65536)%Z xs ->
  Forall2 exactly (map kurt_scale xs) (map (fun v => inject_Z v / 4096)%Q xs).
Proof.
  induction 1 as [|x l Hx _ IH]; cbn; constructor;
    [apply kurt_scale_exact, Hx | exact IH].
Qed.

Lemma spec_concat_range (data : list Z) (lo c0 c1 : nat) :
  Forall (fun x => 0 <= x < 65536)%Z data ->
  Forall (fun x => 0 <= x < 65536)%Z (spec_concat data lo c0 c1).
Proof.
  intros Hall. unfold spec_concat.
  apply Forall_app; split; apply Forall_forall; intros x Hx;
    apply list_elem_of_In, in_map_iff in Hx as (r & <- & _);
    apply spec_D_range, Hall.
Qed.

Lemma length_spec_concat (data : list Z) (lo c0 c1 : nat) :
  length (spec_concat data lo c0 c1) = 1024.
Proof.
  unfold spec_concat. rewrite length_app, !length_map, !length_seq. reflexivity.
Qed.

(** [unscramble] on a well-formed payload, in one equation. *)
Lemma unscramble_eq (data : list Z) :
  wf_payload data = true ->
  unscramble data =
    Some (PerChannel (spec_concat data 0 0 1) (spec_concat data 512 0 1),
          PerChannel (map kurt_scale (spec_concat data 0 2 3))
                     (map kurt_scale (spec_concat data 512 2 3))).
Proof.
  intros Hwf. apply wf_payload_spec in Hwf as [Hlen Hall].
  unfold unscramble. rewrite (uint16_id _ Hall).
  unfold reshape. destruct (decide _) as [_|Hne]; [|exfalso; apply Hne; rewrite Hlen; reflexivity].
  cbn [mbind option_bind].
  rewrite !column_upper, !column_lower by lia.
  reflexivity.
Qed.

Lemma byte_val_range (x : byte) : (0 <= byte_val x < 256)%Z.
Proof.
  unfold byte_val. pose proof (Byte.to_N_bounded x). lia.
Qed.

Lemma be_uint_range (bs : list byte) (acc : Z) :
  (0 <= acc)%Z ->
  (0 <= be_uint bs acc < (acc + 1) * 256 ^ Z.of_nat (length bs))%Z.
Proof.
  revert acc. induction bs as [|x bs IH]; intros acc Hacc.
  - cbn. lia.
  - cbn [be_uint length]. pose proof (byte_val_range x) as Hx.
    specialize (IH (256 * acc + byte_val x)%Z ltac:(lia)).
    rewrite Nat2Z.inj_succ, Z.pow_succ_r by lia.
    assert (0 < 256 ^ Z.of_nat (length bs))%Z by (apply Z.pow_pos_nonneg; lia).
    nia.
Qed.

Lemma unpack_H_range (n : nat) (buf : list byte) :
  Forall (fun x => 0 <= x < 65536)%Z (unpack_H n buf).
Proof.
  revert buf. induction n as [|n IH]; intros buf; cbn [unpack_H]; constructor.
  - pose proof (be_uint_range (take 2 buf) 0 ltac:(lia)) as H.
    assert (Hl : length (take 2 buf) <= 2) by (rewrite length_take; lia).
    assert (256 ^ Z.of_nat (length (take 2 buf)) <= 256 ^ 2)%Z
      by (apply Z.pow_le_mono_r; lia).
    lia.
  - apply IH.
Qed.

Lemma length_unpack_H (n : nat) (buf : list byte) : length (unpack_H n buf) = n.
Proof.
  revert buf. induction n as [|n IH]; intros buf; cbn [unpack_H length];
    [reflexivity | rewrite IH; reflexivity].
Qed.

Lemma unpack_from_data (buf : list byte) (result : unpacked) :
  unpack_from buf = Some result ->
  u_data result = unpack_H (1024 * 4) (drop 16 buf).
Proof.
  unfold unpack_from. generalize (1024 * 4). intros n.
  destruct (decide _); [discriminate|].
  intros [= <-]. reflexivity.
Qed.

(** What [unpack_from] hands to [unscramble] is always well formed. *)
Lemma unpack_from_wf (buf : list byte) (result : unpacked) :
  unpack_from buf = Some result -> wf_payload (u_data result) = true.
Proof.
  intros Heq. rewrite (unpack_from_data _ _ Heq).
  apply wf_payload_spec. split.
  - apply length_unpack_H.
  - apply unpack_H_range.
Qed.

(** C1.  On every well-formed payload (4096 unsigned 16-bit words, read as
    the 1024x4 matrix D) [unscramble] returns four arrays of 1024 elements:
    power I is D[0:512,0] followed by D[0:512,1], power Q is the same on
    rows 512:1024, and the kurtosis arrays are columns 2 and 3 of these
    rows, each element exactly the 4096th part of the word.  The result
    depends on the payload alone: whatever state a worker is in, and
    whatever it has decoded before, the rows it appends for a packet with
    this payload are these four arrays. *)
Theorem unscramble_decodes (data : list Z) :
  wf_payload data = true ->
  exists power kurt,
    unscramble data = Some (power, kurt)
    /\ sel power ChI = spec_concat data 0 0 1
    /\ sel power ChQ = spec_concat data 512 0 1
    /\ Forall2 exactly (sel kurt ChI)
         (map (fun v => inject_Z v / 4096)%Q (spec_concat data 0 2 3))
    /\ Forall2 exactly (sel kurt ChQ)
         (map (fun v => inject_Z v / 4096)%Q (spec_concat data 512 2 3))
    /\ (length (sel power ChI) = 1024 /\ length (sel power ChQ) = 1024
        /\ length (sel kurt ChI) = 1024 /\ length (sel kurt ChQ) = 1024)
    /\ (forall data', data' = data -> unscramble data' = Some (power, kurt))
    /\ (forall (b : Z) (w : worker) (a : arrival) (rest : list arrival)
               (result : unpacked),
          w_input w = a :: rest -> w_count w <> 0%Z ->
          unpack_from (a_buf a) = Some result -> u_data result = data ->
          exists w',
            step b w = Next w'
            /\ last (os_pwr_I (w_one_second w')) = Some (sel power ChI)
            /\ last (os_pwr_Q (w_one_second w')) = Some (sel power ChQ)
            /\ last (os_krt_I (w_one_second w')) = Some (sel kurt ChI)
            /\ last (os_krt_Q (w_one_second w')) = Some (sel kurt ChQ)).
Proof.
  intros Hwf. pose proof (unscramble_eq data Hwf) as Heq.
  apply wf_payload_spec in Hwf as [Hlen Hall].
  eexists _, _. split; [exact Heq|]. cbn [sel at_I at_Q].
  split; [reflexivity|]. split; [reflexivity|].
  split; [apply kurt_exact_map, spec_concat_range, Hall|].
  split; [apply kurt_exact_map, spec_concat_range, Hall|].
  split.
  { rewrite !length_map, !length_spec_concat. auto. }
  split; [intros data' ->; exact Heq|].
  intros b w a rest result Hin Hcount Hunpack Hdata.
  unfold step. destruct (decide (w_count w = 0%Z)) as [H0|_]; [contradiction|].
  rewrite Hin, Hunpack, Hdata, Heq.
  eexists. split; [reflexivity|].
  cbn [w_one_second append_packet os_pwr_I os_pwr_Q os_krt_I os_krt_Q sel at_I at_Q].
  rewrite !last_snoc. auto.
Qed.

(** The decoder run on a payload that counts upwards. *)
Lemma unscramble_decodes_witness :
  exists power kurt,
    unscramble (map Z.of_nat (seq 0 4096)) = Some (power, kurt)
    /\ sel power ChI = spec_concat (map Z.of_nat (seq 0 4096)) 0 0 1
    /\ sel power ChQ = spec_concat (map Z.of_nat (seq 0 4096)) 512 0 1.
Proof.
  destruct (unscramble_decodes (map Z.of_nat (seq 0 4096)))
    as (power & kurt & Hun & HpI & HpQ & _).
  - vm_compute. reflexivity.
  - exists power, kurt. split; [exact Hun|]. split; [exact HpI | exact HpQ].
Defined.

End DecodeFacts.

(** ** The unpacker worker *)

Module UnpackerFacts.

Import Wire Decode Unpacker.
Local Open Scope Z_scope.

Lemma append_rows (t : option Q) (ds : list decoded) (result : unpacked)
    (powr : per_channel (list Z)) (kurtsis : per_channel (list spec_float)) :
  append_packet (rows_into t ds) result powr kurtsis
  = rows_into t (ds ++ [Decoded (u_hdr result) (u_pkt_cnt_sec result)
                                (u_sec_cnt result) (u_raw_pkt_cnt result)
                                (sel powr ChI) (sel kurtsis ChI)
                                (sel powr ChQ) (sel kurtsis ChQ)]).
Proof.
  unfold append_packet, rows_into.
  cbn [os_time os_hdr os_pkt_cnt_sec os_sec_cnt os_raw_pkt_cnt
       os_pwr_I os_krt_I os_pwr_Q os_krt_Q].
  rewrite !map_app. reflexivity.
Qed.

Lemma full_epoch_of (b : Z) (blk : list stamped) :
  Z.of_nat (length blk) = b -> full b (epoch_of blk).
Proof.
  intros Hb. unfold full, epoch_of, rows_into.
  cbn [os_hdr os_pkt_cnt_sec os_sec_cnt os_raw_pkt_cnt
       os_pwr_I os_krt_I os_pwr_Q os_krt_Q].
  rewrite !length_map. tauto.
Qed.

Lemma batched_start (b : Z) (input : list arrival) :
  batched b input (start b input).
Proof.
  exists [], [], []. cbn. repeat split; try constructor. lia.
Qed.

(** One loop test keeps the worker batched. *)
Lemma batched_step (b : Z) (input : list arrival) (w w' : worker) :
  batched b input w -> step b w = Next w' -> batched b input w'.
Proof.
  intros (consumed & blocks & cur & Hin & Hdec & Hblocks & Hout & Hone & Hlen).
  unfold step. destruct (decide (w_count w = 0)) as [H0|Hne].
  - intros [= <-]. exists consumed, (blocks ++ [cur]), [].
    cbn [w_input w_output w_one_second w_count].
    split; [exact Hin|].
    split; [rewrite concat_app, app_nil_r; cbn [concat]; rewrite app_nil_r; exact Hdec|].
    split; [apply Forall_app; split; [exact Hblocks|]; constructor; [lia|constructor]|].
    split; [rewrite map_app, Hout, Hone; reflexivity|].
    split; [reflexivity|]. cbn. lia.
  - destruct (w_input w) as [|a rest] eqn:Hw; [discriminate|].
    destruct (unpack_from (a_buf a)) as [result|] eqn:Hun; [|discriminate].
    destruct (unscramble (u_data result)) as [[powr kurtsis]|] eqn:Hsc; [|discriminate].
    intros [= <-].
    set (d := Decoded (u_hdr result) (u_pkt_cnt_sec result) (u_sec_cnt result)
                      (u_raw_pkt_cnt result) (sel powr ChI) (sel kurtsis ChI)
                      (sel powr ChQ) (sel kurtsis ChQ)).
    exists (consumed ++ [a]), blocks, (cur ++ [(a_clock a, d)]).
    cbn [w_input w_output w_one_second w_count].
    split; [rewrite Hin, <- app_assoc; reflexivity|].
    split.
    { rewrite app_assoc. apply Forall2_app; [exact Hdec|].
      constructor; [|constructor]. split; [reflexivity|].
      unfold decode. rewrite Hun. cbn [mbind option_bind]. rewrite Hsc. reflexivity. }
    split; [exact Hblocks|]. split; [exact Hout|].
    split.
    { rewrite Hone. unfold epoch_of.
      destruct (decide (w_count w = b)) as [Hb|Hb].
      - assert (cur = []) as -> by (destruct cur; [reflexivity|cbn in Hlen; lia]).
        reflexivity.
      - rewrite !map_app. rewrite append_rows.
        destruct cur as [|c cur]; [cbn in Hlen; lia|]. reflexivity. }
    rewrite length_app. cbn [length]. lia.
Qed.

(** The worker is batched whenever it is looked at. *)
Lemma batched_run (b : Z) (input : list arrival) (fuel : nat) (w : worker) :
  batched b input w -> batched b input (unscramble_packet b fuel w).
Proof.
  revert w. induction fuel as [|fuel IH]; intros w Hw; [exact Hw|].
  cbn [unscramble_packet]. destruct (step b w) as [w'| |] eqn:Hstep;
    [apply IH, (batched_step b input w w' Hw Hstep) | exact Hw | exact Hw].
Qed.

(** C2.  Whatever the batch size [b] and whatever packets arrive, at any
    moment of a worker's run every dictionary on its output queue holds
    exactly [b] entries in each of its eight lists; the packets taken
    from the input queue so far are, in order, the whole blocks of [b]
    packets of which these dictionaries are made, followed by the
    packets of the dictionary still in the making, so that a dictionary
    is put on the queue only when [b] packets have been taken and
    decoded for it. *)
Theorem epochs_are_whole_batches (b : Z) (input : list arrival) (fuel : nat) :
  let w := unscramble_packet b fuel (start b input) in
  Forall (full b) (w_output w) /\ batched b input w.
Proof.
  intros w.
  assert (Hw : batched b input w) by apply batched_run, batched_start.
  split; [|exact Hw].
  destruct Hw as (consumed & blocks & cur & _ & _ & Hblocks & Hout & _).
  rewrite Hout. apply Forall_map.
  eapply Forall_impl; [exact Hblocks|]. intros blk. apply full_epoch_of.
Qed.

(** A packet of full size is always decoded. *)
Lemma step_takes (b : Z) (w : worker) (a : arrival) (rest : list arrival) :
  w_count w <> 0 -> w_input w = a :: rest ->
  (calcsize <= length (a_buf a))%nat ->
  exists w', step b w = Next w' /\ w_input w' = rest
             /\ w_count w' = w_count w - 1 /\ w_output w' = w_output w.
Proof.
  intros Hc Hin Hlen. unfold step.
  destruct (decide (w_count w = 0)) as [|_]; [contradiction|]. rewrite Hin.
  destruct (unpack_from (a_buf a)) as [result|] eqn:Hun.
  - pose proof (DecodeFacts.unpack_from_wf _ _ Hun) as Hwf.
    rewrite (DecodeFacts.unscramble_eq _ Hwf).
    eexists. split; [reflexivity|]. cbn [w_input w_count w_output]. auto.
  - exfalso. unfold unpack_from in Hun.
    destruct (decide _) as [Hlt|]; [lia|discriminate].
Qed.

Lemma run_takes (b : Z) (n : nat) :
  forall (fuel : nat) (w : worker) (pkts rest : list arrival),
    Z.of_nat n = w_count w -> w_input w = pkts ++ rest -> length pkts = n ->
    Forall (fun a => calcsize <= length (a_buf a))%nat pkts ->
    exists w', unscramble_packet b (n + fuel) w = unscramble_packet b fuel w'
               /\ w_input w' = rest /\ w_count w' = 0
               /\ w_output w' = w_output w.
Proof.
  induction n as [|n IH]; intros fuel w pkts rest Hc Hin Hlen Hall.
  - destruct pkts; [|discriminate]. exists w. cbn in *. auto.
  - destruct pkts as [|a pkts]; [discriminate|].
    apply Forall_cons in Hall as [Ha Hall].
    destruct (step_takes b w a (pkts ++ rest)) as (w1 & Hstep & Hin1 & Hc1 & Ho1);
      [lia | exact Hin | exact Ha |].
    destruct (IH fuel w1 pkts rest) as (w' & Hrun & Hin' & Hc' & Ho');
      [lia | exact Hin1 | cbn in Hlen; lia | exact Hall |].
    exists w'. cbn [Nat.add unscramble_packet]. rewrite Hstep.
    split; [exact Hrun|]. split; [exact Hin'|]. split; [exact Hc'|]. congruence.
Qed.

(** The worker does emit: given [b > 0] packets of full size it puts its
    first dictionary on the output queue, after taking exactly these. *)
Lemma first_epoch_emitted (b : Z) (pkts rest : list arrival) :
  0 < b -> Z.of_nat (length pkts) = b ->
  Forall (fun a => calcsize <= length (a_buf a))%nat pkts ->
  exists e,
    let w := unscramble_packet b (length pkts + 1) (start b (pkts ++ rest)) in
    w_output w = [e] /\ w_input w = rest /\ full b e.
Proof.
  intros Hb Hlen Hall.
  destruct (run_takes b (length pkts) 1 (start b (pkts ++ rest)) pkts rest)
    as (w' & Hrun & Hin & Hc & Ho); [exact Hlen | reflexivity | reflexivity | exact Hall |].
  assert (Hfull : Forall (full b) (w_output
            (unscramble_packet b (length pkts + 1) (start b (pkts ++ rest))))).
  { destruct (batched_run b (pkts ++ rest) (length pkts + 1) _
                (batched_start b (pkts ++ rest)))
      as (consumed & blocks & cur & _ & _ & Hblocks & Hout & _).
    rewrite Hout. apply Forall_map.
    eapply Forall_impl; [exact Hblocks|]. intros blk. apply full_epoch_of. }
  rewrite Hrun in Hfull |- *.
  cbn [unscramble_packet] in Hfull |- *. unfold step in Hfull |- *.
  destruct (decide (w_count w' = 0)) as [_|]; [|contradiction].
  cbn [w_output w_input] in Hfull |- *.
  rewrite Ho in Hfull |- *. cbn [start w_output app] in Hfull |- *.
  exists (w_one_second w'). split; [reflexivity|]. split; [exact Hin|].
  apply Forall_cons in Hfull as [Hfull _]. exact Hfull.
Qed.

End UnpackerFacts.

(** ** The packet reader *)

Module ReaderFacts.

Import Reader.

Section Delivery.

Context {addr : Type}.
Variable N : nat.
Variable b : Z.
Hypothesis N_pos : 0 < N.
Hypothesis b_pos : (0 < b)%Z.

(** The datagrams of one batch all belong to the same worker, and
    batch [m] belongs to worker [m mod N]. *)
Lemma owner_block (m c : nat) :
  c < Z.to_nat b -> owner N b (m * Z.to_nat b + c) = m mod N.
Proof.
  intros Hc. unfold owner.
  replace (Z.of_nat (m * Z.to_nat b + c))
    with (Z.of_nat c + Z.of_nat m * b)%Z by lia.
  rewrite Z.div_add by lia. rewrite (Z.div_small (Z.of_nat c)) by lia.
  rewrite Z.add_0_l, <- Nat2Z.inj_mod, Nat2Z.id. reflexivity.
Qed.

Lemma spec_puts_app (i : nat) (l1 l2 : list (list byte * addr)) :
  spec_puts N b i (l1 ++ l2)
  = spec_puts N b i l1 ++ spec_puts N b (i + length l1) l2.
Proof.
  revert i. induction l1 as [|[data a] l1 IH]; intros i; cbn [app spec_puts length].
  - rewrite Nat.add_0_r. reflexivity.
  - rewrite IH. cbn [app]. do 3 f_equal. lia.
Qed.

Lemma queue_of_snoc (w u : nat) (puts : list (nat * list byte)) (data : list byte) :
  queue_of w (puts ++ [(u, data)])
  = if decide (u = w) then queue_of w puts ++ [data] else queue_of w puts.
Proof.
  unfold queue_of. rewrite filter_app, map_app.
  destruct (decide (u = w)) as [->|Hne].
  - rewrite filter_cons_True by reflexivity. reflexivity.
  - rewrite filter_cons_False by (cbn; congruence).
    rewrite filter_nil. cbn [map]. apply app_nil_r.
Qed.

(** [k] datagrams of [ds] have been received and put where the
    specification wants them. *)
Definition delivered (ds : list (list byte * addr)) (k : nat) (r : reader addr) : Prop :=
  k <= length ds
  /\ r_socket r = drop k ds
  /\ r_puts r = spec_puts N b 0 (take k ds)
  /\ forall w, w < N -> r_queues r !! w = Some (queue_of w (r_puts r)).

(** [r] with outcome [st] has delivered up to number [goal], or all
    there is when that is less. *)
Definition reaches (ds : list (list byte * addr)) (goal : nat)
    (res : reader addr * outcome unit) : Prop :=
  exists k, delivered ds k res.1
            /\ ((res.2 = Next tt /\ k = goal)
                \/ (res.2 = Waiting /\ k = length ds /\ length ds < goal)).

Lemma recv_put_delivers (ds : list (list byte * addr)) (k u : nat) (r : reader addr) :
  delivered ds k r -> owner N b k = u -> u < N ->
  (k = length ds /\ recv_put u r = Waiting)
  \/ (k < length ds /\ exists r', recv_put u r = Next r' /\ delivered ds (S k) r').
Proof.
  intros (Hk & Hsock & Hputs & Hq) Hown Hu. unfold recv_put.
  destruct (r_socket r) as [|[data a] rest] eqn:Hs.
  - left. split; [|reflexivity].
    apply (f_equal length) in Hsock. rewrite length_drop in Hsock. cbn in Hsock. lia.
  - right.
    assert (Hlook : ds !! k = Some (data, a)).
    { rewrite <- (Nat.add_0_r k), <- lookup_drop, <- Hsock. reflexivity. }
    pose proof (lookup_lt_Some _ _ _ Hlook) as Hlt. split; [exact Hlt|].
    rewrite (Hq u Hu). eexists. split; [reflexivity|].
    unfold delivered. cbn [r_socket r_puts r_queues].
    split; [lia|]. split.
    { rewrite (drop_S _ _ _ Hlook) in Hsock. congruence. }
    assert (Hnew : spec_puts N b 0 (take (S k) ds) = r_puts r ++ [(u, data)]).
    { rewrite (take_S_r _ _ _ Hlook), spec_puts_app, <- Hputs.
      rewrite length_take, Nat.min_l by lia. cbn [spec_puts Nat.add].
      rewrite Hown. reflexivity. }
    split; [symmetry; exact Hnew|].
    intros w Hw. rewrite queue_of_snoc.
    destruct (decide (u = w)) as [->|Hne].
    + rewrite lookup_insert_eq. reflexivity.
    + rewrite lookup_insert_ne by exact Hne. apply Hq, Hw.
Qed.

Lemma for_count_delivers (ds : list (list byte * addr)) (u : nat) :
  forall (n k : nat) (r : reader addr),
    delivered ds k r -> u < N ->
    (forall j, j < n -> owner N b (k + j) = u) ->
    reaches ds (k + n) (for_count n u r).
Proof.
  induction n as [|n IH]; intros k r Hd Hu Hown; cbn [for_count].
  - exists k. split; [exact Hd|]. left. split; [reflexivity|lia].
  - destruct (recv_put_delivers ds k u r Hd) as [[Hk Hw]|(Hk & r' & Hn & Hd')];
      [rewrite <- (Nat.add_0_r k); apply Hown; lia | exact Hu | |].
    + rewrite Hw. exists k. split; [exact Hd|]. right. cbn. split; [reflexivity|lia].
    + rewrite Hn.
      destruct (IH (S k) r' Hd' Hu) as (k' & Hk' & Hcase).
      { intros j Hj. replace (S k + j) with (k + S j) by lia. apply Hown. lia. }
      exists k'. split; [exact Hk'|]. replace (k + S n) with (S k + n) by lia.
      exact Hcase.
Qed.

Lemma for_unpacker_delivers (ds : list (list byte * addr)) (m : nat) :
  forall (len u : nat) (r : reader addr),
    u + len <= N ->
    delivered ds ((m * N + u) * Z.to_nat b) r ->
    reaches ds ((m * N + u + len) * Z.to_nat b) (for_unpacker b (seq u len) r).
Proof.
  induction len as [|len IH]; intros u r Hu Hd; cbn [seq for_unpacker].
  - exists ((m * N + u) * Z.to_nat b). split; [exact Hd|]. left.
    split; [reflexivity|]. f_equal. lia.
  - pose proof (for_count_delivers ds u (Z.to_nat b) _ r Hd ltac:(lia)) as Hc.
    destruct Hc as (k & Hk & Hcase).
    { intros j Hj. rewrite owner_block by exact Hj.
      rewrite Nat.add_comm, Nat.Div0.mod_add. apply Nat.mod_small. lia. }
    destruct (for_count (Z.to_nat b) u r) as [r' st]. cbn [fst snd] in Hk, Hcase.
    destruct Hcase as [[-> ->]|(-> & -> & Hlt)].
    + replace ((m * N + u) * Z.to_nat b + Z.to_nat b)
        with ((m * N + S u) * Z.to_nat b) in Hk by lia.
      replace (m * N + u + S len) with (m * N + S u + len) by lia.
      apply IH; [lia | exact Hk].
    + exists (length ds). split; [exact Hk|]. right. cbn.
      split; [reflexivity|]. split; [reflexivity|]. nia.
Qed.

Lemma get_packet_delivers (ds : list (list byte * addr)) :
  forall (fuel m : nat) (r : reader addr),
    delivered ds (m * N * Z.to_nat b) r ->
    reaches ds ((m + fuel) * N * Z.to_nat b) (get_packet N b fuel r).
Proof.
  induction fuel as [|fuel IH]; intros m r Hd; cbn [get_packet].
  - exists (m * N * Z.to_nat b). split; [exact Hd|]. left.
    split; [reflexivity|]. f_equal. f_equal. lia.
  - pose proof (for_unpacker_delivers ds m N 0 r ltac:(lia)) as Hu.
    rewrite Nat.add_0_r in Hu. specialize (Hu Hd).
    destruct Hu as (k & Hk & Hcase).
    destruct (for_unpacker b (seq 0 N) r) as [r' st]. cbn [fst snd] in Hk, Hcase.
    destruct Hcase as [[-> ->]|(-> & -> & Hlt)].
    + replace ((m * N + N) * Z.to_nat b) with (S m * N * Z.to_nat b) in Hk by lia.
      replace (m + S fuel) with (S m + fuel) by lia.
      apply IH, Hk.
    + exists (length ds). split; [exact Hk|]. right. cbn.
      split; [reflexivity|]. split; [reflexivity|]. nia.
Qed.

Lemma new_queues_lookup (n w : nat) : w < n -> new_queues n !! w = Some [].
Proof.
  induction n as [|n IH]; intros Hw; [lia|]. cbn [new_queues].
  destruct (decide (n = w)) as [->|Hne].
  - apply lookup_insert_eq.
  - rewrite lookup_insert_ne by exact Hne. apply IH. lia.
Qed.

Lemma delivered_start (ds : list (list byte * addr)) :
  delivered ds 0 (start N ds).
Proof.
  unfold delivered, start. cbn [r_socket r_puts r_queues].
  split; [lia|]. split; [reflexivity|]. split; [reflexivity|].
  intros w Hw. apply new_queues_lookup, Hw.
Qed.

End Delivery.

(** C3.  With [N > 0] workers and batch size [b > 0], whatever datagrams
    the socket returns and however long the reader has run, the puts it
    has made are, in order, the datagrams received so far, unmodified,
    datagram number [i] on the queue of worker [(i div b) mod N]; each
    queue holds exactly the datagrams put on it; the datagrams of one
    batch of [b] all go to the same worker and batch [m] to worker
    [m mod N], so that batches never interleave.  After [fuel] rounds of
    the outer loop the reader has received [fuel * N * b] datagrams, or
    all of them when there are fewer, in which case it waits. *)
Theorem get_packet_round_robin {addr : Type} (N : nat) (b : Z)
    (ds : list (list byte * addr)) (fuel : nat) :
  0 < N -> (0 < b)%Z ->
  let res := get_packet N b fuel (start N ds) in
  let k := length ds `min` (fuel * N * Z.to_nat b) in
  r_puts res.1 = spec_puts N b 0 (take k ds)
  /\ r_socket res.1 = drop k ds
  /\ (forall w, w < N -> r_queues res.1 !! w = Some (queue_of w (r_puts res.1)))
  /\ (res.2 = Waiting <-> length ds < fuel * N * Z.to_nat b)
  /\ (forall m c, c < Z.to_nat b -> owner N b (m * Z.to_nat b + c) = m mod N).
Proof.
  intros HN Hb res k.
  assert (Hreach : reaches N b ds ((0 + fuel) * N * Z.to_nat b) res).
  { unfold res. apply get_packet_delivers; try assumption.
    change (0 * N * Z.to_nat b) with 0. apply delivered_start; assumption. }
  destruct Hreach as (k' & (Hk & Hsock & Hputs & Hq) & Hcase).
  cbn [Nat.add] in Hcase.
  assert (Hkk : k' = k /\ (res.2 = Waiting <-> length ds < fuel * N * Z.to_nat b)).
  { unfold k. destruct Hcase as [[Hst ->]|(Hst & -> & Hlt)].
    - split; [lia|]. rewrite Hst. split; [discriminate|lia].
    - split; [lia|]. rewrite Hst. tauto. }
  destruct Hkk as [-> Hwait].
  split; [exact Hputs|]. split; [exact Hsock|]. split; [exact Hq|].
  split; [exact Hwait|]. intros m c. apply owner_block; assumption.
Qed.

(** Five datagrams for two workers with batches of two. *)
Lemma get_packet_round_robin_witness :
  let d (x : byte) : list byte * unit := ([x], tt) in
  r_puts (get_packet 2 2 2 (start 2 [d x00; d x01; d x02; d x03; d x04])).1
  = [(0, [x00]); (0, [x01]); (1, [x02]); (1, [x03]); (0, [x04])].
Proof.
  intros d.
  destruct (get_packet_round_robin 2 2 [d x00; d x01; d x02; d x03; d x04] 2)
    as (Hputs & _); [lia | lia |].
  rewrite Hputs. vm_compute. reflexivity.
Defined.

End ReaderFacts.

(** ** The averager *)

Module AveragerFacts.

Import Unpacker Averager.

(** *** Sums along axis 0, column by column *)

Lemma map_nth_seq {A} (d : A) (l : list A) (n : nat) :
  length l = n -> map (fun j => nth j l d) (seq 0 n) = l.
Proof.
  intros <-. induction l as [|x l IH] using rev_ind; [reflexivity|].
  rewrite length_app, Nat.add_comm. cbn [length Nat.add].
  rewrite seq_S, map_app. cbn [map Nat.add]. f_equal.
  - rewrite <- IH at 2. apply map_ext_in. intros j Hj%in_seq.
    apply app_nth1. lia.
  - rewrite nth_middle. reflexivity.
Qed.

Lemma nth_zip_with {A} (f : A -> A -> A) (d : A) (l k : list A) (j : nat) :
  j < length l -> j < length k ->
  nth j (zip_with f l k) d = f (nth j l d) (nth j k d).
Proof.
  revert k j. induction l as [|x l IH]; intros [|y k] j Hl Hk; cbn in *; try lia.
  destruct j as [|j]; [reflexivity|]. apply IH; lia.
Qed.

Lemma fold_zip_columns {A} (add : A -> A -> A) (d : A) (n : nat) (rs : list (list A)) :
  forall r : list A,
    length r = n -> Forall (fun r' => length r' = n) rs ->
    fold_left (zip_with add) rs r
    = map (fun j => fold_left add (column d j rs) (nth j r d)) (seq 0 n).
Proof.
  induction rs as [|r' rs IH]; intros r Hr Hrs.
  - cbn [fold_left column map]. symmetry. apply map_nth_seq, Hr.
  - apply Forall_cons in Hrs as [Hr' Hrs]. cbn [fold_left].
    rewrite IH; [|rewrite length_zip_with; lia|exact Hrs].
    apply map_ext_in. intros j Hj%in_seq.
    rewrite nth_zip_with by lia. reflexivity.
Qed.

Lemma rows_ok_spec {A} (rows : list (list A)) :
  rows_ok rows = true <->
  rows <> [] /\ Forall (fun r => length r = 1024) rows.
Proof.
  unfold rows_ok. destruct rows as [|r rs].
  - split; [discriminate|]. intros [H _]. contradiction.
  - rewrite forallb_forall, Forall_forall.
    split.
    + intros H. split; [discriminate|]. intros x Hx%list_elem_of_In.
      apply H in Hx. apply bool_decide_eq_true in Hx. exact Hx.
    + intros [_ H] x Hx%list_elem_of_In. apply bool_decide_eq_true, H, Hx.
Qed.

Lemma sum_axis0_columns {A} (add : A -> A -> A) (d d' : A) (n : nat)
    (r : list A) (rs : list (list A)) :
  Forall (fun r' => length r' = n) (r :: rs) ->
  sum_axis0 add (r :: rs)
  = Some (map (fun j => sum_left add (column d j (r :: rs)) d') (seq 0 n)).
Proof.
  intros [Hr Hrs]%Forall_cons. unfold sum_axis0.
  assert (Hall : forallb (fun r' => bool_decide (length r' = length r)) rs = true).
  { apply forallb_forall. intros x Hx%list_elem_of_In. apply bool_decide_eq_true.
    rewrite Forall_forall in Hrs. rewrite Hr. apply Hrs, Hx. }
  rewrite Hall. f_equal. apply (fold_zip_columns add d n rs r Hr Hrs).
Qed.

Lemma length_column {A} (d : A) (j : nat) (rows : list (list A)) :
  length (column d j rows) = length rows.
Proof. apply length_map. Qed.

Lemma mean_power_columns (rows : list (list Z)) :
  rows_ok rows = true ->
  mean_power rows = Some (map (fun j => mean64 (column 0%Z j rows)) (seq 0 1024)).
Proof.
  intros [Hne Hall]%rows_ok_spec. destruct rows as [|r rs]; [contradiction|].
  unfold mean_power.
  change (map (map Binary64.of_Z) (r :: rs))
    with (map Binary64.of_Z r :: map (map Binary64.of_Z) rs).
  rewrite (sum_axis0_columns Binary64.add (Binary64.of_Z 0) S754_nan 1024).
  - change (map Binary64.of_Z r :: map (map Binary64.of_Z) rs)
      with (map (map Binary64.of_Z) (r :: rs)).
    cbn [mbind option_bind]. f_equal. rewrite map_map.
    apply map_ext. intros j. unfold mean64.
    rewrite length_column. f_equal. f_equal.
    unfold column. rewrite !map_map. apply map_ext. intros x.
    apply (map_nth Binary64.of_Z).
  - change (map Binary64.of_Z r :: map (map Binary64.of_Z) rs)
      with (map (map Binary64.of_Z) (r :: rs)).
    apply Forall_map. eapply Forall_impl; [exact Hall|].
    intros x Hx. cbn beta. rewrite length_map. exact Hx.
Qed.

Lemma mean_kurt_columns (rows : list (list spec_float)) :
  rows_ok rows = true ->
  mean_kurt rows = Some (map (fun j => mean32 (column S754_nan j rows)) (seq 0 1024)).
Proof.
  intros [Hne Hall]%rows_ok_spec. destruct rows as [|r rs]; [contradiction|].
  unfold mean_kurt.
  rewrite (sum_axis0_columns Binary32.add S754_nan S754_nan 1024) by exact Hall.
  cbn [mbind option_bind]. f_equal. rewrite map_map.
  apply map_ext. intros j. unfold mean32.
  rewrite length_column. reflexivity.
Qed.

Lemma broadcast_row_full (v : list spec_float) :
  length v = 1024 -> broadcast_row v = Some v.
Proof.
  intros Hv. unfold broadcast_row. destruct (decide _); [reflexivity|contradiction].
Qed.

Lemma length_power_row (e : one_second) (IF : channel) :
  length (power_row e IF) = 1024.
Proof. unfold power_row. rewrite length_map. apply length_seq. Qed.

Lemma length_kurtosis_row (e : one_second) (IF : channel) :
  length (kurtosis_row e IF) = 1024.
Proof. unfold kurtosis_row. rewrite length_map. apply length_seq. Qed.

(** *** One dataset, one row more *)

Lemma setitem_first {A} (fill v : A) :
  setitem 0 v (rows_or fill []) = Some (rows_or fill ([] ++ [v])).
Proof.
  unfold setitem, rows_or. cbn [app length].
  destruct (decide (0 < 1)) as [_|H]; [reflexivity|lia].
Qed.

Lemma setitem_next {A} (fill v : A) (l : list A) (n : nat) :
  length l = n -> n <> 0 ->
  setitem n v (resize fill (n + 1) (rows_or fill l)) = Some (rows_or fill (l ++ [v])).
Proof.
  intros Hl Hn. destruct l as [|x l]; [cbn in Hl; lia|].
  change (rows_or fill (x :: l)) with (x :: l).
  change (rows_or fill ((x :: l) ++ [v])) with ((x :: l) ++ [v]).
  generalize dependent (x :: l). clear x l. intros l Hl.
  unfold resize, setitem. rewrite take_ge by lia.
  replace (n + 1 - length l) with 1 by lia. cbn [replicate].
  destruct (decide _) as [_|H]; [|rewrite length_app in H; cbn in H; lia].
  f_equal. rewrite insert_app_r_alt by lia.
  replace (n - length l) with 0 by lia. reflexivity.
Qed.

Lemma length_resize {A} (fill : A) (n : nat) (l : list A) :
  length (resize fill n l) = n.
Proof.
  unfold resize. rewrite length_app, length_take, length_replicate. lia.
Qed.

(** *** One file, one row more *)

Lemma write_row_written (conv : Z -> Z) (path signal : list byte) (IF : channel)
    (es : list one_second) (e : one_second) (t : Q) (first : Z) :
  epoch_ok e = true -> os_time e = Some t -> head (os_raw_pkt_cnt e) = Some first ->
  write_row conv (length es) t first e IF (written_file conv path signal IF es)
  = Some (written_file conv path signal IF (es ++ [e])).
Proof.
  intros Hok Ht Hfirst.
  assert (Hrows : rows_ok (os_pwr e IF) = true /\ rows_ok (os_krt e IF) = true).
  { unfold epoch_ok in Hok. rewrite Ht in Hok.
    destruct (os_raw_pkt_cnt e); [discriminate|].
    apply andb_true_iff in Hok as [Hok HkQ]. apply andb_true_iff in Hok as [Hok HpQ].
    apply andb_true_iff in Hok as [HpI HkI]. destruct IF; cbn [os_pwr os_krt]; auto. }
  destruct Hrows as [Hp Hk].
  assert (Hops : flat_map row_ops (seq 0 (length (es ++ [e])))
                 = flat_map row_ops (seq 0 (length es)) ++ row_ops (length es)).
  { rewrite length_app. cbn [length]. rewrite seq_app, flat_map_app.
    cbn [seq flat_map Nat.add]. rewrite app_nil_r. reflexivity. }
  unfold written_file at 2. rewrite Hops, !map_app. cbn [map]. rewrite Ht, Hfirst.
  cbn [default].
  unfold write_row.
  rewrite (mean_power_columns _ Hp), (mean_kurt_columns _ Hk).
  cbn [mbind option_bind].
  fold (kurtosis_row e IF). rewrite (broadcast_row_full (kurtosis_row e IF))
    by apply length_kurtosis_row.
  rewrite map_map. fold (power_row e IF).
  rewrite (broadcast_row_full (power_row e IF)) by apply length_power_row.
  cbn [mbind option_bind].
  destruct (decide (length es = 0)) as [H0|H0].
  - apply length_zero_iff_nil in H0. subst es.
    unfold written_file.
    cbn [length map aqtime pkt_cnt power kurtosis mf_ops mf_path mf_signal
         mf_channel mf_open seq flat_map app].
    rewrite !setitem_first. cbn [mbind option_bind app]. reflexivity.
  - unfold written_file, grow.
    cbn [aqtime pkt_cnt power kurtosis mf_ops mf_path mf_signal mf_channel mf_open].
    rewrite !setitem_next by (try rewrite length_map; auto).
    cbn [mbind option_bind]. unfold row_ops.
    destruct (decide (length es = 0)) as [|_]; [contradiction|].
    rewrite <- !app_assoc. reflexivity.
Qed.

Lemma record_one_second_written (conv : Z -> Z)
    (paths signal : per_channel (list byte)) (es : list one_second) (e : one_second) :
  epoch_ok e = true ->
  record_one_second conv e (MkAverager (written conv paths signal es) (length es))
  = Some (MkAverager (written conv paths signal (es ++ [e])) (length (es ++ [e]))).
Proof.
  intros Hok. unfold record_one_second.
  assert (Hok' := Hok). unfold epoch_ok in Hok'.
  destruct (os_time e) as [t|] eqn:Ht; [|discriminate].
  destruct (os_raw_pkt_cnt e) as [|first raw] eqn:Hraw; [discriminate|].
  cbn [mbind option_bind head av_counter av_files written sel at_I at_Q].
  rewrite !(write_row_written conv _ _ _ es e t first Hok Ht)
    by (rewrite Hraw; reflexivity).
  cbn [mbind option_bind]. rewrite length_app. reflexivity.
Qed.

Lemma average_loop_written (conv : Z -> Z) (paths signal : per_channel (list byte))
    (polls : list poll) :
  forall es : list one_second,
    Forall (fun e => epoch_ok e = true) (gots polls) ->
    average_loop conv polls (MkAverager (written conv paths signal es) (length es))
    = ending_of conv paths signal (es ++ gots polls) (stopped polls).
Proof.
  induction polls as [|[| |e] polls IH]; intros es Hok;
    cbn [average_loop gots stopped].
  - rewrite app_nil_r. reflexivity.
  - rewrite app_nil_r. reflexivity.
  - apply IH, Hok.
  - cbn [gots] in Hok. apply Forall_cons in Hok as [He Hok].
    rewrite (record_one_second_written conv paths signal es e He).
    rewrite (IH (es ++ [e]) Hok), <- app_assoc. reflexivity.
Qed.

(** Two different paths give two files, each as it was created. *)
Lemma open_monitor_files_distinct (conv : Z -> Z)
    (paths signal : per_channel (list byte)) :
  sel paths ChI <> sel paths ChQ ->
  open_monitor_files paths signal = Some (written conv paths signal []).
Proof.
  intros Hne. unfold open_monitor_files.
  destruct (decide (sel paths ChQ = sel paths ChI)) as [Heq|_]; [congruence|].
  reflexivity.
Qed.

(** One path for both channels: the second round raises. *)
Lemma open_monitor_files_same (paths signal : per_channel (list byte)) :
  sel paths ChI = sel paths ChQ ->
  open_monitor_files paths signal = None.
Proof.
  intros Heq. unfold open_monitor_files.
  destruct (decide (sel paths ChQ = sel paths ChI)) as [_|Hne]; [reflexivity|].
  congruence.
Qed.

Lemma average_one_second_same (conv : Z -> Z)
    (paths signal : per_channel (list byte)) (polls : list poll) :
  sel paths ChI = sel paths ChQ ->
  average_one_second conv polls paths signal = Died.
Proof.
  intros Heq. unfold average_one_second.
  rewrite (open_monitor_files_same paths signal Heq). reflexivity.
Qed.

(** The averager in closed form: with two files to write to, and as
    long as the dictionaries it takes are well formed, its files are
    those of [written]. *)
Lemma average_one_second_written (conv : Z -> Z)
    (paths signal : per_channel (list byte)) (polls : list poll) :
  sel paths ChI <> sel paths ChQ ->
  Forall (fun e => epoch_ok e = true) (gots polls) ->
  average_one_second conv polls paths signal
  = ending_of conv paths signal (gots polls) (stopped polls).
Proof.
  intros Hne Hok. unfold average_one_second.
  rewrite (open_monitor_files_distinct conv paths signal Hne).
  apply (average_loop_written conv paths signal polls [] Hok).
Qed.

(** *** Reading the datasets of [written] *)

Lemma map_lookup {A B} (f : A -> B) (l : list A) (k : nat) :
  map f l !! k = f <$> l !! k.
Proof.
  revert k. induction l as [|x l IH]; intros [|k]; cbn; try reflexivity. apply IH.
Qed.

Lemma rows_or_map_lookup {A B} (fill : B) (f : A -> B) (l : list A) (k : nat) (x : A) :
  l !! k = Some x -> rows_or fill (map f l) !! k = Some (f x).
Proof.
  intros Hk. destruct l as [|y l]; [discriminate|].
  change (rows_or fill (map f (y :: l))) with (map f (y :: l)).
  rewrite map_lookup, Hk. reflexivity.
Qed.


Lemma lookup_map_seq {A} (f : nat -> A) (n j : nat) :
  j < n -> map f (seq 0 n) !! j = Some (f j).
Proof.
  intros Hj. rewrite map_lookup, lookup_seq_lt by exact Hj. reflexivity.
Qed.

Lemma sel_written (conv : Z -> Z) (paths signal : per_channel (list byte))
    (es : list one_second) (IF : channel) :
  sel (written conv paths signal es) IF
  = written_file conv (sel paths IF) (sel signal IF) IF es.
Proof. destruct IF; reflexivity. Qed.


Lemma epoch_ok_spec (e : one_second) :
  epoch_ok e = true ->
  exists t first,
    os_time e = Some t /\ head (os_raw_pkt_cnt e) = Some first
    /\ forall IF, rows_ok (os_pwr e IF) = true /\ rows_ok (os_krt e IF) = true.
Proof.
  unfold epoch_ok. destruct (os_time e) as [t|]; [|discriminate].
  destruct (os_raw_pkt_cnt e) as [|first raw]; [discriminate|].
  intros Hok. exists t, first. split; [reflexivity|]. split; [reflexivity|].
  apply andb_true_iff in Hok as [Hok HkQ]. apply andb_true_iff in Hok as [Hok HpQ].
  apply andb_true_iff in Hok as [HpI HkI]. intros [|]; cbn [os_pwr os_krt]; auto.
Qed.

(** Row [k] of every dataset of [written] is the row of dictionary
    number [k]. *)
Lemma written_rows (conv : Z -> Z) (path signal : list byte) (IF : channel)
    (es : list one_second) (k : nat) (e : one_second) :
  es !! k = Some e -> epoch_ok e = true ->
  let f := written_file conv path signal IF es in
  aqtime f !! k = os_time e
  /\ pkt_cnt f !! k = (conv <$> head (os_raw_pkt_cnt e))
  /\ power f !! k = Some (power_row e IF)
  /\ kurtosis f !! k = Some (kurtosis_row e IF).
Proof.
  intros Hk Hok f. unfold f, written_file. cbn [aqtime pkt_cnt power kurtosis].
  destruct (epoch_ok_spec e Hok) as (t & first & Ht & Hfirst & _).
  rewrite !(rows_or_map_lookup _ _ es k e Hk), Ht, Hfirst. auto.
Qed.



(** *** What the rows hold *)

Lemma int32_wrap_conversion : int32_conversion int32_wrap.
Proof.
  intros x. unfold int32_wrap.
  pose proof (Z.mod_pos_bound (x + 2 ^ 31) (2 ^ 32) ltac:(lia)) as H.
  split; [lia|]. intros Hx. rewrite Z.mod_small by lia. lia.
Qed.

Lemma int32_sat_conversion : int32_conversion int32_sat.
Proof. intros x. unfold int32_sat. lia. Qed.

Lemma exactlyb_false (x : spec_float) (q : Q) :
  exactlyb x q = false -> ~ exactly x q.
Proof.
  unfold exactlyb, exactly. destruct (SF2Q x); [apply Qeq_bool_neq | tauto].
Qed.

Lemma same_valueb_false (x y : spec_float) :
  same_valueb x y = false -> ~ same_value x y.
Proof.
  unfold same_valueb, same_value, exactly. intros Hb (q & Hx & Hy).
  destruct (SF2Q x) as [qx|]; [|contradiction].
  destruct (SF2Q y) as [qy|]; [|contradiction].
  apply Qeq_bool_neq in Hb. apply Hb. rewrite Hx, Hy. reflexivity.
Qed.

Lemma files_of_ending (conv : Z -> Z) (paths signal : per_channel (list byte))
    (es : list one_second) (stop : bool) :
  exists files,
    files_of (ending_of conv paths signal es stop) = Some files
    /\ forall IF,
         aqtime (sel files IF) = aqtime (sel (written conv paths signal es) IF)
         /\ pkt_cnt (sel files IF) = pkt_cnt (sel (written conv paths signal es) IF)
         /\ power (sel files IF) = power (sel (written conv paths signal es) IF)
         /\ kurtosis (sel files IF)
            = kurtosis (sel (written conv paths signal es) IF).
Proof.
  destruct stop; cbn [ending_of files_of av_files]; eexists; (split; [reflexivity|]).
  - intros [|]; cbn [sel at_I at_Q close aqtime pkt_cnt power kurtosis]; auto.
  - intros IF. auto.
Qed.

(** One element of the power and of the kurtosis row of a dictionary. *)
Lemma written_elements (conv : Z -> Z) (path signal : list byte) (IF : channel)
    (es : list one_second) (k j : nat) (e : one_second) :
  es !! k = Some e -> epoch_ok e = true -> j < 1024 ->
  let f := written_file conv path signal IF es in
  element (power f) k j
  = Some (Binary32.of_float (mean64 (column 0%Z j (os_pwr e IF))))
  /\ element (kurtosis f) k j = Some (mean32 (column S754_nan j (os_krt e IF))).
Proof.
  intros Hk Hok Hj f. unfold element.
  destruct (written_rows conv path signal IF es k e Hk Hok) as (_ & _ & Hp & Hkt).
  fold f in Hp, Hkt. rewrite Hp, Hkt. cbn [mbind option_bind].
  unfold power_row, kurtosis_row. rewrite !lookup_map_seq by exact Hj. auto.
Qed.

(** C4, as the code has it.  For every well-formed dictionary the
    averager takes, in the monitor row written for it and for each
    channel: every element of the power vector is the mean of the
    corresponding column of the dictionary's power array as numpy
    computes it in double precision, rounded to the single precision of
    the dataset; every element of the kurtosis vector is the mean of the
    corresponding column of the kurtosis array as numpy computes it in
    single precision; the time is the capture time of the dictionary;
    the packet count is the raw packet counter of its first packet
    converted to a signed 32-bit integer, which is that counter itself
    whenever it is below 2^31.  An averager takes dictionaries only once
    it has opened its two files, which it has whenever their paths
    differ; one that has died writes no row. *)
Theorem monitor_rows_are_rounded_means (conv : Z -> Z)
    (paths signal : per_channel (list byte)) (polls : list poll) :
  int32_conversion conv -> forallb epoch_ok (gots polls) = true ->
  (sel paths ChI <> sel paths ChQ <->
   is_Some (files_of (average_one_second conv polls paths signal)))
  /\ forall files,
       files_of (average_one_second conv polls paths signal) = Some files ->
       forall k e IF, gots polls !! k = Some e ->
         (forall j, j < 1024 ->
            element (power (sel files IF)) k j
            = Some (Binary32.of_float (mean64 (column 0%Z j (os_pwr e IF))))
            /\ element (kurtosis (sel files IF)) k j
               = Some (mean32 (column S754_nan j (os_krt e IF))))
         /\ aqtime (sel files IF) !! k = os_time e
         /\ exists first,
              head (os_raw_pkt_cnt e) = Some first
              /\ pkt_cnt (sel files IF) !! k = Some (conv first)
              /\ ((- 2 ^ 31 <= first < 2 ^ 31)%Z ->
                  pkt_cnt (sel files IF) !! k = Some first).
Proof.
  intros Hconv Hok.
  assert (Hall : Forall (fun e => epoch_ok e = true) (gots polls)).
  { apply Forall_forall. intros e He%list_elem_of_In.
    rewrite forallb_forall in Hok. apply Hok, He. }
  destruct (decide (sel paths ChI = sel paths ChQ)) as [Heq|Hne].
  { rewrite (average_one_second_same conv paths signal polls Heq).
    cbn [files_of]. split.
    - split; [contradiction|]. intros [x Hx]. discriminate.
    - intros files Hfiles. discriminate. }
  rewrite (average_one_second_written conv paths signal polls Hne Hall).
  destruct (files_of_ending conv paths signal (gots polls) (stopped polls))
    as (files & Hfiles & Hsame).
  split; [split; [intros _; rewrite Hfiles; eexists; reflexivity | intros _; exact Hne]|].
  intros files' Hfiles'. rewrite Hfiles in Hfiles'.
  apply (inj Some) in Hfiles'. subst files'.
  intros k e IF Hk.
  assert (He : epoch_ok e = true).
  { rewrite Forall_forall in Hall. apply Hall. eapply list_elem_of_lookup_2, Hk. }
  destruct (Hsame IF) as (Ht & Hc & Hp & Hkt). rewrite Ht, Hc, Hp, Hkt, sel_written.
  destruct (written_rows conv (sel paths IF) (sel signal IF) IF _ k e Hk He)
    as (Htime & Hcnt & _ & _).
  split; [intros j Hj; apply written_elements; assumption|].
  split; [exact Htime|].
  destruct (epoch_ok_spec e He) as (t & first & _ & Hfirst & _).
  exists first. rewrite Hcnt, Hfirst. split; [reflexivity|]. split; [reflexivity|].
  intros Hrange. cbn [fmap option_fmap option_map]. f_equal. apply Hconv, Hrange.
Qed.

(** One dictionary of two packets, written by an averager that is then
    told to stop. *)
Lemma monitor_rows_are_rounded_means_witness :
  exists files,
    files_of (average_one_second int32_sat [Got (spike_epoch 2 7); Stop]
                (PerChannel [x49] [x51]) (PerChannel [x49] [x51])) = Some files
    /\ aqtime (sel files ChQ) !! 0 = Some 1530000000%Q
    /\ pkt_cnt (sel files ChQ) !! 0 = Some 7%Z
    /\ element (power (sel files ChQ)) 0 0
       = Some (Binary32.of_float (Binary64.div (Binary64.of_Z 1) (Binary64.of_Z 2))).
Proof.
  destruct (monitor_rows_are_rounded_means int32_sat (PerChannel [x49] [x51])
              (PerChannel [x49] [x51]) [Got (spike_epoch 2 7); Stop])
    as (Hlive & Hrows).
  - exact int32_sat_conversion.
  - vm_compute. reflexivity.
  - destruct (proj1 Hlive ltac:(discriminate)) as [files Hfiles].
    exists files. split; [exact Hfiles|].
    destruct (Hrows files Hfiles 0 (spike_epoch 2 7) ChQ eq_refl)
      as (Hel & Htime & first & Hfirst & _ & Hcnt).
    split; [exact Htime|].
    injection Hfirst as <-. split; [apply Hcnt; lia|].
    destruct (Hel 0 ltac:(lia)) as [Hp _]. rewrite Hp. vm_compute. reflexivity.
Defined.

(** The first row, for any dictionary. *)
Lemma first_row (conv : Z -> Z) (paths signal : per_channel (list byte))
    (e : one_second) (IF : channel) :
  sel paths ChI <> sel paths ChQ -> epoch_ok e = true ->
  average_one_second conv [Got e] paths signal
  = Polling (MkAverager (written conv paths signal [e]) 1)
  /\ element (power (sel (written conv paths signal [e]) IF)) 0 0
     = Some (Binary32.of_float (mean64 (column 0%Z 0 (os_pwr e IF))))
  /\ element (kurtosis (sel (written conv paths signal [e]) IF)) 0 0
     = Some (mean32 (column S754_nan 0 (os_krt e IF)))
  /\ pkt_cnt (sel (written conv paths signal [e]) IF) !! 0
     = (conv <$> head (os_raw_pkt_cnt e)).
Proof.
  intros Hne Hok. split.
  { rewrite (average_one_second_written conv paths signal [Got e] Hne)
      by (repeat constructor; exact Hok).
    reflexivity. }
  rewrite sel_written.
  destruct (written_elements conv (sel paths IF) (sel signal IF) IF [e] 0 0 e
              eq_refl Hok ltac:(lia)) as [Hp Hk].
  destruct (written_rows conv (sel paths IF) (sel signal IF) IF [e] 0 e eq_refl Hok)
    as (_ & Hc & _).
  auto.
Qed.

(** The dictionaries of [spike_epoch] are well formed. *)
Lemma rows_ok_stack {A} (r0 r : list A) (n : nat) :
  length r0 = 1024 -> length r = 1024 -> rows_ok (r0 :: repeat r n) = true.
Proof.
  intros H0 Hr. apply rows_ok_spec. split; [discriminate|].
  constructor; [exact H0|]. apply Forall_forall.
  intros x Hx%list_elem_of_In. apply repeat_spec in Hx. subst x. exact Hr.
Qed.

Lemma spike_epoch_ok (b : nat) (first : Z) :
  0 < b -> epoch_ok (spike_epoch b first) = true.
Proof.
  intros Hb. destruct b as [|b]; [lia|].
  unfold epoch_ok, spike_epoch.
  cbn [os_time os_raw_pkt_cnt os_pwr_I os_krt_I os_pwr_Q os_krt_Q seq map].
  assert (Hlen : forall {A} (x y : A), length (x :: repeat y 1023) = 1024)
    by (intros A x y; cbn [length]; rewrite repeat_length; reflexivity).
  rewrite !rows_ok_stack by (apply Hlen || apply repeat_length). reflexivity.
Qed.

(** C4 as the specification words it fails on the code.  Take the 5000
    packets of one second, all zero but for power 1 and fourth moment 1
    in the first bin of the first packet, numbered from 2^31 on.  The
    arithmetic mean of the first power column is 1/5000; the element
    the averager stores is not that number, and it is not the value of
    numpy's double precision mean either, because the dataset holds
    single precision.  The stored kurtosis element is not the arithmetic
    mean (1/4096)/5000.  The stored packet count is not the raw packet
    counter 2^31 of the first packet, whatever the conversion to 32 bits
    does with it. *)
Lemma stored_row_is_not_the_mean :
  let e := spike_epoch 5000 (2 ^ 31) in
  let paths := PerChannel [x49] [x51] in
  epoch_ok e = true
  /\ forall conv : Z -> Z, int32_conversion conv ->
       exists files x y c,
         average_one_second conv [Got e] paths paths = Polling (MkAverager files 1)
         /\ element (power (sel files ChI)) 0 0 = Some x
         /\ element (kurtosis (sel files ChI)) 0 0 = Some y
         /\ pkt_cnt (sel files ChI) !! 0 = Some c
         /\ (mean_exact (column 0%Z 0 (os_pwr e ChI)) == 1 # 5000)%Q
         /\ ~ exactly x (1 # 5000)
         /\ ~ same_value x (mean64 (column 0%Z 0 (os_pwr e ChI)))
         /\ ~ exactly y ((1 # 4096) / 5000)
         /\ head (os_raw_pkt_cnt e) = Some (2 ^ 31)%Z
         /\ c <> (2 ^ 31)%Z.
Proof.
  intros e paths.
  assert (Hok : epoch_ok e = true) by (apply spike_epoch_ok; lia).
  split; [exact Hok|]. intros conv Hconv.
  destruct (first_row conv paths paths e ChI ltac:(discriminate) Hok)
    as (Hrun & Hp & Hk & Hc).
  assert (Hfirst : head (os_raw_pkt_cnt e) = Some (2 ^ 31)%Z)
    by (vm_compute; reflexivity).
  rewrite Hfirst in Hc.
  eexists _, _, _, _. split; [exact Hrun|]. split; [exact Hp|].
  split; [exact Hk|]. split; [exact Hc|].
  split; [vm_compute; reflexivity|].
  split; [apply exactlyb_false; vm_compute; reflexivity|].
  split; [apply same_valueb_false; vm_compute; reflexivity|].
  split; [apply exactlyb_false; vm_compute; reflexivity|].
  split; [reflexivity|].
  destruct (Hconv (2 ^ 31)%Z) as [Hrange _]. lia.
Qed.

End AveragerFacts.

(** ** The main loop and its end time *)

Module RunFacts.

Import Unpacker KurtosisDataServer.
Local Open Scope Z_scope.

(** *** The wall clock *)

Lemma tm_hour_range (t : Q) : 0 <= tm_hour (gmtime t) <= 23.
Proof.
  unfold gmtime. cbn [tm_hour].
  pose proof (Z.mod_pos_bound (Z.quot (Qnum t) (Z.pos (Qden t)) / 3600) 24 ltac:(lia)).
  lia.
Qed.

Lemma gmtime_inject_Z (s : Z) :
  gmtime (inject_Z s) = StructTime ((s / 3600) mod 24) ((s / 60) mod 60) (s mod 60).
Proof.
  unfold gmtime, inject_Z. cbn [Qnum Qden]. rewrite Z.quot_1_r. reflexivity.
Qed.

(** The wall clock at the top of the next hour: minute and second are
    zero and the hour is the next one, counted modulo 24. *)
Lemma gmtime_top_of_next_hour (now : Q) :
  gmtime (top_of_next_hour now)
  = StructTime ((tm_hour (gmtime now) + 1) mod 24) 0 0.
Proof.
  unfold top_of_next_hour. rewrite gmtime_inject_Z.
  unfold gmtime. cbn [tm_hour].
  set (k := Z.quot (Qnum now) (Z.pos (Qden now)) / 3600).
  f_equal.
  - rewrite Z.div_mul by lia. rewrite Zplus_mod_idemp_l. reflexivity.
  - replace ((k + 1) * 3600) with ((k + 1) * 60 * 60) by lia.
    rewrite Z.div_mul by lia. apply Z.mod_mul. lia.
  - replace ((k + 1) * 3600) with ((k + 1) * 60 * 60) by lia.
    apply Z.mod_mul. lia.
Qed.

Lemma end_reached_spec (tg : target) (tm : struct_time) :
  end_reached tg tm = true <->
  tm_hour tm = endhr tg /\ tm_min tm = endmin tg /\ tm_sec tm = endsec tg.
Proof.
  unfold end_reached. rewrite !andb_true_iff, !Z.eqb_eq. tauto.
Qed.

(** No wall clock shows hour 24. *)
Lemma hour_24_never_reached (mn sc : Z) (t : Q) :
  end_reached (Target 24 mn sc) (gmtime t) = false.
Proof.
  unfold end_reached. cbn [endhr endmin endsec].
  pose proof (tm_hour_range t) as H.
  destruct (Z.eqb_spec (tm_hour (gmtime t)) 24) as [Heq|_]; [lia|reflexivity].
Qed.

(** *** The loop *)

Lemma at_target_timed (tg : target) (e : one_second) :
  at_target tg e = true -> timed e = true.
Proof. unfold at_target, timed. destruct (os_time e); [reflexivity|discriminate]. Qed.

(** Dictionaries that are not at the target are processed, one by one. *)
Lemma run_loop_processed (tg : target) (pre : list one_second) :
  forall (rest : list event) (r : recorder),
    Forall (fun e => timed e = true /\ at_target tg e = false) pre ->
    run_loop tg (map Dequeued pre ++ rest) r = run_loop tg rest (processed pre r).
Proof.
  induction pre as [|e pre IH]; intros rest r Hpre; [reflexivity|].
  apply Forall_cons in Hpre as [[Ht Ha] Hpre].
  cbn [map app run_loop processed fold_left].
  unfold timed in Ht. unfold at_target in Ha.
  destruct (os_time e) as [t|]; [|discriminate].
  rewrite Ha. apply IH, Hpre.
Qed.

(** A round in which an interrupt is due at a place it does not get
    to runs as a round without interrupt; otherwise the loop is left
    there. *)
Lemma run_loop_interrupted (tg : target) (e : one_second) (p : progress)
    (rest : list event) (r : recorder) :
  run_loop tg (Interrupted e p :: rest) r
  = if reached tg e p then LeftWithin (interrupted_at p e r) e p rest
    else run_loop tg (Dequeued e :: rest) r.
Proof.
  cbn [run_loop]. unfold reached, timed, at_target.
  destruct p, (os_time e) as [t|]; cbn [interrupted_at andb negb]; try reflexivity;
    destruct (end_reached tg (gmtime t)); reflexivity.
Qed.

Lemma reached_false (tg : target) (e : one_second) (p : progress) :
  reached tg e p = false <->
  (timed e = false /\ p <> Taken)
  \/ (at_target tg e = true /\ p <> Taken /\ p <> Tested).
Proof.
  unfold reached, timed, at_target.
  destruct p, (os_time e) as [t|]; cbn [andb negb];
    try destruct (end_reached tg (gmtime t)); split;
    try discriminate; try (intros _; left; split; [reflexivity|discriminate]);
    try (intros _; right; repeat split; discriminate);
    try reflexivity; intros [[H1 H2]|(H1 & H2 & H3)];
    try discriminate; try contradiction.
Qed.

Lemma run_loop_left (tg : target) (events : list event) :
  forall (r r' : recorder) (how : leave) (rest : list event),
    run_loop tg events r = Left how r' rest ->
    exists pre,
      Forall (fun e => timed e = true /\ at_target tg e = false) pre
      /\ r' = processed pre r
      /\ ((how = EndTime
           /\ exists e, at_target tg e = true
                /\ (events = map Dequeued pre ++ Dequeued e :: rest
                    \/ exists p, reached tg e p = false
                         /\ events = map Dequeued pre ++ Interrupted e p :: rest))
          \/ (how = KeyboardInterrupt
              /\ events = map Dequeued pre ++ Interrupt :: rest)).
Proof.
  induction events as [|[e| |e p|] events IH]; intros r r' how rest Hrun.
  - discriminate.
  - cbn [run_loop] in Hrun.
    destruct (os_time e) as [t|] eqn:Ht; [|discriminate].
    destruct (end_reached tg (gmtime t)) eqn:Hend.
    + injection Hrun as <- <- <-. exists []. split; [constructor|].
      split; [reflexivity|]. left. split; [reflexivity|].
      exists e. split; [unfold at_target; rewrite Ht; exact Hend|].
      left. reflexivity.
    + destruct (IH _ _ _ _ Hrun) as (pre & Hpre & Hr & Hcase).
      exists (e :: pre). split.
      { constructor; [|exact Hpre]. unfold timed, at_target. rewrite Ht. auto. }
      split; [exact Hr|].
      destruct Hcase as [[-> (e' & He' & [->|(p & Hp & ->)])]|[-> ->]];
        [left|left|right]; (split; [reflexivity|]);
        [exists e'; split; [exact He'|left; reflexivity]
        |exists e'; split; [exact He'|right; exists p; split; [exact Hp|reflexivity]]
        |reflexivity].
  - cbn [run_loop] in Hrun. injection Hrun as <- <- <-.
    exists []. split; [constructor|].
    split; [reflexivity|]. right. split; reflexivity.
  - rewrite run_loop_interrupted in Hrun.
    destruct (reached tg e p) eqn:Hp; [discriminate|].
    cbn [run_loop] in Hrun.
    destruct (os_time e) as [t|] eqn:Ht; [|discriminate].
    destruct (end_reached tg (gmtime t)) eqn:Hend.
    + injection Hrun as <- <- <-. exists []. split; [constructor|].
      split; [reflexivity|]. left. split; [reflexivity|].
      exists e. split; [unfold at_target; rewrite Ht; exact Hend|].
      right. exists p. split; [exact Hp|reflexivity].
    + exfalso. apply reached_false in Hp.
      unfold timed, at_target in Hp. rewrite Ht, Hend in Hp.
      destruct Hp as [[H _]|[H _]]; discriminate.
  - discriminate.
Qed.

Lemma run_loop_left_within (tg : target) (events : list event) :
  forall (r r' : recorder) (e : one_second) (p : progress) (rest : list event),
    run_loop tg events r = LeftWithin r' e p rest ->
    exists pre,
      Forall (fun e => timed e = true /\ at_target tg e = false) pre
      /\ r' = interrupted_at p e (processed pre r)
      /\ reached tg e p = true
      /\ events = map Dequeued pre ++ Interrupted e p :: rest.
Proof.
  induction events as [|[e0| |e0 p0|] events IH]; intros r r' e p rest Hrun.
  - discriminate.
  - cbn [run_loop] in Hrun.
    destruct (os_time e0) as [t|] eqn:Ht; [|discriminate].
    destruct (end_reached tg (gmtime t)) eqn:Hend; [discriminate|].
    destruct (IH _ _ _ _ _ Hrun) as (pre & Hpre & Hr & Hp & Hev).
    exists (e0 :: pre). split.
    { constructor; [|exact Hpre]. unfold timed, at_target. rewrite Ht. auto. }
    split; [exact Hr|]. split; [exact Hp|]. rewrite Hev. reflexivity.
  - discriminate.
  - rewrite run_loop_interrupted in Hrun.
    destruct (reached tg e0 p0) eqn:Hp.
    + injection Hrun as <- <- <- <-. exists []. split; [constructor|].
      split; [reflexivity|]. split; [exact Hp|reflexivity].
    + cbn [run_loop] in Hrun.
      destruct (os_time e0) as [t|] eqn:Ht; [|discriminate].
      destruct (end_reached tg (gmtime t)) eqn:Hend; [discriminate|].
      exfalso. apply reached_false in Hp.
      unfold timed, at_target in Hp. rewrite Ht, Hend in Hp.
      destruct Hp as [[H _]|[H _]]; discriminate.
  - discriminate.
Qed.

Lemma processed_fields (pre : list one_second) :
  forall r : recorder,
    monitor_queue (processed pre r) = monitor_queue r ++ pre
    /\ groups (processed pre r)
       = groups r ++ zip (seq (grpnum r) (length pre)) pre
    /\ grpnum (processed pre r) = (grpnum r + length pre)%nat
    /\ flushes (processed pre r) = (flushes r + length pre)%nat.
Proof.
  induction pre as [|e pre IH]; intros r; cbn [processed fold_left length seq zip zip_with].
  - rewrite !app_nil_r, !Nat.add_0_r. auto.
  - destruct (IH (process e r)) as (Hq & Hg & Hn & Hf).
    unfold processed in *. rewrite Hq, Hg, Hn, Hf.
    cbn [process monitor_queue groups grpnum flushes].
    rewrite <- !app_assoc. cbn [app].
    repeat split; lia.
Qed.

(** C6, as the code has it.  The main loop ends, and [run] goes on to
    the shutdown, exactly in these ways.  Through the end-time check: at
    the first dictionary taken from the queue whose time on the UTC
    wall clock has hour, minute and second equal to [(endhr, endmin, 0)];
    the recorder is then as the dictionaries before have left it.  Or
    on a [KeyboardInterrupt] raised inside the [try] block before such
    a dictionary came: while the loop waits for the next dictionary, or
    in the round of a dictionary it has taken, at a place this round
    gets to, which leaves the dictionary as far as the round got
    ([interrupted_at]).  Until then every dictionary is processed.  An
    end time given at start is the target, with second 0; when none is
    given and the server starts before 23 h UTC, the target is minute 0,
    second 0 of the next hour, the wall clock time of the top of the
    next UTC hour. *)
Theorem run_ends_at_target_or_interrupt (tg : target) (events : list event)
    (r : recorder) :
  (forall how r' rest,
     run_loop tg events r = Left how r' rest <->
     exists pre,
       Forall (fun e => timed e = true /\ at_target tg e = false) pre
       /\ r' = processed pre r
       /\ ((how = EndTime
            /\ exists e, at_target tg e = true
                 /\ (events = map Dequeued pre ++ Dequeued e :: rest
                     \/ exists p, reached tg e p = false
                          /\ events = map Dequeued pre ++ Interrupted e p :: rest))
           \/ (how = KeyboardInterrupt
               /\ events = map Dequeued pre ++ Interrupt :: rest)))
  /\ (forall r' e p rest,
        run_loop tg events r = LeftWithin r' e p rest <->
        exists pre,
          Forall (fun e => timed e = true /\ at_target tg e = false) pre
          /\ r' = interrupted_at p e (processed pre r)
          /\ reached tg e p = true
          /\ events = map Dequeued pre ++ Interrupted e p :: rest)
  /\ (forall hr mn now, end_time (Some (hr, mn)) now = Target hr mn 0)
  /\ (forall now, tm_hour (gmtime now) < 23 ->
        end_time None now = Target (tm_hour (gmtime now) + 1) 0 0
        /\ gmtime (top_of_next_hour now)
           = StructTime (tm_hour (gmtime now) + 1) 0 0
        /\ end_reached (end_time None now) (gmtime (top_of_next_hour now)) = true).
Proof.
  split; [|split; [|split]].
  - intros how r' rest. split; [apply run_loop_left|].
    intros (pre & Hpre & -> & [[-> (e & He & [->|(p & Hp & ->)])]|[-> ->]]);
      rewrite (run_loop_processed tg pre _ r Hpre);
      [|rewrite run_loop_interrupted, Hp|reflexivity];
      cbn [run_loop]; unfold at_target in He;
      (destruct (os_time e) as [t|]; [|discriminate]); rewrite He; reflexivity.
  - intros r' e p rest. split; [apply run_loop_left_within|].
    intros (pre & Hpre & -> & Hp & ->).
    rewrite (run_loop_processed tg pre _ r Hpre), run_loop_interrupted, Hp.
    reflexivity.
  - reflexivity.
  - intros now Hnow. pose proof (tm_hour_range now) as Hrange.
    assert (Htop : gmtime (top_of_next_hour now)
                   = StructTime (tm_hour (gmtime now) + 1) 0 0).
    { rewrite gmtime_top_of_next_hour, Z.mod_small by lia. reflexivity. }
    split; [reflexivity|]. split; [exact Htop|].
    rewrite Htop. apply end_reached_spec. cbn. auto.
Qed.

(** A start at 12:47:05 UTC on day 191 of 2018 without an end time, and
    an interrupt that comes when the second dictionary has been put on
    the monitor queue. *)
Lemma run_ends_at_target_or_interrupt_witness :
  let at_ (t : Q) := set_time fresh t in
  end_time None 1531226825 = Target 13 0 0
  /\ gmtime (top_of_next_hour 1531226825) = StructTime 13 0 0
  /\ run_loop (Target 13 0 0)
       [Dequeued (at_ 1531226826%Q); Interrupted (at_ 1531226827%Q) Forwarded;
        Dequeued (at_ 1531226828%Q)] recorder_start
     = LeftWithin
         (Recorder [at_ 1531226826%Q; at_ 1531226827%Q]
                   [(0%nat, at_ 1531226826%Q)] 1 1)
         (at_ 1531226827%Q) Forwarded [Dequeued (at_ 1531226828%Q)].
Proof.
  intros at_.
  destruct (run_ends_at_target_or_interrupt (Target 13 0 0)
              [Dequeued (at_ 1531226826%Q); Interrupted (at_ 1531226827%Q) Forwarded;
               Dequeued (at_ 1531226828%Q)] recorder_start)
    as (_ & Hwithin & _ & Hdefault).
  destruct (Hdefault 1531226825%Q) as (Htg & Htop & _).
  - vm_compute. reflexivity.
  - split; [exact Htg|]. split; [exact Htop|].
    apply Hwithin. exists [at_ 1531226826%Q].
    split; [repeat constructor|]. split; [reflexivity|].
    split; [vm_compute; reflexivity | reflexivity].
Defined.

(** C6 as the specification words it fails on the code in two ways.
    The loop is left on a [KeyboardInterrupt] without any dictionary
    having been taken, so not only when a time equals the target; it is
    left as well on one raised after a dictionary that is not at the
    target has been put on the monitor queue, which then has no group
    in the raw file.  And for a server started at 23:30:00 UTC without
    an end time the target is hour 24, which is not the wall clock time
    00:00:00 of the top of the next UTC hour: a dictionary taken at that
    instant does not end the loop. *)
Lemma loop_left_without_target_time :
  run_loop (Target 13 20 0) [Interrupt] recorder_start
  = Left KeyboardInterrupt recorder_start []
  /\ at_target (Target 13 20 0) (set_time fresh 1531226827) = false
  /\ run_loop (Target 13 20 0)
       [Interrupted (set_time fresh 1531226827) Forwarded] recorder_start
     = LeftWithin (Recorder [set_time fresh 1531226827] [] 0 0)
         (set_time fresh 1531226827) Forwarded []
  /\ end_time None 1531265400 = Target 24 0 0
  /\ gmtime (top_of_next_hour 1531265400) = StructTime 0 0 0
  /\ run_loop (end_time None 1531265400)
       [Dequeued (set_time fresh (top_of_next_hour 1531265400))] recorder_start
     = InLoop (process (set_time fresh (top_of_next_hour 1531265400)) recorder_start).
Proof. repeat split; vm_compute; reflexivity. Qed.

(** C9.  When the time of a dictionary taken from the queue is the
    target, the loop is left at once: the recorder is as the
    dictionaries before it have left it, the same as if the loop were
    still waiting after them.  The monitor queue has got these earlier
    dictionaries and no other, the raw file one group for each of them,
    numbered in sequence, and [grpnum] has advanced once for each of
    them: the dictionary at the target is neither forwarded to the
    averager nor stored, and has no number. *)
Theorem end_epoch_is_discarded (tg : target) (pre : list one_second)
    (e : one_second) (rest : list event) (r : recorder) :
  forallb (fun x => timed x && negb (at_target tg x)) pre = true ->
  at_target tg e = true ->
  run_loop tg (map Dequeued pre ++ Dequeued e :: rest) r
  = Left EndTime (processed pre r) rest
  /\ run_loop tg (map Dequeued pre) r = InLoop (processed pre r)
  /\ monitor_queue (processed pre r) = monitor_queue r ++ pre
  /\ groups (processed pre r)
     = groups r ++ zip (seq (grpnum r) (length pre)) pre
  /\ grpnum (processed pre r) = (grpnum r + length pre)%nat
  /\ flushes (processed pre r) = (flushes r + length pre)%nat.
Proof.
  intros Hpre He.
  assert (Hpre' : Forall (fun x => timed x = true /\ at_target tg x = false) pre).
  { apply Forall_forall. intros x Hx%list_elem_of_In.
    rewrite forallb_forall in Hpre. apply Hpre in Hx.
    apply andb_true_iff in Hx as [Ht Ha]. apply negb_true_iff in Ha. auto. }
  split.
  { rewrite (run_loop_processed tg pre _ r Hpre'). cbn [run_loop].
    unfold at_target in He. destruct (os_time e) as [t|]; [|discriminate].
    rewrite He. reflexivity. }
  split.
  { rewrite <- (app_nil_r (map Dequeued pre)).
    rewrite (run_loop_processed tg pre [] r Hpre'). reflexivity. }
  apply processed_fields.
Qed.

(** Two seconds of data before 13:20:00 on day 191 of 2018, the end time
    of the example in the source, and the second that begins then. *)
Lemma end_epoch_is_discarded_witness :
  let at_ (t : Q) := set_time fresh t in
  run_loop (Target 13 20 0)
    [Dequeued (at_ 1531228798%Q); Dequeued (at_ 1531228799%Q);
     Dequeued (at_ 1531228800%Q); Dequeued (at_ 1531228801%Q)] recorder_start
  = Left EndTime
      (Recorder [at_ 1531228798%Q; at_ 1531228799%Q]
                [(0%nat, at_ 1531228798%Q); (1%nat, at_ 1531228799%Q)] 2 2)
      [Dequeued (at_ 1531228801%Q)].
Proof.
  intros at_.
  destruct (end_epoch_is_discarded (Target 13 20 0)
              [at_ 1531228798%Q; at_ 1531228799%Q] (at_ 1531228800%Q)
              [Dequeued (at_ 1531228801%Q)] recorder_start) as (Hrun & _).
  - vm_compute. reflexivity.
  - vm_compute. reflexivity.
  - exact Hrun.
Defined.

(** C10.  A server started during hour 23 UTC without an end time gets
    the end hour 24.  The hour of a wall clock time lies between 0 and
    23, so no dictionary is at this target, the loop is never left
    through the end-time check, and it processes whatever dictionaries
    come. *)
Theorem hour_23_never_ends (now : Q) :
  tm_hour (gmtime now) = 23 ->
  end_time None now = Target 24 0 0
  /\ (forall t, 0 <= tm_hour (gmtime t) <= 23)
  /\ (forall e, at_target (end_time None now) e = false)
  /\ (forall events r how r' rest,
        run_loop (end_time None now) events r = Left how r' rest ->
        how = KeyboardInterrupt)
  /\ (forall es r, forallb timed es = true ->
        run_loop (end_time None now) (map Dequeued es) r = InLoop (processed es r)).
Proof.
  intros Hnow.
  assert (Htg : end_time None now = Target 24 0 0)
    by (unfold end_time; rewrite Hnow; reflexivity).
  assert (Hnever : forall e, at_target (end_time None now) e = false).
  { intros e. rewrite Htg. unfold at_target.
    destruct (os_time e); [apply hour_24_never_reached|reflexivity]. }
  split; [exact Htg|]. split; [exact tm_hour_range|]. split; [exact Hnever|].
  split.
  - intros events r how r' rest Hrun.
    destruct (run_loop_left _ _ _ _ _ _ Hrun) as (pre & _ & _ & [[_ (e & He & _)]|[-> _]]).
    + rewrite Hnever in He. discriminate.
    + reflexivity.
  - intros es r Hes. rewrite <- (app_nil_r (map Dequeued es)).
    rewrite run_loop_processed; [reflexivity|].
    apply Forall_forall. intros e He%list_elem_of_In.
    rewrite forallb_forall in Hes. split; [apply Hes, He | apply Hnever].
Qed.

(** A start at 23:30:00 UTC on day 191 of 2018. *)
Lemma hour_23_never_ends_witness :
  end_time None 1531265400 = Target 24 0 0
  /\ run_loop (end_time None 1531265400)
       (map Dequeued [set_time fresh (top_of_next_hour 1531265400)]) recorder_start
     = InLoop (processed [set_time fresh (top_of_next_hour 1531265400)] recorder_start).
Proof.
  destruct (hour_23_never_ends 1531265400%Q) as (Htg & _ & _ & _ & Hloop).
  - vm_compute. reflexivity.
  - split; [exact Htg|]. apply Hloop. reflexivity.
Defined.

End RunFacts.

(** ** The first packet *)

Module InitFacts.

Import Wire KurtosisDataServer.

Lemma pkt_size_calcsize : pkt_size = calcsize.
Proof. reflexivity. Qed.

Lemma recvfrom_arrives (net : network) :
  recvfrom (Some 2%Q) pkt_size net
  = match arrives_within 2 net with
    | Some data => Data (take pkt_size data)
    | None => TimedOut
    end.
Proof.
  unfold recvfrom, arrives_within.
  destruct net as [[delay data]|]; [|reflexivity].
  destruct (Qle_bool delay 2); reflexivity.
Qed.


Lemma unpack_from_hdr (buf : list byte) :
  calcsize <= length buf ->
  exists packet, unpack_from buf = Some packet /\ u_hdr packet = take 8 buf.
Proof.
  intros Hlen. unfold unpack_from.
  destruct (decide (length buf < calcsize)) as [Hlt|_]; [lia|].
  eexists. split; reflexivity.
Qed.

Lemma unpack_from_short (buf : list byte) :
  length buf < calcsize <-> unpack_from buf = None.
Proof.
  unfold unpack_from.
  destruct (decide (length buf < calcsize)) as [Hlt|Hge]; [tauto|].
  split; [lia|discriminate].
Qed.

Lemma header_of_datagram (data : list byte) :
  take 8 (take pkt_size data) = take 8 data.
Proof.
  rewrite take_take. reflexivity.
Qed.

Section Sniff.

Variable int : list byte -> option Z.


End Sniff.


(** *** The monitor file names *)




(** *** A first packet that is not read *)



End InitFacts.

(** ** Shutdown *)

Module ShutdownFacts.

Import KurtosisDataServer.

Lemma stop_unpacker_spec (count : nat) (s : server) (p : pstate) :
  unpacker s !! count = Some p ->
  exists s',
    stop_unpacker count s = Some s'
    /\ trace s' = trace s ++ stop_effects (PUnpacker count) p
    /\ (forall i, i <> count -> unpacker s' !! i = unpacker s !! i)
    /\ reader s' = reader s /\ aggregator s' = aggregator s
    /\ averager s' = averager s /\ same_rest s s'.
Proof.
  intros Hp. unfold stop_unpacker, stop_effects, same_rest. rewrite Hp.
  cbn [mbind option_bind].
  destruct (terminate p) as [p'|]; eexists; (split; [reflexivity|]);
    cbn [trace unpacker reader aggregator averager averaging socket_open
         file_open did]; (split; [reflexivity|]); (split; [|auto 10]);
    intros i Hi; [apply lookup_insert_ne; congruence | reflexivity].
Qed.

Lemma stop_aggregator_spec (count : nat) (s : server) (p : pstate) :
  aggregator s !! count = Some p ->
  exists s',
    stop_aggregator count s = Some s'
    /\ trace s' = trace s ++ stop_effects (PAggregator count) p
    /\ (forall i, i <> count -> aggregator s' !! i = aggregator s !! i)
    /\ reader s' = reader s /\ unpacker s' = unpacker s
    /\ averager s' = averager s /\ same_rest s s'.
Proof.
  intros Hp. unfold stop_aggregator, stop_effects, same_rest. rewrite Hp.
  cbn [mbind option_bind].
  destruct (terminate p) as [p'|]; eexists; (split; [reflexivity|]);
    cbn [trace unpacker reader aggregator averager averaging socket_open
         file_open did]; (split; [reflexivity|]); (split; [|auto 10]);
    intros i Hi; [apply lookup_insert_ne; congruence | reflexivity].
Qed.

(** The loop over the unpackers stops them one after the other, each
    as it found it. *)
Lemma stop_unpackers_spec (n : nat) :
  forall (a : nat) (s : server),
    (forall i, a <= i < a + n -> is_Some (unpacker s !! i)) ->
    exists s',
      for_range stop_unpacker (seq a n) s = Some s'
      /\ trace s'
         = trace s ++ flat_map (fun c => stop_effects (PUnpacker c)
                                           (state_of (unpacker s) c)) (seq a n)
      /\ reader s' = reader s /\ aggregator s' = aggregator s
      /\ averager s' = averager s /\ same_rest s s'.
Proof.
  induction n as [|n IH]; intros a s Hkeys; cbn [seq for_range flat_map].
  - exists s. rewrite app_nil_r. unfold same_rest. auto 10.
  - destruct (Hkeys a ltac:(lia)) as [p Hp].
    destruct (stop_unpacker_spec a s p Hp)
      as (s1 & -> & Htr & Hother & Hr & Hag & Hav & Hf1 & Hf2 & Hf3).
    cbn [mbind option_bind].
    destruct (IH (S a) s1) as (s' & -> & Htr' & Hr' & Hag' & Hav' & Hg1 & Hg2 & Hg3).
    { intros i Hi. rewrite Hother by lia. apply Hkeys. lia. }
    exists s'. split; [reflexivity|]. split.
    { rewrite Htr', Htr, <- app_assoc. f_equal. f_equal.
      - unfold state_of. rewrite Hp. reflexivity.
      - rewrite !flat_map_concat_map. f_equal. apply map_ext_in. intros c Hc%in_seq.
        unfold state_of. rewrite Hother by lia. reflexivity. }
    unfold same_rest. repeat split; congruence.
Qed.

Lemma stop_aggregators_spec (n : nat) :
  forall (a : nat) (s : server),
    (forall i, a <= i < a + n -> is_Some (aggregator s !! i)) ->
    exists s',
      for_range stop_aggregator (seq a n) s = Some s'
      /\ trace s'
         = trace s ++ flat_map (fun c => stop_effects (PAggregator c)
                                           (state_of (aggregator s) c)) (seq a n)
      /\ reader s' = reader s /\ unpacker s' = unpacker s
      /\ averager s' = averager s /\ same_rest s s'.
Proof.
  induction n as [|n IH]; intros a s Hkeys; cbn [seq for_range flat_map].
  - exists s. rewrite app_nil_r. unfold same_rest. auto 10.
  - destruct (Hkeys a ltac:(lia)) as [p Hp].
    destruct (stop_aggregator_spec a s p Hp)
      as (s1 & -> & Htr & Hother & Hr & Hun & Hav & Hf1 & Hf2 & Hf3).
    cbn [mbind option_bind].
    destruct (IH (S a) s1) as (s' & -> & Htr' & Hr' & Hun' & Hav' & Hg1 & Hg2 & Hg3).
    { intros i Hi. rewrite Hother by lia. apply Hkeys. lia. }
    exists s'. split; [reflexivity|]. split.
    { rewrite Htr', Htr, <- app_assoc. f_equal. f_equal.
      - unfold state_of. rewrite Hp. reflexivity.
      - rewrite !flat_map_concat_map. f_equal. apply map_ext_in. intros c Hc%in_seq.
        unfold state_of. rewrite Hother by lia. reflexivity. }
    unfold same_rest. repeat split; congruence.
Qed.

Lemma complete_spec (s : server) :
  complete s = true ->
  (forall i, 0 <= i < 0 + num_workers -> is_Some (unpacker s !! i))
  /\ (forall i, 0 <= i < 0 + num_aggregators -> is_Some (aggregator s !! i)).
Proof.
  unfold complete. rewrite andb_true_iff, !forallb_forall.
  intros [Hu Ha]. split; intros i Hi.
  - apply (bool_decide_eq_true_1 _), Hu, in_seq. lia.
  - apply (bool_decide_eq_true_1 _), Ha, in_seq. lia.
Qed.

Lemma stop_reader_spec (s : server) :
  trace (stop_reader s) = trace s ++ stop_effects PReader (reader s)
  /\ unpacker (stop_reader s) = unpacker s
  /\ aggregator (stop_reader s) = aggregator s
  /\ averager (stop_reader s) = averager s /\ same_rest s (stop_reader s).
Proof.
  unfold stop_reader, stop_effects, same_rest.
  destruct (terminate (reader s)); cbn; auto 10.
Qed.

Lemma stop_averager_spec (s : server) :
  trace (stop_averager s)
  = trace s ++ [AveragingOff; Sleep 1] ++ stop_effects PAverager (averager s)
  /\ averaging (stop_averager s) = 0%Z
  /\ socket_open (stop_averager s) = socket_open s
  /\ file_open (stop_averager s) = file_open s.
Proof.
  unfold stop_averager, stop_effects, averaging_off, did.
  cbn [averager trace averaging socket_open file_open reader unpacker aggregator].
  destruct (terminate (averager s)); cbn; rewrite <- !app_assoc; auto.
Qed.

(** The whole shutdown, in closed form. *)
Lemma shutdown_spec (s : server) :
  complete s = true ->
  exists s',
    shutdown s = Some s'
    /\ trace s' = trace s ++ shutdown_trace s
    /\ averaging s' = 0%Z /\ socket_open s' = false
    /\ file_open s' = file_open s.
Proof.
  intros [Hu Ha]%complete_spec. unfold shutdown, _terminate.
  set (s0 := did (averaging_off s) [Log LInfo None]).
  destruct (stop_reader_spec s0) as (Htr1 & Hun1 & Hag1 & Hav1 & _ & _ & Hf1).
  destruct (stop_unpackers_spec num_workers 0 (stop_reader s0))
    as (s2 & -> & Htr2 & _ & Hag2 & Hav2 & _ & _ & Hf2).
  { rewrite Hun1. exact Hu. }
  cbn [mbind option_bind].
  destruct (stop_aggregators_spec num_aggregators 0 s2)
    as (s3 & -> & Htr3 & _ & _ & Hav3 & _ & _ & Hf3).
  { rewrite Hag2, Hag1. exact Ha. }
  cbn [mbind option_bind].
  destruct (stop_averager_spec s3) as (Htr4 & Hoff & _ & Hf4).
  eexists. split; [reflexivity|].
  unfold close_socket. cbn [trace averaging socket_open file_open].
  split.
  { rewrite Htr4, Htr3, Htr2, Htr1, Hav3, Hav2, Hav1, Hag2, Hag1, Hun1.
    unfold shutdown_trace, s0, did, averaging_off.
    cbn [trace reader unpacker aggregator averager].
    rewrite <- !app_assoc. reflexivity. }
  split; [exact Hoff|]. split; [reflexivity|].
  rewrite Hf4, Hf3, Hf2, Hf1. reflexivity.
Qed.

(** C7, as the code has it.  A shutdown of a server whose dictionaries
    of processes are complete runs to its end and does, in this order:
    clear the averager's flag; stop the reader; stop the unpackers 0 to
    15; stop the aggregators 0 to 3; clear the flag once more, wait a
    second and terminate the averager; close the socket.  A process that
    cannot be terminated is reported at error level and the shutdown
    goes on with the next one.  At the end the flag is 0 and the socket
    is closed. *)
Theorem shutdown_order (s : server) :
  complete s = true ->
  exists s',
    shutdown s = Some s'
    /\ trace s'
       = trace s
         ++ [AveragingOff; Log LInfo None]
         ++ stop_effects PReader (reader s)
         ++ flat_map (fun count => stop_effects (PUnpacker count)
                                     (state_of (unpacker s) count))
                     (seq 0 num_workers)
         ++ flat_map (fun count => stop_effects (PAggregator count)
                                     (state_of (aggregator s) count))
                     (seq 0 num_aggregators)
         ++ [AveragingOff; Sleep 1]
         ++ stop_effects PAverager (averager s)
         ++ [SocketClose; Log LDebug None]
    /\ (forall p, stop_effects p NotStarted = [Terminate p false; Log LError (Some p)])
    /\ (forall p st, st <> NotStarted ->
          stop_effects p st = [Terminate p true; Log LInfo (Some p)])
    /\ averaging s' = 0%Z /\ socket_open s' = false.
Proof.
  intros Hs. destruct (shutdown_spec s Hs) as (s' & Hrun & Htr & Hoff & Hsock & _).
  exists s'. split; [exact Hrun|]. split; [exact Htr|].
  split; [reflexivity|]. split; [|auto].
  intros p [| |] Hst; [contradiction|reflexivity|reflexivity].
Qed.

(** The server with every process running, as [run] finds it. *)
Lemma shutdown_order_witness :
  exists s',
    shutdown started = Some s' /\ averaging s' = 0%Z /\ socket_open s' = false.
Proof.
  destruct (shutdown_order started) as (s' & Hrun & _ & _ & _ & Hoff & Hsock).
  - vm_compute. reflexivity.
  - exists s'. auto.
Defined.

(** C7 as the specification words it fails on the code.  In the
    shutdown of a server with every process running, the averager is
    terminated before the socket is closed, not after; the first thing
    done, before the reader is stopped, is to clear the averager's
    flag; and the raw file is still open at the end. *)
Lemma averager_is_not_stopped_last :
  exists s',
    shutdown started = Some s'
    /\ comes_before SocketClose (Terminate PAverager true) (trace s') = false
    /\ comes_before (Terminate PAverager true) SocketClose (trace s') = true
    /\ comes_before AveragingOff (Terminate PReader true) (trace s') = true
    /\ last (trace s') = Some (Log LDebug None)
    /\ file_open s' = true.
Proof.
  destruct (shutdown_spec started) as (s' & Hrun & Htr & _ & _ & Hfile);
    [vm_compute; reflexivity|].
  exists s'. split; [exact Hrun|]. rewrite Htr, Hfile.
  repeat split; vm_compute; reflexivity.
Qed.

End ShutdownFacts.

(** ** More on the wire format *)

Module WireFacts.

Import Wire.
Local Open Scope Z_scope.

Lemma unpack_H_app (n : nat) (buf extra : list byte) :
  (2 * n <= length buf)%nat -> unpack_H n (buf ++ extra) = unpack_H n buf.
Proof.
  revert buf. induction n as [|n IH]; intros buf Hlen; [reflexivity|].
  cbn [unpack_H]. rewrite take_app_le, drop_app_le by lia.
  rewrite IH by (rewrite length_drop; lia). reflexivity.
Qed.

Lemma unpack_H_take (n : nat) (buf : list byte) :
  unpack_H n (take (2 * n) buf) = unpack_H n buf.
Proof.
  destruct (Nat.le_gt_cases (2 * n) (length buf)) as [Hle|Hgt].
  - rewrite <- (take_drop (2 * n) buf) at 2.
    rewrite unpack_H_app by (rewrite length_take; lia). reflexivity.
  - rewrite take_ge by lia. reflexivity.
Qed.

(** The fields of the tuple, one by one. *)
Lemma unpack_from_fields (buf : list byte) (result : unpacked) :
  unpack_from buf = Some result ->
  u_hdr result = take 8 buf
  /\ u_pkt_cnt_sec result = be_uint (take 2 (drop 8 buf)) 0
  /\ u_sec_cnt result = be_uint (take 2 (drop 10 buf)) 0
  /\ u_raw_pkt_cnt result = be_uint (take 4 (drop 12 buf)) 0
  /\ u_data result = unpack_H (1024 * 4) (drop 16 buf)
  /\ (calcsize <= length buf)%nat.
Proof.
  unfold unpack_from. generalize (1024 * 4)%nat. intros n.
  destruct (decide _) as [|Hge]; [discriminate|].
  intros [= <-]. cbn [u_hdr u_pkt_cnt_sec u_sec_cnt u_raw_pkt_cnt u_data].
  repeat split. lia.
Qed.

Lemma calcsize_eq : calcsize = (16 + 2 * (1024 * 4))%nat.
Proof. reflexivity. Qed.

Lemma unpack_from_app (buf extra : list byte) :
  (calcsize <= length buf)%nat -> unpack_from (buf ++ extra) = unpack_from buf.
Proof.
  intros Hlen. unfold unpack_from.
  rewrite calcsize_eq in Hlen |- *. revert Hlen.
  generalize (1024 * 4)%nat. intros n Hlen.
  destruct (decide (length (buf ++ extra) < 16 + 2 * n)%nat) as [Hlt|_];
    [rewrite length_app in Hlt; lia|].
  destruct (decide (length buf < 16 + 2 * n)%nat) as [Hlt|_]; [lia|].
  rewrite !drop_app_le, !take_app_le by (rewrite ?length_drop; lia).
  rewrite unpack_H_app by (rewrite length_drop; lia). reflexivity.
Qed.

(** [unpack_from] raises exactly on buffers shorter than 8208 bytes, and
    on longer ones it reads the first 8208 bytes and nothing else. *)
Theorem unpack_from_reads_the_format (buf : list byte) :
  (unpack_from buf = None <-> (length buf < calcsize)%nat)
  /\ ((calcsize <= length buf)%nat ->
      forall extra, unpack_from (buf ++ extra) = unpack_from buf)
  /\ ((calcsize <= length buf)%nat ->
      unpack_from (take calcsize buf) = unpack_from buf).
Proof.
  split; [|split].
  - symmetry. apply InitFacts.unpack_from_short.
  - intros Hlen extra. apply unpack_from_app, Hlen.
  - intros Hlen. rewrite <- (take_drop calcsize buf) at 2.
    rewrite unpack_from_app by (rewrite length_take; lia). reflexivity.
Qed.

(** A buffer of exactly the size of the format, extended by five bytes. *)
Lemma unpack_from_reads_the_format_witness :
  unpack_from (repeat x07 (8 * 1026) ++ [x01; x02; x03; x04; x05])
  = unpack_from (repeat x07 (8 * 1026)).
Proof.
  destruct (unpack_from_reads_the_format (repeat x07 (8 * 1026))) as (_ & Happ & _).
  apply Happ. rewrite repeat_length. vm_compute. lia.
Defined.

Lemma be_uint_two (x y : byte) : be_uint [x; y] 0 = 256 * byte_val x + byte_val y.
Proof. cbn [be_uint]. lia. Qed.

Lemma be_uint_bound (bs : list byte) :
  0 <= be_uint bs 0 < 256 ^ Z.of_nat (length bs).
Proof.
  pose proof (DecodeFacts.be_uint_range bs 0 ltac:(lia)) as H. lia.
Qed.

(** Whatever the bytes, the fields of the tuple are in the ranges of
    their formats: a header of 8 characters, two unsigned shorts, one
    unsigned int, and 4096 unsigned shorts. *)
Theorem unpack_from_field_ranges (buf : list byte) (result : unpacked) :
  unpack_from buf = Some result ->
  length (u_hdr result) = 8%nat
  /\ 0 <= u_pkt_cnt_sec result < 2 ^ 16
  /\ 0 <= u_sec_cnt result < 2 ^ 16
  /\ 0 <= u_raw_pkt_cnt result < 2 ^ 32
  /\ length (u_data result) = 4096%nat
  /\ Forall (fun x => 0 <= x < 2 ^ 16) (u_data result).
Proof.
  intros Hun.
  destruct (unpack_from_fields buf result Hun) as (-> & -> & -> & -> & -> & Hlen).
  assert (Hwords : length (unpack_H (1024 * 4) (drop 16 buf)) = 4096%nat)
    by (rewrite DecodeFacts.length_unpack_H; reflexivity).
  pose proof (DecodeFacts.unpack_H_range (1024 * 4) (drop 16 buf)) as Hrange.
  revert Hwords Hrange. generalize (unpack_H (1024 * 4) (drop 16 buf)).
  intros data Hwords Hrange.
  assert (Hlen' : (16 <= length buf)%nat) by (rewrite calcsize_eq in Hlen; lia).
  clear Hlen.
  assert (Hb : forall k m, (k + m <= length buf)%nat ->
                 length (take k (drop m buf)) = k)
    by (intros k m Hkm; rewrite length_take, length_drop; lia).
  split; [rewrite length_take; lia|].
  pose proof (be_uint_bound (take 2 (drop 8 buf))) as H1.
  pose proof (be_uint_bound (take 2 (drop 10 buf))) as H2.
  pose proof (be_uint_bound (take 4 (drop 12 buf))) as H3.
  rewrite Hb in H1, H2, H3 by lia.
  change (256 ^ Z.of_nat 2) with (2 ^ 16) in *.
  change (256 ^ Z.of_nat 4) with (2 ^ 32) in *.
  split; [exact H1|]. split; [exact H2|]. split; [exact H3|].
  split; [exact Hwords | exact Hrange].
Qed.

Lemma unpack_from_field_ranges_witness :
  exists result,
    unpack_from (repeat xff (8 * 1026)) = Some result
    /\ 0 <= u_raw_pkt_cnt result < 2 ^ 32
    /\ length (u_data result) = 4096%nat.
Proof.
  destruct (InitFacts.unpack_from_hdr (repeat xff (8 * 1026))) as (result & Hun & _).
  - rewrite repeat_length. vm_compute. lia.
  - exists result. split; [exact Hun|].
    destruct (unpack_from_field_ranges _ _ Hun) as (_ & _ & _ & Hraw & Hlen & _).
    split; [exact Hraw | exact Hlen].
Defined.

End WireFacts.

(** ** Nothing is lost in decoding *)

Module LosslessFacts.

Import Wire Decode.
Local Open Scope Z_scope.

Lemma byte_val_inj (x y : byte) : byte_val x = byte_val y -> x = y.
Proof.
  unfold byte_val. intros H. apply N2Z.inj in H.
  pose proof (Byte.of_to_N x) as Hx. rewrite H, Byte.of_to_N in Hx. congruence.
Qed.

Lemma be_uint_inj (bs1 : list byte) :
  forall (bs2 : list byte) (acc1 acc2 : Z),
    length bs1 = length bs2 -> 0 <= acc1 -> 0 <= acc2 ->
    be_uint bs1 acc1 = be_uint bs2 acc2 -> acc1 = acc2 /\ bs1 = bs2.
Proof.
  induction bs1 as [|x bs1 IH]; intros [|y bs2] acc1 acc2 Hlen H1 H2 Heq;
    try discriminate.
  - cbn in Heq. auto.
  - cbn [be_uint] in Heq.
    pose proof (DecodeFacts.byte_val_range x). pose proof (DecodeFacts.byte_val_range y).
    destruct (IH bs2 (256 * acc1 + byte_val x) (256 * acc2 + byte_val y))
      as [Hacc ->]; [cbn in Hlen; lia | lia | lia | exact Heq |].
    assert (acc1 = acc2) by lia. subst acc2.
    split; [reflexivity|]. f_equal. apply byte_val_inj. lia.
Qed.

Lemma unpack_H_inj (n : nat) :
  forall b1 b2 : list byte,
    (2 * n <= length b1)%nat -> (2 * n <= length b2)%nat ->
    unpack_H n b1 = unpack_H n b2 -> take (2 * n) b1 = take (2 * n) b2.
Proof.
  induction n as [|n IH]; intros b1 b2 H1 H2 Heq; [reflexivity|].
  cbn [unpack_H] in Heq. injection Heq as Hhead Htail.
  apply be_uint_inj in Hhead as [_ Hhead];
    [|rewrite !length_take; lia|lia|lia].
  apply IH in Htail; [|rewrite length_drop; lia..].
  replace (2 * S n)%nat with (2 + 2 * n)%nat by lia.
  rewrite <- !take_take_drop, Hhead, Htail. reflexivity.
Qed.

(** The parts of the 8208 bytes [unpack_from] reads. *)
Lemma take_calcsize (buf : list byte) :
  take calcsize buf
  = take 8 buf ++ take 2 (drop 8 buf) ++ take 2 (drop 10 buf)
    ++ take 4 (drop 12 buf) ++ take (2 * (1024 * 4)) (drop 16 buf).
Proof.
  rewrite WireFacts.calcsize_eq. generalize (2 * (1024 * 4))%nat. intros n.
  change (16 + n)%nat with (8 + (2 + (2 + (4 + n))))%nat.
  rewrite <- !take_take_drop, !drop_drop. reflexivity.
Qed.

(** Two buffers that [unpack_from] turns into the same tuple agree on
    the 8208 bytes it reads: the tuple holds all there is in a packet. *)
Theorem unpack_from_injective (buf1 buf2 : list byte) (result : unpacked) :
  unpack_from buf1 = Some result -> unpack_from buf2 = Some result ->
  take calcsize buf1 = take calcsize buf2.
Proof.
  intros H1 H2.
  destruct (WireFacts.unpack_from_fields _ _ H1) as (Hh1 & Hp1 & Hs1 & Hr1 & Hd1 & Hl1).
  destruct (WireFacts.unpack_from_fields _ _ H2) as (Hh2 & Hp2 & Hs2 & Hr2 & Hd2 & Hl2).
  rewrite !take_calcsize.
  rewrite WireFacts.calcsize_eq in Hl1, Hl2.
  rewrite Hd1 in Hd2. revert Hl1 Hl2 Hd2. generalize (1024 * 4)%nat.
  intros n Hl1 Hl2 Hd2.
  assert (Hlen : forall k m, (k + m <= 16)%nat ->
                   length (take k (drop m buf1)) = length (take k (drop m buf2)))
    by (intros k m Hkm; rewrite !length_take, !length_drop; lia).
  rewrite <- Hh1, <- Hh2.
  rewrite Hp1 in Hp2. apply be_uint_inj in Hp2 as [_ ->]; [|apply Hlen; lia|lia|lia].
  rewrite Hs1 in Hs2. apply be_uint_inj in Hs2 as [_ ->]; [|apply Hlen; lia|lia|lia].
  rewrite Hr1 in Hr2. apply be_uint_inj in Hr2 as [_ ->]; [|apply Hlen; lia|lia|lia].
  apply unpack_H_inj in Hd2; [|rewrite length_drop; lia..].
  rewrite Hd2. reflexivity.
Qed.

Lemma unpack_from_injective_witness :
  take calcsize (repeat x2a (8 * 1026) ++ [x01])
  = take calcsize (repeat x2a (8 * 1026) ++ [x02; x03]).
Proof.
  destruct (InitFacts.unpack_from_hdr (repeat x2a (8 * 1026))) as (result & Hun & _);
    [rewrite repeat_length; vm_compute; lia|].
  apply (unpack_from_injective _ _ result).
  - rewrite WireFacts.unpack_from_app; [exact Hun | rewrite repeat_length; vm_compute; lia].
  - rewrite WireFacts.unpack_from_app; [exact Hun | rewrite repeat_length; vm_compute; lia].
Defined.

(** *** The decoder rearranges *)

(** [unscramble] raises, in [reshape], exactly when the payload has
    not 4096 words. *)
Lemma unscramble_raises (data : list Z) :
  unscramble data = None <-> length data <> 4096%nat.
Proof.
  unfold unscramble, reshape. rewrite length_map.
  change (1024 * 4)%nat with 4096%nat.
  destruct (decide (length data = 4096%nat)) as [Heq|Hne];
    cbn [mbind option_bind]; [split; [discriminate|contradiction] | tauto].
Qed.

Lemma flat_rows (n : nat) :
  forall data : list Z,
    length data = (4 * n)%nat ->
    data = flat_map (fun r => [spec_D data r 0; spec_D data r 1;
                               spec_D data r 2; spec_D data r 3]) (seq 0 n).
Proof.
  induction n as [|n IH]; intros data Hlen.
  - destruct data; [reflexivity|discriminate].
  - destruct data as [|a [|b [|c [|d rest]]]]; try (cbn in Hlen; lia).
    cbn [seq flat_map app]. unfold spec_D at 1 2 3 4. cbn [Nat.mul Nat.add nth].
    do 4 f_equal. rewrite (IH rest) at 1 by (cbn in Hlen; lia).
    rewrite <- seq_shift, !flat_map_concat_map, map_map. f_equal.
    apply map_ext. intros r. unfold spec_D.
    replace (4 * S r)%nat with (S (S (S (S (4 * r))))) by lia. reflexivity.
Qed.

Lemma columns_perm {A} (f0 f1 f2 f3 : nat -> A) (l : list nat) :
  Permutation (flat_map (fun r => [f0 r; f1 r; f2 r; f3 r]) l)
              (map f0 l ++ map f1 l ++ map f2 l ++ map f3 l).
Proof.
  induction l as [|r l IH]; [reflexivity|].
  cbn [flat_map map app]. rewrite IH.
  rewrite <- !Permutation_middle. reflexivity.
Qed.

(** The four arrays hold the words of the payload, each once: no sample
    is lost and none is doubled.  (The kurtosis arrays are the scaled
    images of the words named here.) *)
Theorem unscramble_rearranges (data : list Z) :
  wf_payload data = true ->
  exists power kurt wI wQ,
    unscramble data = Some (power, kurt)
    /\ sel kurt ChI = map kurt_scale wI
    /\ sel kurt ChQ = map kurt_scale wQ
    /\ Permutation (sel power ChI ++ sel power ChQ ++ wI ++ wQ) data.
Proof.
  intros Hwf. pose proof (DecodeFacts.unscramble_eq data Hwf) as Heq.
  apply DecodeFacts.wf_payload_spec in Hwf as [Hlen _].
  eexists _, _, _, _. split; [exact Heq|]. cbn [sel at_I at_Q].
  split; [reflexivity|]. split; [reflexivity|].
  rewrite (flat_rows 1024 data Hlen) at 5.
  change (seq 0 1024) with (seq 0 (512 + 512)).
  rewrite seq_app, flat_map_app, !columns_perm.
  unfold spec_concat. cbn [Nat.add].
  set (u := seq 0 512). set (l := seq 512 512).
  rewrite <- !app_assoc.
  do 2 apply Permutation_app_head.
  rewrite !(app_assoc (map (fun r => spec_D data r 0) l)),
          !(app_assoc (map (fun r => spec_D data r 2) u)).
  apply Permutation_app_swap_app.
Qed.

(** The decoder run on a payload that counts upwards. *)
Lemma unscramble_rearranges_witness :
  exists power kurt wI wQ,
    unscramble (map Z.of_nat (seq 0 4096)) = Some (power, kurt)
    /\ sel kurt ChI = map kurt_scale wI
    /\ sel kurt ChQ = map kurt_scale wQ
    /\ Permutation (sel power ChI ++ sel power ChQ ++ wI ++ wQ)
                   (map Z.of_nat (seq 0 4096)).
Proof.
  apply (unscramble_rearranges (map Z.of_nat (seq 0 4096))).
  vm_compute. reflexivity.
Defined.

End LosslessFacts.

(** ** The unpacker worker at its limits *)

Module WorkerFacts.

Import Wire Decode Unpacker.
Local Open Scope Z_scope.

(** What the body of the inner loop makes of a packet of full size. *)
Lemma step_takes_exact (b : Z) (w : worker) (a : arrival) (rest : list arrival) :
  w_count w <> 0 -> w_input w = a :: rest ->
  (calcsize <= length (a_buf a))%nat ->
  exists result powr kurtsis,
    step b w
    = Next (Worker rest
              (append_packet
                 (if decide (w_count w = b)
                  then set_time (w_one_second w) (a_clock a)
                  else w_one_second w) result powr kurtsis)
              (w_count w - 1) (w_output w)).
Proof.
  intros Hc Hin Hlen. unfold step.
  destruct (decide (w_count w = 0)) as [|_]; [contradiction|]. rewrite Hin.
  destruct (unpack_from (a_buf a)) as [result|] eqn:Hun.
  - pose proof (DecodeFacts.unpack_from_wf _ _ Hun) as Hwf.
    rewrite (DecodeFacts.unscramble_eq _ Hwf). eexists _, _, _. reflexivity.
  - apply InitFacts.unpack_from_short in Hun. lia.
Qed.

(** [n] packets of full size are taken one after the other while the
    counter lasts; the time of the dictionary is not touched once its
    first packet is in. *)
Lemma run_takes_keep (b : Z) (n : nat) :
  forall (fuel : nat) (w : worker) (pkts rest : list arrival),
    Z.of_nat n <= w_count w -> w_input w = pkts ++ rest -> length pkts = n ->
    Forall (fun a => calcsize <= length (a_buf a))%nat pkts ->
    exists w', unscramble_packet b (n + fuel) w = unscramble_packet b fuel w'
               /\ w_input w' = rest /\ w_count w' = w_count w - Z.of_nat n
               /\ w_output w' = w_output w
               /\ (w_count w < b ->
                   os_time (w_one_second w') = os_time (w_one_second w)).
Proof.
  induction n as [|n IH]; intros fuel w pkts rest Hc Hin Hlen Hall.
  - destruct pkts; [|discriminate]. exists w. cbn [Nat.add app] in *.
    repeat split; try assumption; try reflexivity. lia.
  - destruct pkts as [|a pkts]; [discriminate|].
    apply Forall_cons in Hall as [Ha Hall].
    destruct (step_takes_exact b w a (pkts ++ rest))
      as (result & powr & kurtsis & Hstep); [lia | exact Hin | exact Ha |].
    match type of Hstep with _ = Next ?x => set (w1 := x) in Hstep end.
    destruct (IH fuel w1 pkts rest) as (w' & Hrun & Hin' & Hc' & Ho' & Ht');
      [cbn [w1 w_count]; lia | reflexivity | cbn in Hlen; lia | exact Hall |].
    exists w'. cbn [Nat.add unscramble_packet]. rewrite Hstep.
    split; [exact Hrun|]. split; [exact Hin'|].
    split; [rewrite Hc'; cbn [w1 w_count]; lia|].
    split; [exact Ho'|]. intros Hlt.
    rewrite Ht' by (cbn [w1 w_count]; lia). cbn [w1 w_one_second].
    destruct (decide (w_count w = b)) as [|_]; [lia|]. reflexivity.
Qed.

(** One block of [b] packets makes one dictionary, timed at its first
    packet. *)
Lemma block_run (b : Z) (blk rest : list arrival) (fuel : nat) (w : worker) :
  0 < b -> w_count w = b -> w_input w = blk ++ rest ->
  Z.of_nat (length blk) = b ->
  Forall (fun a => calcsize <= length (a_buf a))%nat blk ->
  exists e,
    unscramble_packet b (length blk + S fuel) w
    = unscramble_packet b fuel (Worker rest fresh b (w_output w ++ [e]))
    /\ os_time e = a_clock <$> head blk.
Proof.
  intros Hb Hc Hin Hlen Hall.
  destruct blk as [|a pkts]; [cbn in Hlen; lia|].
  apply Forall_cons in Hall as [Ha Hall].
  destruct (step_takes_exact b w a (pkts ++ rest))
    as (result & powr & kurtsis & Hstep); [lia | exact Hin | exact Ha |].
  destruct (decide (w_count w = b)) as [_|]; [|contradiction].
  match type of Hstep with _ = Next ?x => set (w1 := x) in Hstep end.
  destruct (run_takes_keep b (length pkts) (S fuel) w1 pkts rest)
    as (w2 & Hrun & Hin2 & Hc2 & Ho2 & Ht2);
    [cbn [w1 w_count]; cbn [length] in Hlen; lia | reflexivity | reflexivity
     | exact Hall |].
  exists (w_one_second w2).
  cbn [length Nat.add unscramble_packet]. rewrite Hstep, Hrun.
  cbn [unscramble_packet]. unfold step.
  destruct (decide (w_count w2 = 0)) as [_|Hne];
    [|exfalso; apply Hne; rewrite Hc2; cbn [w1 w_count]; cbn [length] in Hlen; lia].
  rewrite Hin2, Ho2. split; [reflexivity|].
  rewrite Ht2 by (cbn [w1 w_count]; lia). reflexivity.
Qed.

Lemma blocks_run (b : Z) (blocks : list (list arrival)) :
  0 < b ->
  forall (fuel : nat) (w : worker) (rest : list arrival),
    w_count w = b -> w_one_second w = fresh ->
    w_input w = concat blocks ++ rest ->
    Forall (fun blk => Z.of_nat (length blk) = b
                       /\ Forall (fun a => calcsize <= length (a_buf a))%nat blk)
           blocks ->
    exists w',
      unscramble_packet b (length (concat blocks) + length blocks + fuel) w
      = unscramble_packet b fuel w'
      /\ w_input w' = rest /\ w_count w' = b /\ w_one_second w' = fresh
      /\ map os_time (w_output w')
         = map os_time (w_output w)
           ++ map (fun blk => a_clock <$> head blk) blocks.
Proof.
  intros Hb. induction blocks as [|blk blocks IH]; intros fuel w rest Hc Hone Hin Hall.
  - exists w. cbn [concat length Nat.add map]. rewrite app_nil_r. auto.
  - apply Forall_cons in Hall as [[Hlen Hfull] Hall].
    cbn [concat] in Hin. rewrite <- app_assoc in Hin.
    destruct (block_run b blk (concat blocks ++ rest)
                (length (concat blocks) + length blocks + fuel) w)
      as (e & Hrun & Htime); try assumption.
    match type of Hrun with _ = unscramble_packet _ _ ?x => set (w1 := x) in Hrun end.
    destruct (IH fuel w1 rest) as (w' & Hrun' & Hin' & Hc' & Hone' & Hout');
      [reflexivity | reflexivity | reflexivity | exact Hall |].
    exists w'. split.
    { rewrite <- Hrun', <- Hrun. f_equal.
      cbn [concat length]. rewrite length_app. lia. }
    split; [exact Hin'|]. split; [exact Hc'|]. split; [exact Hone'|].
    rewrite Hout'. cbn [w1 w_output]. rewrite map_app. cbn [map].
    rewrite Htime, <- app_assoc. reflexivity.
Qed.

(** Every dictionary a worker has put on its output queue is full. *)
Lemma output_full (b : Z) (input : list arrival) (fuel : nat) :
  Forall (full b) (w_output (unscramble_packet b fuel (start b input))).
Proof.
  destruct (UnpackerFacts.batched_run b input fuel _
              (UnpackerFacts.batched_start b input))
    as (consumed & blocks & cur & _ & _ & Hblocks & Hout & _).
  rewrite Hout. apply Forall_map.
  eapply Forall_impl; [exact Hblocks|]. intros blk. apply UnpackerFacts.full_epoch_of.
Qed.

(** Given [k] blocks of [b > 0] packets of full size each, the worker
    takes exactly these packets and puts exactly [k] dictionaries on its
    output queue, one per block and in the order of the blocks; each is
    full and carries as its time the reading of the clock at the first
    packet of its block.  It then starts the next dictionary afresh. *)
Theorem whole_epochs_emitted (b : Z) (blocks : list (list arrival))
    (rest : list arrival) :
  0 < b ->
  Forall (fun blk => Z.of_nat (length blk) = b
                     /\ Forall (fun a => calcsize <= length (a_buf a))%nat blk)
         blocks ->
  let w := unscramble_packet b (length (concat blocks) + length blocks)
             (start b (concat blocks ++ rest)) in
  w_input w = rest /\ w_count w = b /\ w_one_second w = fresh
  /\ map os_time (w_output w) = map (fun blk => a_clock <$> head blk) blocks
  /\ Forall (full b) (w_output w).
Proof.
  intros Hb Hall w.
  destruct (blocks_run b blocks Hb 0 (start b (concat blocks ++ rest)) rest)
    as (w' & Hrun & Hin & Hc & Hone & Hout);
    [reflexivity | reflexivity | reflexivity | exact Hall |].
  rewrite Nat.add_0_r in Hrun. cbn [unscramble_packet] in Hrun.
  split; [unfold w; rewrite Hrun; exact Hin|].
  split; [unfold w; rewrite Hrun; exact Hc|].
  split; [unfold w; rewrite Hrun; exact Hone|].
  split; [unfold w; rewrite Hrun; exact Hout|].
  apply output_full.
Qed.

(** Two blocks of two packets of 8208 bytes, and one packet more. *)
Lemma whole_epochs_emitted_witness :
  let p (t : Q) := Arrival t (repeat x00 (8 * 1026)) in
  map os_time
      (w_output (unscramble_packet 2 6
                   (start 2 [p 10%Q; p 11%Q; p 12%Q; p 13%Q; p 14%Q])))
  = [Some 10%Q; Some 12%Q].
Proof.
  intros p.
  destruct (whole_epochs_emitted 2 [[p 10%Q; p 11%Q]; [p 12%Q; p 13%Q]] [p 14%Q])
    as (_ & _ & _ & Hout & _).
  - lia.
  - repeat constructor; cbn [p a_buf]; rewrite repeat_length; vm_compute; lia.
  - exact Hout.
Defined.

(** A worker that blocks or raises stays where it is. *)
Lemma run_stuck (b : Z) (w : worker) (fuel : nat) :
  step b w = Waiting \/ step b w = Raised -> unscramble_packet b fuel w = w.
Proof.
  intros Hstep. destruct fuel as [|fuel]; [reflexivity|].
  cbn [unscramble_packet]. destruct Hstep as [-> | ->]; reflexivity.
Qed.

(** Running longer is running on. *)
Lemma run_add (b : Z) (n m : nat) :
  forall w : worker,
    unscramble_packet b (n + m) w
    = unscramble_packet b m (unscramble_packet b n w).
Proof.
  induction n as [|n IH]; intros w; [reflexivity|].
  cbn [Nat.add unscramble_packet].
  destruct (step b w) as [w'| |] eqn:Hstep; [apply IH| |];
    symmetry; apply run_stuck; auto.
Qed.

(** A packet shorter than the 8208 bytes of the format makes
    [unpack_from] raise, which ends the worker.  With fewer than [b]
    packets of full size before it, the worker comes to the loop test
    before the short packet with nothing on its output queue, and the
    round it begins there raises, however long the worker is given: no
    dictionary is ever put on the output queue, and the packets taken
    for the dictionary in the making are lost.  The short packet itself
    has left the input queue when [unpack_from] raises on it: what the
    dead worker leaves on the queue are the packets that came after it,
    which it never takes. *)
Theorem short_packet_stops_worker (b : Z) (pkts : list arrival) (a : arrival)
    (rest : list arrival) (fuel : nat) :
  Z.of_nat (length pkts) < b ->
  Forall (fun a => calcsize <= length (a_buf a))%nat pkts ->
  (length (a_buf a) < calcsize)%nat ->
  (length pkts <= fuel)%nat ->
  let w := unscramble_packet b fuel (start b (pkts ++ a :: rest)) in
  step b w = Raised
  /\ w_output w = []
  /\ w_input (taken b w) = rest
  /\ w_output (taken b w) = []
  /\ forall more : nat,
       unscramble_packet b (fuel + more) (start b (pkts ++ a :: rest)) = w.
Proof.
  intros Hlt Hall Hshort Hfuel w.
  destruct (run_takes_keep b (length pkts) (fuel - length pkts)
              (start b (pkts ++ a :: rest)) pkts (a :: rest))
    as (w' & Hrun & Hin & Hc & Ho & _);
    [cbn [start w_count]; lia | reflexivity | reflexivity | exact Hall |].
  replace (length pkts + (fuel - length pkts))%nat with fuel in Hrun by lia.
  assert (Hstep : step b w' = Raised).
  { unfold step. destruct (decide (w_count w' = 0)) as [H0|_];
      [rewrite Hc in H0; cbn [start w_count] in H0; lia|].
    rewrite Hin. apply InitFacts.unpack_from_short in Hshort.
    rewrite Hshort. reflexivity. }
  assert (Hw : w = w') by (unfold w; rewrite Hrun; apply run_stuck; auto).
  split; [rewrite Hw; exact Hstep|]. split; [rewrite Hw; exact Ho|].
  split; [rewrite Hw; unfold taken; rewrite Hin; reflexivity|].
  split; [rewrite Hw; unfold taken; rewrite Hin; exact Ho|].
  intros more. rewrite run_add. fold w. apply run_stuck.
  right. rewrite Hw. exact Hstep.
Qed.

(** One packet of full size, then one of five bytes, then one of full
    size again. *)
Lemma short_packet_stops_worker_witness :
  let p := Arrival 10%Q (repeat x00 (8 * 1026)) in
  let s := Arrival 11%Q (repeat x00 5) in
  let w := unscramble_packet 2 9 (start 2 [p; s; p]) in
  step 2 w = Raised /\ w_output w = [] /\ w_input (taken 2 w) = [p].
Proof.
  intros p s w.
  destruct (short_packet_stops_worker 2 [p] s [p] 9) as (Hstep & Hout & Hin & _).
  - cbn [length]. lia.
  - repeat constructor; cbn [p a_buf]; rewrite repeat_length; vm_compute; lia.
  - cbn [s a_buf]. rewrite repeat_length. vm_compute. lia.
  - cbn [length]. lia.
  - split; [exact Hstep|]. split; [exact Hout | exact Hin].
Defined.

(** What makes a worker raise.  The loop body raises if and only if
    the packet it has taken is shorter than the 8208 bytes of the
    format: [unscramble] raises exactly on payloads that have not 4096
    words, and what [unpack_from] delivers always has. *)
Theorem worker_raises_on_short_packets_only (b : Z) (w : worker) :
  (step b w = Raised
   <-> w_count w <> 0
       /\ exists a rest, w_input w = a :: rest
                         /\ (length (a_buf a) < calcsize)%nat)
  /\ (forall data, unscramble data = None <-> length data <> 4096%nat)
  /\ (forall buf result, unpack_from buf = Some result ->
        is_Some (unscramble (u_data result))).
Proof.
  split; [|split].
  - unfold step. destruct (decide (w_count w = 0)) as [H0|Hne].
    { split; [discriminate|]. intros [Hc _]. contradiction. }
    destruct (w_input w) as [|a rest].
    { split; [discriminate|]. intros (_ & a & rest & Hin & _). discriminate. }
    destruct (unpack_from (a_buf a)) as [result|] eqn:Hun.
    + rewrite (DecodeFacts.unscramble_eq _ (DecodeFacts.unpack_from_wf _ _ Hun)).
      split; [discriminate|]. intros (_ & a' & rest' & [= <- <-] & Hlen).
      apply InitFacts.unpack_from_short in Hlen. congruence.
    + split; [|reflexivity]. intros _. split; [exact Hne|].
      exists a, rest. split; [reflexivity|].
      apply InitFacts.unpack_from_short, Hun.
  - apply LosslessFacts.unscramble_raises.
  - intros buf result Hun.
    rewrite (DecodeFacts.unscramble_eq _ (DecodeFacts.unpack_from_wf _ _ Hun)).
    eexists. reflexivity.
Qed.

Lemma run_empty_batches (fuel : nat) :
  forall w : worker,
    w_count w = 0 -> w_one_second w = fresh ->
    unscramble_packet 0 fuel w
    = Worker (w_input w) fresh 0 (w_output w ++ repeat fresh fuel).
Proof.
  induction fuel as [|fuel IH]; intros w Hc Hone.
  - cbn [unscramble_packet repeat]. rewrite app_nil_r.
    destruct w; cbn in *; congruence.
  - cbn [unscramble_packet]. unfold step.
    destruct (decide (w_count w = 0)) as [_|]; [|contradiction].
    rewrite IH by reflexivity. cbn [w_input w_output repeat].
    rewrite Hone, <- app_assoc. reflexivity.
Qed.

Lemma run_negative (b : Z) (fuel : nat) :
  forall w : worker,
    w_count w < 0 -> w_output (unscramble_packet b fuel w) = w_output w.
Proof.
  induction fuel as [|fuel IH]; intros w Hc; [reflexivity|].
  cbn [unscramble_packet]. unfold step.
  destruct (decide (w_count w = 0)) as [|_]; [lia|].
  destruct (w_input w) as [|a rest]; [reflexivity|].
  destruct (unpack_from (a_buf a)) as [result|]; [|reflexivity].
  destruct (unscramble (u_data result)) as [[powr kurtsis]|]; [|reflexivity].
  rewrite IH by (cbn [w_count]; lia). reflexivity.
Qed.

(** The batch size must be positive.  With [max_count] zero the test
    [while count] fails at once: the worker takes no packet and puts
    one dictionary of eight empty lists, without a time, on the output
    queue at every round.  With [max_count] negative the counter never
    reaches zero and no dictionary is ever put on the output queue,
    whatever packets arrive. *)
Theorem batch_size_must_be_positive (b : Z) (input : list arrival) (fuel : nat) :
  b <= 0 ->
  let w := unscramble_packet b fuel (start b input) in
  (b = 0 -> w_input w = input /\ w_output w = repeat fresh fuel)
  /\ (b < 0 -> w_output w = []).
Proof.
  intros _ w. split.
  - intros ->. unfold w. rewrite run_empty_batches by reflexivity.
    cbn [start w_input w_output app]. auto.
  - intros Hb. unfold w. rewrite run_negative by (cbn [start w_count]; lia).
    reflexivity.
Qed.

(** A worker with batch size zero that finds one packet waiting. *)
Lemma batch_size_must_be_positive_witness :
  let p := Arrival 10%Q (repeat x00 (8 * 1026)) in
  w_input (unscramble_packet 0 3 (start 0 [p])) = [p]
  /\ w_output (unscramble_packet 0 3 (start 0 [p])) = [fresh; fresh; fresh].
Proof.
  intros p.
  destruct (batch_size_must_be_positive 0 [p] 3) as [H0 _]; [lia|].
  apply H0. reflexivity.
Defined.

End WorkerFacts.

(** ** What ends up on which queue *)

Module QueueFacts.

Import Reader.

Section Blocks.

Context {addr : Type}.
Variable N : nat.
Variable b : Z.
Hypothesis N_pos : 0 < N.
Hypothesis b_pos : (0 < b)%Z.

(** The worker whose queue is looked at. *)
Variable w : nat.
Hypothesis w_lt : w < N.

(** The batch size as a number of datagrams. *)
Variable c : nat.
Hypothesis c_eq : c = Z.to_nat b.

Lemma queue_of_cons (u : nat) (data : list byte) (puts : list (nat * list byte)) :
  queue_of w ((u, data) :: puts)
  = if decide (u = w) then data :: queue_of w puts else queue_of w puts.
Proof.
  unfold queue_of. rewrite filter_cons. cbn [fst].
  destruct (decide (u = w)); reflexivity.
Qed.

Lemma queue_of_app (p1 p2 : list (nat * list byte)) :
  queue_of w (p1 ++ p2) = queue_of w p1 ++ queue_of w p2.
Proof. unfold queue_of. rewrite filter_app, map_app. reflexivity. Qed.

(** What is left of a block goes to the owner of the block. *)
Lemma queue_of_block (m : nat) (blk : list (list byte * addr)) :
  forall k, k + length blk <= c ->
    queue_of w (spec_puts N b (m * c + k) blk)
    = if decide (m mod N = w) then map fst blk else [].
Proof.
  induction blk as [|[data a] blk IH]; intros k Hk.
  - cbn [spec_puts map]. destruct (decide _); reflexivity.
  - cbn [spec_puts map fst]. rewrite queue_of_cons.
    cbn [length] in Hk.
    replace (owner N b (m * c + k)) with (m mod N)
      by (rewrite c_eq; symmetry; apply ReaderFacts.owner_block; lia).
    replace (S (m * c + k)) with (m * c + S k) by lia.
    rewrite IH by lia. destruct (decide (m mod N = w)); reflexivity.
Qed.

(** The queue, from block [m] of the stream on: the block itself when
    it is the worker's, and what the blocks behind it give. *)
Lemma block_split (m : nat) (ds : list (list byte * addr)) :
  queue_of w (spec_puts N b (m * c) ds)
  = (if decide (m mod N = w) then map fst (take c ds) else [])
    ++ queue_of w (spec_puts N b (S m * c) (drop c ds)).
Proof.
  rewrite <- (take_drop c ds) at 1.
  rewrite ReaderFacts.spec_puts_app by assumption. rewrite queue_of_app.
  f_equal.
  - rewrite <- (Nat.add_0_r (m * c)). apply queue_of_block.
    rewrite length_take. lia.
  - destruct (decide (c <= length ds)) as [Hle|Hgt].
    + rewrite length_take, Nat.min_l by exact Hle.
      replace (m * c + c) with (S m * c) by lia. reflexivity.
    + rewrite drop_ge by lia. reflexivity.
Qed.

(** Part of a round: the blocks of the workers [u] to [u + len - 1]. *)
Lemma round_part (r : nat) :
  forall (len u : nat) (ds : list (list byte * addr)),
    u + len <= N ->
    queue_of w (spec_puts N b ((r * N + u) * c) ds)
    = (if decide (u <= w < u + len)
       then map fst (take c (drop ((w - u) * c) ds)) else [])
      ++ queue_of w (spec_puts N b ((r * N + u + len) * c) (drop (len * c) ds)).
Proof.
  induction len as [|len IH]; intros u ds Hu.
  - destruct (decide (u <= w < u + 0)) as [|_]; [lia|].
    rewrite Nat.add_0_r. reflexivity.
  - rewrite block_split.
    replace ((r * N + u) mod N) with u
      by (rewrite Nat.add_comm, Nat.Div0.mod_add, Nat.mod_small; lia).
    replace (S (r * N + u)) with (r * N + S u) by lia.
    rewrite (IH (S u) (drop c ds)) by lia.
    rewrite !drop_drop.
    replace (r * N + S u + len) with (r * N + u + S len) by lia.
    replace (c + len * c) with (S len * c) by lia.
    rewrite app_assoc. f_equal.
    destruct (decide (u = w)) as [->|Hne].
    + destruct (decide (S w <= w < S w + len)) as [|_]; [lia|].
      destruct (decide (w <= w < w + S len)) as [_|]; [|lia].
      rewrite Nat.sub_diag, app_nil_r. reflexivity.
    + destruct (decide (S u <= w < S u + len)) as [H1|H1];
        destruct (decide (u <= w < u + S len)) as [H2|H2]; try lia;
        [|reflexivity].
      replace (c + (w - S u) * c) with ((w - u) * c)
        by (replace (w - u) with (S (w - S u)) by lia; lia).
      reflexivity.
Qed.

(** A whole round puts one block on the queue. *)
Lemma round_split (r : nat) (ds : list (list byte * addr)) :
  queue_of w (spec_puts N b (r * N * c) ds)
  = map fst (take c (drop (w * c) ds))
    ++ queue_of w (spec_puts N b (S r * N * c) (drop (N * c) ds)).
Proof.
  pose proof (round_part r N 0 ds ltac:(lia)) as H.
  rewrite Nat.add_0_r, Nat.sub_0_r in H.
  destruct (decide (0 <= w < 0 + N)) as [_|]; [|lia].
  replace (r * N + N) with (S r * N) in H by lia. exact H.
Qed.

(** The queue cut into blocks of [b]: its block [j] is block
    [j * N + w] of the stream. *)
Lemma queue_blocks (j : nat) :
  forall (r : nat) (ds : list (list byte * addr)),
    take c (drop (j * c) (queue_of w (spec_puts N b (r * N * c) ds)))
    = map fst (take c (drop ((j * N + w) * c) ds)).
Proof.
  assert (Hc : 0 < c) by lia.
  assert (Hwc : (w + 1) * c <= N * c) by (apply Nat.mul_le_mono_r; lia).
  induction j as [|j IH]; intros r ds; rewrite round_split.
  - cbn [Nat.mul Nat.add drop].
    destruct (decide ((w + 1) * c <= length ds)) as [Hlen|Hlen].
    + apply take_app_length'.
      rewrite length_map, length_take, length_drop. lia.
    + rewrite (drop_ge ds (N * c)) by lia. cbn [spec_puts].
      unfold queue_of at 1. cbn [filter list_filter map]. rewrite app_nil_r.
      apply take_ge. rewrite length_map, length_take. lia.
  - destruct (decide ((w + 1) * c <= length ds)) as [Hlen|Hlen].
    + replace (S j * c) with (c + j * c) by lia.
      rewrite <- drop_drop.
      rewrite (drop_app_length' _ _ c)
        by (rewrite length_map, length_take, length_drop; lia).
      rewrite IH, drop_drop. do 3 f_equal. lia.
    + rewrite (drop_ge ds (N * c)) by lia. cbn [spec_puts].
      unfold queue_of at 1. cbn [filter list_filter map]. rewrite app_nil_r.
      assert (Hbig : (w + 1) * c <= (S j * N + w) * c)
        by (apply Nat.mul_le_mono_r; lia).
      rewrite (drop_ge ds ((S j * N + w) * c)) by lia.
      rewrite (drop_ge (map _ _)); [rewrite !take_nil; reflexivity|].
      rewrite length_map, length_take, length_drop.
      assert (c <= S j * c) by (cbn [Nat.mul]; lia). lia.
Qed.

End Blocks.

(** The reader and the workers fit together.  With [N > 0] workers and
    batch size [b > 0], whatever the socket returns and however long the
    reader has run, the queue of worker [w] cut into blocks of [b]
    datagrams holds, as its block [j], block [j * N + w] of the stream
    received so far: the dictionaries of worker [w] are made of the
    blocks [w], [N + w], [2 N + w], ... of the stream, each of
    consecutive datagrams. *)
Theorem queue_holds_every_Nth_block {addr : Type} (N : nat) (b : Z)
    (ds : list (list byte * addr)) (fuel w j : nat) :
  0 < N -> (0 < b)%Z -> w < N ->
  let c := Z.to_nat b in
  let k := length ds `min` (fuel * N * c) in
  exists q,
    r_queues (get_packet N b fuel (start N ds)).1 !! w = Some q
    /\ take c (drop (j * c) q)
       = map fst (take c (drop ((j * N + w) * c) (take k ds))).
Proof.
  intros HN Hb Hw c k.
  assert (Hreach : ReaderFacts.reaches N b ds ((0 + fuel) * N * Z.to_nat b)
                     (get_packet N b fuel (start N ds))).
  { apply ReaderFacts.get_packet_delivers; try assumption.
    change (0 * N * Z.to_nat b) with 0.
    apply ReaderFacts.delivered_start; assumption. }
  destruct Hreach as (k' & (Hk & Hsock & Hputs & Hq) & Hcase).
  cbn [Nat.add] in Hcase.
  assert (k' = k) as -> by (unfold k, c; destruct Hcase as [[_ ->]|(_ & -> & Hlt)]; lia).
  exists (queue_of w (r_puts (get_packet N b fuel (start N ds)).1)).
  split; [apply Hq, Hw|]. rewrite Hputs.
  apply (queue_blocks N b HN Hb w Hw c eq_refl j 0).
Qed.

(** Nine datagrams for two workers with batches of two: the second
    block on the queue of worker 1 is block 3 of the stream. *)
Lemma queue_holds_every_Nth_block_witness :
  let d (x : byte) : list byte * unit := ([x], tt) in
  exists q,
    r_queues (get_packet 2 2 5
                (start 2 [d x00; d x01; d x02; d x03; d x04; d x05;
                          d x06; d x07; d x08])).1 !! 1
    = Some q
    /\ take 2 (drop 2 q) = [[x06]; [x07]].
Proof.
  intros d.
  destruct (queue_holds_every_Nth_block 2 2
              [d x00; d x01; d x02; d x03; d x04; d x05; d x06; d x07; d x08]
              5 1 1) as (q & Hq & Hblk); [lia | lia | lia |].
  exists q. split; [exact Hq|]. exact Hblk.
Defined.

(** The sizes must be positive for the reader too.  With no worker, or
    with a batch size of zero or less, the loops of [get_packet] have
    empty ranges: the reader spins in [while True] and never calls
    [recvfrom], so that nothing is received and nothing is put on a
    queue. *)
Theorem reader_needs_positive_sizes {addr : Type} (N : nat) (b : Z)
    (fuel : nat) (r : reader addr) :
  N = 0 \/ (b <= 0)%Z ->
  get_packet N b fuel r = (r, Next tt).
Proof.
  intros Hcase. induction fuel as [|fuel IH]; [reflexivity|].
  cbn [get_packet].
  assert (Hround : for_unpacker b (seq 0 N) r = (r, Next tt)).
  { destruct Hcase as [->|Hb]; [reflexivity|].
    generalize (seq 0 N). intros keys.
    induction keys as [|u keys IHk]; [reflexivity|].
    cbn [for_unpacker]. replace (Z.to_nat b) with 0 by lia.
    cbn [for_count]. exact IHk. }
  rewrite Hround. exact IH.
Qed.

(** Sixteen workers and a batch size of zero. *)
Lemma reader_needs_positive_sizes_witness :
  get_packet 16 0 7 (start 16 [([x00], tt)]) = (start 16 [([x00], tt)], Next tt).
Proof.
  apply reader_needs_positive_sizes. right. lia.
Defined.

End QueueFacts.

(** ** The aggregator *)

Module AggregatorFacts.

Import Aggregator.

(** An aggregator is a first-in first-out relay: after [fuel] rounds it
    has moved the first [fuel] items of its input queue to the end of
    its output queue, in their order and unchanged, or all of them when
    there are fewer; nothing is dropped, doubled or reordered. *)
Theorem aggregate_data_relays {A : Type} (fuel : nat) (g : relay A) :
  aggregate_data fuel g
  = MkRelay (drop fuel (g_inqueue g)) (g_outqueue g ++ take fuel (g_inqueue g)).
Proof.
  revert g. induction fuel as [|fuel IH]; intros [inq outq].
  - cbn [aggregate_data g_inqueue g_outqueue drop take]. rewrite app_nil_r.
    reflexivity.
  - cbn [aggregate_data]. unfold step. cbn [g_inqueue g_outqueue].
    destruct inq as [|data rest].
    + cbn [drop take]. rewrite app_nil_r. reflexivity.
    + rewrite IH. cbn [g_inqueue g_outqueue drop take].
      rewrite <- app_assoc. reflexivity.
Qed.

End AggregatorFacts.

(** ** Creating and starting the processes *)

Module WorkersFacts.

Import KurtosisDataServer Workers.

Lemma div_pred (M n : nat) : 0 < M -> n mod M <> 0 -> (n - 1) / M = n / M.
Proof.
  intros HM Hr. apply (Nat.div_unique n M ((n - 1) / M) (S ((n - 1) mod M))).
  - pose proof (Nat.div_mod_eq n M) as Hn.
    pose proof (Nat.div_mod_eq (n - 1) M) as Hp.
    pose proof (Nat.mod_upper_bound n M ltac:(lia)).
    pose proof (Nat.mod_upper_bound (n - 1) M ltac:(lia)).
    destruct (decide (S ((n - 1) mod M) = M)) as [Heq|]; [|lia].
    exfalso. apply Hr.
    assert (n = M * S ((n - 1) / M)) as -> by nia.
    rewrite Nat.mul_comm. apply Nat.Div0.mod_mul.
  - pose proof (Nat.div_mod_eq (n - 1) M) as Hp.
    assert (0 < n) by (destruct n; [rewrite Nat.Div0.mod_0_l in Hr|]; lia).
    lia.
Qed.

Lemma multiple_below (M n count : nat) :
  0 < M -> n mod M = 0 -> (count * M < S n <-> count * M < n \/ count = n / M).
Proof.
  intros HM Hr. pose proof (Nat.div_mod_eq n M) as Hn. rewrite Hr in Hn.
  split.
  - intros Hlt. destruct (decide (count = n / M)) as [|Hne]; [auto|]. left. nia.
  - intros [Hlt| ->]; [lia|nia].
Qed.

Lemma no_multiple_below (M n count : nat) :
  0 < M -> n mod M <> 0 -> (count * M < S n <-> count * M < n).
Proof.
  intros HM Hr. split; [|lia]. intros Hlt.
  destruct (decide (count * M = n)) as [Heq|]; [|lia].
  exfalso. apply Hr. rewrite <- Heq. apply Nat.Div0.mod_mul.
Qed.

(** One round of the loop. *)
Lemma create_one_wired (M n : nat) (st : plant * option nat) :
  0 < M -> wired M n st ->
  exists st', create_one M n st = Some st' /\ wired M (S n) st'.
Proof.
  intros HM [Hid Hpl]. destruct st as [pl id]. cbn [fst snd] in Hid, Hpl.
  unfold create_one. destruct (decide (M = 0)) as [|_]; [lia|].
  destruct (decide (n mod M = 0)) as [Hr|Hr].
  - cbn [pl_aggregator_queue pl_unpacker_queue pl_aggregator pl_unpacker pl_output
         mbind option_bind].
    rewrite lookup_insert_eq. cbn [mbind option_bind].
    eexists. split; [reflexivity|]. split; cbn [fst snd].
    + destruct (decide (S n = 0)) as [|_]; [lia|].
      replace (S n - 1) with n by lia. reflexivity.
    + intros count. destruct (Hpl count) as (Hq & Hu & Ho & Ha & Haq).
      cbn [pl_aggregator_queue pl_unpacker_queue pl_aggregator pl_unpacker pl_output].
      pose proof (multiple_below M n count HM Hr) as Hm.
      repeat split.
      * destruct (decide (n = count)) as [->|Hne];
          [rewrite lookup_insert_eq|rewrite lookup_insert_ne, Hq by exact Hne];
          repeat destruct (decide _); try reflexivity; lia.
      * destruct (decide (n = count)) as [->|Hne];
          [rewrite lookup_insert_eq|rewrite lookup_insert_ne, Hu by exact Hne];
          repeat destruct (decide _); try reflexivity; lia.
      * destruct (decide (n = count)) as [->|Hne];
          [rewrite lookup_insert_eq|rewrite lookup_insert_ne, Ho by exact Hne];
          repeat destruct (decide _); try reflexivity; lia.
      * destruct (decide (n / M = count)) as [Heq|Hne];
          [rewrite Heq, lookup_insert_eq|rewrite lookup_insert_ne, Ha by exact Hne];
          repeat destruct (decide _); try reflexivity; exfalso; intuition lia.
      * destruct (decide (n / M = count)) as [Heq|Hne];
          [rewrite Heq, lookup_insert_eq|rewrite lookup_insert_ne, Haq by exact Hne];
          repeat destruct (decide _); try reflexivity; exfalso; intuition lia.
  - assert (Hn : 0 < n) by (destruct n; [rewrite Nat.Div0.mod_0_l in Hr|]; lia).
    destruct (decide (n = 0)) as [|_]; [lia|]. subst id.
    cbn [pl_aggregator_queue pl_unpacker_queue pl_aggregator pl_unpacker pl_output
         mbind option_bind].
    destruct (Hpl ((n - 1) / M)) as (_ & _ & _ & _ & Haq). rewrite Haq.
    destruct (decide ((n - 1) / M * M < n)) as [_|Hbad];
      [|exfalso; apply Hbad; pose proof (Nat.div_mod_eq (n - 1) M); nia].
    cbn [mbind option_bind]. eexists. split; [reflexivity|]. split; cbn [fst snd].
    + destruct (decide (S n = 0)) as [|_]; [lia|].
      replace (S n - 1) with n by lia. rewrite div_pred by assumption. reflexivity.
    + intros count. destruct (Hpl count) as (Hq & Hu & Ho & Ha & Haq').
      cbn [pl_aggregator_queue pl_unpacker_queue pl_aggregator pl_unpacker pl_output].
      pose proof (no_multiple_below M n count HM Hr) as Hm.
      repeat split.
      * destruct (decide (n = count)) as [->|Hne];
          [rewrite lookup_insert_eq|rewrite lookup_insert_ne, Hq by exact Hne];
          repeat destruct (decide _); try reflexivity; lia.
      * destruct (decide (n = count)) as [->|Hne];
          [rewrite lookup_insert_eq|rewrite lookup_insert_ne, Hu by exact Hne];
          repeat destruct (decide _); try reflexivity; lia.
      * destruct (decide (n = count)) as [->|Hne];
          [rewrite lookup_insert_eq, div_pred by assumption
          |rewrite lookup_insert_ne, Ho by exact Hne];
          repeat destruct (decide _); try reflexivity; lia.
      * rewrite Ha. repeat destruct (decide _); try reflexivity; exfalso; intuition lia.
      * rewrite Haq'. repeat destruct (decide _); try reflexivity; exfalso; intuition lia.
Qed.

Lemma create_loop_wired (M len : nat) :
  0 < M ->
  forall (n : nat) (st : plant * option nat),
    wired M n st ->
    exists st', create_loop M (seq n len) st = Some st' /\ wired M (n + len) st'.
Proof.
  intros HM. induction len as [|len IH]; intros n st Hst; cbn [seq create_loop].
  - exists st. rewrite Nat.add_0_r. auto.
  - destruct (create_one_wired M n st HM Hst) as (st1 & -> & Hst1).
    cbn [mbind option_bind].
    destruct (IH (S n) st1 Hst1) as (st' & -> & Hst').
    exists st'. split; [reflexivity|].
    replace (n + S len) with (S n + len) by lia. exact Hst'.
Qed.

Lemma wired_start (M : nat) : wired M 0 (no_plant, None).
Proof.
  split; [reflexivity|]. intros count. cbn [fst no_plant
    pl_aggregator_queue pl_unpacker_queue pl_aggregator pl_unpacker pl_output].
  rewrite !lookup_empty.
  repeat split; destruct (decide _); try reflexivity; lia.
Qed.

Lemma create_wired (N M : nat) :
  0 < M ->
  exists pl id, _create_workers_and_queues N M = Some pl /\ wired M N (pl, id).
Proof.
  intros HM. unfold _create_workers_and_queues.
  destruct (create_loop_wired M N HM 0 _ (wired_start M)) as ([pl id] & -> & Hw).
  exists pl, id. split; [reflexivity | exact Hw].
Qed.

(** What [_create_workers_and_queues] builds, for [N] workers and
    [M > 0] aggregators: an input queue and a process, not yet started,
    for each unpacker [0 .. N-1] and for no other key; unpacker [count]
    is given the queue of aggregator [count / M] to put on, so that each
    aggregator gets [M] unpackers with consecutive numbers; and the
    aggregators made, with their queues, are those numbered [i] with
    [i * M < N].  With no aggregator the first round raises
    [ZeroDivisionError]. *)
Theorem workers_are_wired (N M : nat) :
  0 < M ->
  (exists pl,
      _create_workers_and_queues N M = Some pl
      /\ forall count,
          pl_unpacker_queue pl !! count
          = (if decide (count < N) then Some tt else None)
          /\ pl_unpacker pl !! count
             = (if decide (count < N) then Some NotStarted else None)
          /\ pl_output pl !! count
             = (if decide (count < N) then Some (count / M) else None)
          /\ pl_aggregator pl !! count
             = (if decide (count * M < N) then Some NotStarted else None)
          /\ pl_aggregator_queue pl !! count
             = (if decide (count * M < N) then Some tt else None))
  /\ (0 < N -> _create_workers_and_queues N 0 = None).
Proof.
  intros HM. split.
  - destruct (create_wired N M HM) as (pl & id & Hrun & _ & Hw).
    exists pl. split; [exact Hrun | exact Hw].
  - intros HN. destruct N as [|N]; [lia|]. reflexivity.
Qed.

(** The sizes of the source: sixteen workers and four aggregators. *)
Lemma workers_are_wired_witness :
  exists pl,
    _create_workers_and_queues num_workers num_aggregators = Some pl
    /\ pl_output pl !! 7 = Some 1 /\ pl_aggregator pl !! 4 = None.
Proof.
  destruct (workers_are_wired num_workers num_aggregators) as [(pl & Hrun & Hw) _].
  - unfold num_aggregators. lia.
  - exists pl. split; [exact Hrun|].
    destruct (Hw 7) as (_ & _ & Ho & _). destruct (Hw 4) as (_ & _ & _ & Ha & _).
    split; [exact Ho | exact Ha].
Defined.

Lemma processes_lookup (n : nat) (p : pstate) (i : nat) :
  processes n p !! i = if decide (i < n) then Some p else None.
Proof.
  induction n as [|n IH]; cbn [processes].
  - rewrite lookup_empty. destruct (decide _); [lia|reflexivity].
  - destruct (decide (n = i)) as [->|Hne].
    + rewrite lookup_insert_eq. clear IH.
      destruct (decide (i < S i)); [reflexivity|lia].
    + rewrite lookup_insert_ne, IH by exact Hne.
      repeat destruct (decide _); try reflexivity; lia.
Qed.

(** The loop over the aggregators starts them one after the other. *)
Lemma start_aggregators_spec (len : nat) :
  forall (a : nat) (s : server) (done : list launch),
    (forall i, a <= i < a + len -> aggregator s !! i = Some NotStarted) ->
    exists agg,
      start_loop start_aggregator (seq a len) (s, done)
      = Some (Server (reader s) (unpacker s) agg (averager s) (averaging s)
                     (socket_open s) (file_open s) (trace s),
              done ++ map (fun i => Launched (PAggregator i)) (seq a len))
      /\ forall i, agg !! i
                   = if decide (a <= i < a + len) then Some Alive
                     else aggregator s !! i.
Proof.
  induction len as [|len IH]; intros a s done Hkeys; cbn [seq start_loop map].
  - exists (aggregator s). rewrite app_nil_r. split; [destruct s; reflexivity|].
    intros i. destruct (decide _); [lia|reflexivity].
  - assert (Hone : start_aggregator a (s, done)
                   = Some (Server (reader s) (unpacker s)
                                  (<[a := Alive]> (aggregator s)) (averager s)
                                  (averaging s) (socket_open s) (file_open s)
                                  (trace s),
                           done ++ [Launched (PAggregator a)])).
    { unfold start_aggregator. rewrite (Hkeys a) by lia. reflexivity. }
    rewrite Hone. cbn [mbind option_bind].
    match goal with |- context [start_loop _ _ (?x, ?d)] =>
      destruct (IH (S a) x d) as (agg & Hrun & Hagg) end.
    { intros i Hi. cbn [aggregator]. rewrite lookup_insert_ne by lia.
      apply Hkeys. lia. }
    rewrite Hrun. cbn [reader unpacker averager averaging socket_open file_open trace].
    exists agg. split; [rewrite <- app_assoc; reflexivity|].
    intros i. rewrite Hagg. cbn [aggregator].
    destruct (decide (a = i)) as [->|Hne].
    + rewrite lookup_insert_eq. repeat destruct (decide _); try reflexivity; lia.
    + rewrite lookup_insert_ne by exact Hne.
      repeat destruct (decide _); try reflexivity; lia.
Qed.

Lemma start_unpackers_spec (len : nat) :
  forall (a : nat) (s : server) (done : list launch),
    (forall i, a <= i < a + len -> unpacker s !! i = Some NotStarted) ->
    exists unp,
      start_loop start_unpacker (seq a len) (s, done)
      = Some (Server (reader s) unp (aggregator s) (averager s) (averaging s)
                     (socket_open s) (file_open s) (trace s),
              done ++ map (fun i => Launched (PUnpacker i)) (seq a len))
      /\ forall i, unp !! i
                   = if decide (a <= i < a + len) then Some Alive
                     else unpacker s !! i.
Proof.
  induction len as [|len IH]; intros a s done Hkeys; cbn [seq start_loop map].
  - exists (unpacker s). rewrite app_nil_r. split; [destruct s; reflexivity|].
    intros i. destruct (decide _); [lia|reflexivity].
  - assert (Hone : start_unpacker a (s, done)
                   = Some (Server (reader s) (<[a := Alive]> (unpacker s))
                                  (aggregator s) (averager s)
                                  (averaging s) (socket_open s) (file_open s)
                                  (trace s),
                           done ++ [Launched (PUnpacker a)])).
    { unfold start_unpacker. rewrite (Hkeys a) by lia. reflexivity. }
    rewrite Hone. cbn [mbind option_bind].
    match goal with |- context [start_loop _ _ (?x, ?d)] =>
      destruct (IH (S a) x d) as (unp & Hrun & Hunp) end.
    { intros i Hi. cbn [unpacker]. rewrite lookup_insert_ne by lia.
      apply Hkeys. lia. }
    rewrite Hrun. cbn [reader aggregator averager averaging socket_open file_open trace].
    exists unp. split; [rewrite <- app_assoc; reflexivity|].
    intros i. rewrite Hunp. cbn [unpacker].
    destruct (decide (a = i)) as [->|Hne].
    + rewrite lookup_insert_eq. repeat destruct (decide _); try reflexivity; lia.
    + rewrite lookup_insert_ne by exact Hne.
      repeat destruct (decide _); try reflexivity; lia.
Qed.

(** A missing aggregator makes the loop raise [KeyError]. *)
Lemma start_aggregators_fail (len : nat) :
  forall (a : nat) (s : server) (done : list launch) (i : nat),
    a <= i < a + len -> aggregator s !! i = None ->
    start_loop start_aggregator (seq a len) (s, done) = None.
Proof.
  induction len as [|len IH]; intros a s done i Hi Hnone; [lia|].
  cbn [seq start_loop].
  destruct (start_aggregator a (s, done)) as [[s1 done1]|] eqn:Hone; [|reflexivity].
  cbn [mbind option_bind]. unfold start_aggregator in Hone.
  destruct (aggregator s !! a) as [p|] eqn:Hp; [|discriminate].
  cbn [mbind option_bind] in Hone. destruct (start p) as [p'|]; [|discriminate].
  cbn [mbind option_bind] in Hone. injection Hone as <- <-.
  apply (IH (S a) _ _ i).
  - destruct (decide (a = i)) as [->|]; [congruence|lia].
  - cbn [aggregator]. rewrite lookup_insert_ne by congruence. exact Hnone.
Qed.

Lemma wired_of (N M : nat) (pl : plant) :
  0 < M -> _create_workers_and_queues N M = Some pl ->
  exists id, wired M N (pl, id).
Proof.
  intros HM Hrun. destruct (create_wired N M HM) as (pl' & id & Hrun' & Hw).
  rewrite Hrun in Hrun'. injection Hrun' as <-. exists id. exact Hw.
Qed.

(** [_start_workers] on what [_create_workers_and_queues] has built,
    when the aggregators [0 .. M-1] were all made, which is when
    [(M - 1) * M < N]: it starts the aggregators 0 to [M-1], then the
    unpackers 0 to [N-1], then the averager, waits for the next full
    second and starts the reader last.  Every process it names runs
    afterwards.  An aggregator numbered [M] or more, such as are made
    when [N > M * M], is not started although unpackers put on its
    queue; when [N <= M * M] there is none. *)
Theorem workers_start_in_order (N M : nat) (pl : plant) :
  0 < M -> (M - 1) * M < N ->
  _create_workers_and_queues N M = Some pl ->
  exists s',
    _start_workers N M (server_of pl)
    = Some (s', map (fun i => Launched (PAggregator i)) (seq 0 M)
                ++ map (fun i => Launched (PUnpacker i)) (seq 0 N)
                ++ [Launched PAverager; SyncSecond; Launched PReader])
    /\ reader s' = Alive /\ averager s' = Alive
    /\ (forall i, unpacker s' !! i = if decide (i < N) then Some Alive else None)
    /\ (forall i, aggregator s' !! i
                  = if decide (i < M) then Some Alive
                    else if decide (i * M < N) then Some NotStarted else None)
    /\ (N <= M * M ->
        s' = Server Alive (processes N Alive) (processes M Alive) Alive 1
                    true true []).
Proof.
  intros HM Hfit Hrun. destruct (wired_of N M pl HM Hrun) as (id & _ & Hw).
  cbn [fst] in Hw. unfold _start_workers.
  destruct (start_aggregators_spec M 0 (server_of pl) []) as (agg & -> & Hagg).
  { intros i Hi. cbn [server_of aggregator]. destruct (Hw i) as (_ & _ & _ & -> & _).
    destruct (decide (i * M < N)) as [|Hbad]; [reflexivity|]. exfalso. apply Hbad. nia. }
  cbn [mbind option_bind server_of reader unpacker aggregator averager averaging
       socket_open file_open trace app].
  match goal with |- context [start_loop _ _ (?x, ?d)] =>
    destruct (start_unpackers_spec N 0 x d) as (unp & -> & Hunp) end.
  { intros i Hi. cbn [unpacker]. destruct (Hw i) as (_ & -> & _).
    destruct (decide (i < N)); [reflexivity|lia]. }
  cbn [mbind option_bind reader unpacker aggregator averager averaging
       socket_open file_open trace start].
  eexists. split; [rewrite <- app_assoc; reflexivity|].
  cbn [reader averager unpacker aggregator].
  assert (Hu : forall i, unp !! i = if decide (i < N) then Some Alive else None).
  { intros i. rewrite Hunp. cbn [unpacker]. destruct (Hw i) as (_ & -> & _).
    repeat destruct (decide _); try reflexivity; lia. }
  assert (Ha : forall i, agg !! i
                         = if decide (i < M) then Some Alive
                           else if decide (i * M < N) then Some NotStarted else None).
  { intros i. rewrite Hagg. cbn [server_of aggregator].
    destruct (Hw i) as (_ & _ & _ & -> & _).
    repeat destruct (decide _); try reflexivity; lia. }
  split; [reflexivity|]. split; [reflexivity|].
  split; [exact Hu|]. split; [exact Ha|].
  intros Hsq. f_equal; apply map_eq; intros i; rewrite processes_lookup.
  - apply Hu.
  - rewrite Ha. repeat destruct (decide _); try reflexivity. nia.
Qed.

(** The sizes of the source: the server after [_start_workers] is the
    server with every process running. *)
Lemma workers_start_in_order_witness :
  exists pl done,
    _create_workers_and_queues num_workers num_aggregators = Some pl
    /\ _start_workers num_workers num_aggregators (server_of pl)
       = Some (started, done)
    /\ last done = Some (Launched PReader).
Proof.
  destruct (create_wired num_workers num_aggregators) as (pl & _ & Hrun & _);
    [unfold num_aggregators; lia|].
  destruct (workers_start_in_order num_workers num_aggregators pl)
    as (s' & Hstart & _ & _ & _ & _ & Hs');
    [unfold num_aggregators; lia
    |unfold num_aggregators, num_workers; lia | exact Hrun |].
  rewrite Hs' in Hstart by (unfold num_aggregators, num_workers; lia).
  eexists pl, _. split; [exact Hrun|]. split; [exact Hstart|].
  vm_compute. reflexivity.
Defined.

(** The two sizes must fit.  [_start_workers] starts the aggregators
    [0 .. M-1], whereas [_create_workers_and_queues] makes those numbered
    [i] with [i * M < N]: the start goes through if and only if
    [(M - 1) * M < N], and raises [KeyError] at the first aggregator
    that was not made otherwise. *)
Theorem start_needs_every_aggregator (N M : nat) (pl : plant) :
  0 < M -> _create_workers_and_queues N M = Some pl ->
  (is_Some (_start_workers N M (server_of pl)) <-> (M - 1) * M < N).
Proof.
  intros HM Hrun. split.
  - intros Hsome. destruct (decide ((M - 1) * M < N)) as [|Hbad]; [assumption|].
    exfalso. destruct (wired_of N M pl HM Hrun) as (id & _ & Hw). cbn [fst] in Hw.
    unfold _start_workers in Hsome.
    rewrite (start_aggregators_fail M 0 (server_of pl) [] (M - 1)) in Hsome.
    + destruct Hsome as [x Hx]. discriminate.
    + lia.
    + cbn [server_of aggregator]. destruct (Hw (M - 1)) as (_ & _ & _ & -> & _).
      destruct (decide _); [lia|reflexivity].
  - intros Hfit.
    destruct (create_wired N M HM) as (pl' & id & Hrun' & _ & Hw).
    rewrite Hrun in Hrun'. injection Hrun' as <-. cbn [fst] in Hw.
    unfold _start_workers.
    destruct (start_aggregators_spec M 0 (server_of pl) []) as (agg & -> & Hagg).
    { intros i Hi. cbn [server_of aggregator]. destruct (Hw i) as (_ & _ & _ & -> & _).
      destruct (decide (i * M < N)) as [|Hbad]; [reflexivity|]. exfalso. apply Hbad. nia. }
    cbn [mbind option_bind server_of reader unpacker aggregator averager averaging
         socket_open file_open trace app].
    match goal with |- context [start_loop _ _ (?x, ?d)] =>
      destruct (start_unpackers_spec N 0 x d) as (unp & -> & Hunp) end.
    { intros i Hi. cbn [unpacker]. destruct (Hw i) as (_ & -> & _).
      destruct (decide (i < N)); [reflexivity|lia]. }
    cbn [mbind option_bind reader unpacker aggregator averager averaging
         socket_open file_open trace start]. eexists. reflexivity.
Qed.

(** Sixteen workers and eight aggregators: the aggregators 0 and 1 are
    made, and starting aggregator 2 fails. *)
Lemma start_needs_every_aggregator_witness :
  exists pl,
    _create_workers_and_queues 16 8 = Some pl
    /\ ~ is_Some (_start_workers 16 8 (server_of pl)).
Proof.
  destruct (create_wired 16 8) as (pl & _ & Hrun & _); [lia|].
  exists pl. split; [exact Hrun|].
  intros Hsome. apply (start_needs_every_aggregator 16 8 pl) in Hsome;
    [lia | lia | exact Hrun].
Defined.

End WorkersFacts.

(** ** From the shutdown to the join *)

Module LifeCycleFacts.

Import KurtosisDataServer Workers.

Lemma stop_unpackers_states (n : nat) :
  forall (a : nat) (s : server),
    (forall i, a <= i < a + n -> is_Some (unpacker s !! i)) ->
    exists s',
      for_range stop_unpacker (seq a n) s = Some s'
      /\ (forall i, unpacker s' !! i
                    = if decide (a <= i < a + n)
                      then (fun p => default p (terminate p)) <$> unpacker s !! i
                      else unpacker s !! i)
      /\ reader s' = reader s /\ aggregator s' = aggregator s
      /\ averager s' = averager s.
Proof.
  induction n as [|n IH]; intros a s Hkeys; cbn [seq for_range].
  - exists s. split; [reflexivity|]. split; [|auto].
    intros i. destruct (decide _); [lia|reflexivity].
  - destruct (Hkeys a ltac:(lia)) as [p Hp].
    assert (Hone : exists s1,
               stop_unpacker a s = Some s1
               /\ unpacker s1 = <[a := default p (terminate p)]> (unpacker s)
               /\ reader s1 = reader s /\ aggregator s1 = aggregator s
               /\ averager s1 = averager s).
    { unfold stop_unpacker. rewrite Hp. cbn [mbind option_bind].
      destruct (terminate p) as [p'|]; eexists; (split; [reflexivity|]);
        cbn [unpacker reader aggregator averager did default]; [auto|].
      split; [|auto]. symmetry. apply insert_id, Hp. }
    destruct Hone as (s1 & -> & Hu1 & Hr1 & Hg1 & Ha1). cbn [mbind option_bind].
    destruct (IH (S a) s1) as (s' & -> & Hu & Hr & Hg & Ha).
    { intros i Hi. rewrite Hu1, lookup_insert_ne by lia. apply Hkeys. lia. }
    exists s'. split; [reflexivity|]. split; [|repeat split; congruence].
    intros i. rewrite Hu, Hu1.
    destruct (decide (a = i)) as [->|Hne].
    + rewrite lookup_insert_eq, Hp.
      repeat destruct (decide _); try reflexivity; lia.
    + rewrite lookup_insert_ne by exact Hne.
      repeat destruct (decide _); try reflexivity; lia.
Qed.

Lemma stop_aggregators_states (n : nat) :
  forall (a : nat) (s : server),
    (forall i, a <= i < a + n -> is_Some (aggregator s !! i)) ->
    exists s',
      for_range stop_aggregator (seq a n) s = Some s'
      /\ (forall i, aggregator s' !! i
                    = if decide (a <= i < a + n)
                      then (fun p => default p (terminate p)) <$> aggregator s !! i
                      else aggregator s !! i)
      /\ reader s' = reader s /\ unpacker s' = unpacker s
      /\ averager s' = averager s.
Proof.
  induction n as [|n IH]; intros a s Hkeys; cbn [seq for_range].
  - exists s. split; [reflexivity|]. split; [|auto].
    intros i. destruct (decide _); [lia|reflexivity].
  - destruct (Hkeys a ltac:(lia)) as [p Hp].
    assert (Hone : exists s1,
               stop_aggregator a s = Some s1
               /\ aggregator s1 = <[a := default p (terminate p)]> (aggregator s)
               /\ reader s1 = reader s /\ unpacker s1 = unpacker s
               /\ averager s1 = averager s).
    { unfold stop_aggregator. rewrite Hp. cbn [mbind option_bind].
      destruct (terminate p) as [p'|]; eexists; (split; [reflexivity|]);
        cbn [unpacker reader aggregator averager did default]; [auto|].
      split; [|auto]. symmetry. apply insert_id, Hp. }
    destruct Hone as (s1 & -> & Hg1 & Hr1 & Hu1 & Ha1). cbn [mbind option_bind].
    destruct (IH (S a) s1) as (s' & -> & Hg & Hr & Hu & Ha).
    { intros i Hi. rewrite Hg1, lookup_insert_ne by lia. apply Hkeys. lia. }
    exists s'. split; [reflexivity|]. split; [|repeat split; congruence].
    intros i. rewrite Hg, Hg1.
    destruct (decide (a = i)) as [->|Hne].
    + rewrite lookup_insert_eq, Hp.
      repeat destruct (decide _); try reflexivity; lia.
    + rewrite lookup_insert_ne by exact Hne.
      repeat destruct (decide _); try reflexivity; lia.
Qed.

(** The processes after a shutdown: each as [terminate] leaves it. *)
Lemma shutdown_states (s : server) :
  complete s = true ->
  exists s',
    shutdown s = Some s'
    /\ reader s' = default (reader s) (terminate (reader s))
    /\ averager s' = default (averager s) (terminate (averager s))
    /\ (forall i, unpacker s' !! i
                  = if decide (i < num_workers)
                    then (fun p => default p (terminate p)) <$> unpacker s !! i
                    else unpacker s !! i)
    /\ (forall i, aggregator s' !! i
                  = if decide (i < num_aggregators)
                    then (fun p => default p (terminate p)) <$> aggregator s !! i
                    else aggregator s !! i).
Proof.
  intros [Hu Ha]%ShutdownFacts.complete_spec. unfold shutdown, _terminate.
  set (s0 := did (averaging_off s) [Log LInfo None]).
  assert (Hs1 : reader (stop_reader s0) = default (reader s) (terminate (reader s))
                /\ unpacker (stop_reader s0) = unpacker s
                /\ aggregator (stop_reader s0) = aggregator s
                /\ averager (stop_reader s0) = averager s).
  { unfold stop_reader, s0, did, averaging_off. cbn [reader].
    destruct (terminate (reader s)); cbn; auto. }
  destruct Hs1 as (Hr1 & Hu1 & Hg1 & Ha1).
  destruct (stop_unpackers_states num_workers 0 (stop_reader s0))
    as (s2 & -> & Hu2 & Hr2 & Hg2 & Ha2); [rewrite Hu1; exact Hu|].
  cbn [mbind option_bind].
  destruct (stop_aggregators_states num_aggregators 0 s2)
    as (s3 & -> & Hg3 & Hr3 & Hu3 & Ha3); [rewrite Hg2, Hg1; exact Ha|].
  cbn [mbind option_bind].
  eexists. split; [reflexivity|].
  unfold close_socket, stop_averager, did, averaging_off.
  cbn [reader unpacker aggregator averager averaging socket_open file_open trace].
  destruct (terminate (averager s3)) as [p|] eqn:Hterm;
    cbn [reader unpacker aggregator averager];
    rewrite Hr3, Hr2, Hr1, Hu3;
    (split; [reflexivity|]);
    (split; [rewrite Ha3, Ha2, Ha1 in Hterm; rewrite ?Ha3, ?Ha2, ?Ha1, Hterm;
             reflexivity|]);
    (split; [intros i; rewrite Hu2, Hu1; destruct (decide (0 <= i < 0 + num_workers));
             destruct (decide (i < num_workers)); try reflexivity; lia|]);
    intros i; rewrite Hg3, Hg2, Hg1;
    destruct (decide (0 <= i < 0 + num_aggregators));
    destruct (decide (i < num_aggregators)); try reflexivity; lia.
Qed.

Lemma join_loop_terminated (name : nat -> proc) (procs : gmap nat pstate)
    (then_ : joining) (n : nat) :
  forall a,
    (forall i, a <= i < a + n -> procs !! i = Some Terminated) ->
    join_loop name procs (seq a n) then_ = then_.
Proof.
  induction n as [|n IH]; intros a Hall; [reflexivity|].
  cbn [seq join_loop]. rewrite (Hall a) by lia. cbn [join].
  apply IH. intros i Hi. apply Hall. lia.
Qed.

Lemma join_loop_never_waits (name : nat -> proc) (procs : gmap nat pstate)
    (then_ : joining) (n : nat) :
  forall a,
    (forall i, a <= i < a + n -> procs !! i <> Some Alive) ->
    forall p, join_loop name procs (seq a n) then_ = WaitsFor p ->
              then_ = WaitsFor p.
Proof.
  induction n as [|n IH]; intros a Hall p; [auto|].
  cbn [seq join_loop]. pose proof (Hall a ltac:(lia)) as Ha.
  destruct (procs !! a) as [[| |]|]; cbn [join]; try discriminate;
    [congruence|].
  apply IH. intros i Hi. apply Hall. lia.
Qed.

Lemma terminate_not_alive (p : pstate) : default p (terminate p) <> Alive.
Proof. destruct p; discriminate. Qed.

Lemma terminate_started (p : pstate) :
  p <> NotStarted -> default p (terminate p) = Terminated.
Proof. destruct p; [contradiction|reflexivity|reflexivity]. Qed.

(** After a shutdown the main thread is never held up in
    [_join_workers]: no process is left alive, so that no [join] blocks.
    When every process had been started, all have been terminated and
    [_join_workers] returns; a process that was never started makes its
    [join] fail instead. *)
Theorem join_after_shutdown_never_waits (s s' : server) :
  complete s = true -> shutdown s = Some s' ->
  (forall p, _join_workers num_workers num_aggregators s' <> WaitsFor p)
  /\ (reader s <> NotStarted -> averager s <> NotStarted ->
      (forall i, i < num_workers -> unpacker s !! i <> Some NotStarted) ->
      (forall i, i < num_aggregators -> aggregator s !! i <> Some NotStarted) ->
      _join_workers num_workers num_aggregators s' = AllJoined)
  /\ (reader s = NotStarted ->
      _join_workers num_workers num_aggregators s' = JoinError PReader).
Proof.
  intros Hc Hrun.
  destruct (shutdown_states s Hc) as (s1 & Hrun1 & Hr & Ha & Hu & Hg).
  rewrite Hrun in Hrun1. injection Hrun1 as <-.
  destruct (ShutdownFacts.complete_spec s Hc) as [Hku Hkg].
  unfold _join_workers. split; [|split].
  - intros p Hw. rewrite Hr in Hw.
    destruct (reader s); cbn [terminate default join] in Hw; try discriminate.
    + apply join_loop_never_waits in Hw.
      * apply join_loop_never_waits in Hw.
        -- rewrite Ha in Hw. destruct (averager s); discriminate.
        -- intros i Hi. rewrite Hg. destruct (decide _) as [|]; [|lia].
           destruct (Hkg i ltac:(lia)) as [q ->]. cbn [fmap option_fmap option_map].
           intros [= Hq]. exact (terminate_not_alive q Hq).
      * intros i Hi. rewrite Hu. destruct (decide _) as [|]; [|lia].
        destruct (Hku i ltac:(lia)) as [q ->]. cbn [fmap option_fmap option_map].
        intros [= Hq]. exact (terminate_not_alive q Hq).
    + apply join_loop_never_waits in Hw.
      * apply join_loop_never_waits in Hw.
        -- rewrite Ha in Hw. destruct (averager s); discriminate.
        -- intros i Hi. rewrite Hg. destruct (decide _) as [|]; [|lia].
           destruct (Hkg i ltac:(lia)) as [q ->]. cbn [fmap option_fmap option_map].
           intros [= Hq]. exact (terminate_not_alive q Hq).
      * intros i Hi. rewrite Hu. destruct (decide _) as [|]; [|lia].
        destruct (Hku i ltac:(lia)) as [q ->]. cbn [fmap option_fmap option_map].
        intros [= Hq]. exact (terminate_not_alive q Hq).
  - intros Hrs Has Hus Hgs.
    rewrite Hr, Ha, !terminate_started by assumption. cbn [join].
    rewrite join_loop_terminated.
    + rewrite join_loop_terminated; [reflexivity|].
      intros i Hi. rewrite Hg. destruct (decide _) as [|]; [|lia].
      pose proof (Hgs i ltac:(lia)) as Hne.
      destruct (Hkg i ltac:(lia)) as [q Hq]. rewrite Hq in Hne |- *.
      cbn [fmap option_fmap option_map]. f_equal. apply terminate_started. congruence.
    + intros i Hi. rewrite Hu. destruct (decide _) as [|]; [|lia].
      pose proof (Hus i ltac:(lia)) as Hne.
      destruct (Hku i ltac:(lia)) as [q Hq]. rewrite Hq in Hne |- *.
      cbn [fmap option_fmap option_map]. f_equal. apply terminate_started. congruence.
  - intros Hrs. rewrite Hr, Hrs. reflexivity.
Qed.

(** The server with every process running is shut down and joined. *)
Lemma join_after_shutdown_never_waits_witness :
  exists s',
    shutdown started = Some s'
    /\ _join_workers num_workers num_aggregators s' = AllJoined.
Proof.
  destruct (ShutdownFacts.shutdown_spec started) as (s' & Hrun & _);
    [vm_compute; reflexivity|].
  exists s'. split; [exact Hrun|].
  destruct (join_after_shutdown_never_waits started s') as (_ & Hjoin & _);
    [vm_compute; reflexivity | exact Hrun |].
  apply Hjoin.
  - discriminate.
  - discriminate.
  - intros i Hi. unfold started. cbn [unpacker].
    rewrite WorkersFacts.processes_lookup. destruct (decide _); discriminate.
  - intros i Hi. unfold started. cbn [aggregator].
    rewrite WorkersFacts.processes_lookup. destruct (decide _); discriminate.
Defined.

Lemma forallb_false {A} (f : A -> bool) (l : list A) :
  forallb f l = false -> exists x, In x l /\ f x = false.
Proof.
  induction l as [|x l IH]; [discriminate|]. cbn [forallb].
  destruct (f x) eqn:Hx; cbn [andb].
  - intros H. destruct (IH H) as (y & Hy & Hfy). exists y. split; [right|]; assumption.
  - intros _. exists x. split; [left; reflexivity | exact Hx].
Qed.

Lemma for_range_fail (body : nat -> server -> option server)
    (keys : server -> gmap nat pstate) (n : nat) :
  (forall count s, keys s !! count = None -> body count s = None) ->
  (forall count s s' i, body count s = Some s' -> keys s !! i = None ->
                        keys s' !! i = None) ->
  forall (a : nat) (s : server) (i : nat),
    a <= i < a + n -> keys s !! i = None ->
    for_range body (seq a n) s = None.
Proof.
  intros Hnone Hkeep. induction n as [|n IH]; intros a s i Hi Hmiss; [lia|].
  cbn [seq for_range].
  destruct (body a s) as [s1|] eqn:Hone; [|reflexivity]. cbn [mbind option_bind].
  apply (IH (S a) s1 i).
  - destruct (decide (a = i)) as [->|]; [|lia].
    rewrite (Hnone _ _ Hmiss) in Hone. discriminate.
  - apply (Hkeep _ _ _ _ Hone Hmiss).
Qed.

(** The shutdown needs every process to be there.  [_terminate] takes
    the unpackers 0 to 15 and the aggregators 0 to 3 out of their
    dictionaries and catches [AttributeError] only: it runs to its end
    if and only if both dictionaries have all these keys, and a missing
    one raises [KeyError] out of [run], before the socket is closed. *)
Theorem shutdown_needs_every_process (s : server) :
  is_Some (shutdown s) <-> complete s = true.
Proof.
  split.
  - intros [s' Hrun]. destruct (complete s) eqn:Hc; [reflexivity|]. exfalso.
    unfold shutdown, _terminate in Hrun.
    set (s0 := did (averaging_off s) [Log LInfo None]) in Hrun.
    assert (Hu0 : unpacker (stop_reader s0) = unpacker s
                  /\ aggregator (stop_reader s0) = aggregator s).
    { unfold stop_reader, s0, did, averaging_off. cbn [reader].
      destruct (terminate (reader s)); cbn; auto. }
    destruct Hu0 as [Hu0 Hg0].
    unfold complete in Hc. apply andb_false_iff in Hc as [Hc|Hc];
      apply forallb_false in Hc as (i & Hi%in_seq & Hmiss);
      apply bool_decide_eq_false in Hmiss;
      rewrite <- eq_None_not_Some in Hmiss.
    + rewrite (for_range_fail stop_unpacker unpacker num_workers) with (i := i)
        in Hrun; [discriminate| | |lia|rewrite Hu0; exact Hmiss].
      * intros count x Hx. unfold stop_unpacker. rewrite Hx. reflexivity.
      * intros count x x' j Hx Hj. unfold stop_unpacker in Hx.
        destruct (unpacker x !! count) as [p|] eqn:Hp; [|discriminate].
        cbn [mbind option_bind] in Hx. injection Hx as <-.
        destruct (terminate p); cbn [unpacker did]; [|exact Hj].
        rewrite lookup_insert_ne by congruence. exact Hj.
    + destruct (for_range stop_unpacker (seq 0 num_workers) (stop_reader s0))
        as [s2|] eqn:Hs2; [|discriminate].
      cbn [mbind option_bind] in Hrun.
      assert (Hg2 : aggregator s2 = aggregator s).
      { rewrite <- Hg0. clear -Hs2. revert Hs2.
        generalize (stop_reader s0) as x. generalize (seq 0 num_workers) as l.
        induction l as [|count l IH]; intros x; cbn [for_range].
        - intros [= <-]. reflexivity.
        - destruct (stop_unpacker count x) as [x1|] eqn:Hone; [|discriminate].
          cbn [mbind option_bind]. intros Hl. rewrite (IH _ Hl).
          unfold stop_unpacker in Hone.
          destruct (unpacker x !! count) as [p|]; [|discriminate].
          cbn [mbind option_bind] in Hone. injection Hone as <-.
          destruct (terminate p); reflexivity. }
      rewrite (for_range_fail stop_aggregator aggregator num_aggregators)
        with (i := i) in Hrun; [discriminate| | |lia|rewrite Hg2; exact Hmiss].
      * intros count x Hx. unfold stop_aggregator. rewrite Hx. reflexivity.
      * intros count x x' j Hx Hj. unfold stop_aggregator in Hx.
        destruct (aggregator x !! count) as [p|] eqn:Hp; [|discriminate].
        cbn [mbind option_bind] in Hx. injection Hx as <-.
        destruct (terminate p); cbn [aggregator did]; [|exact Hj].
        rewrite lookup_insert_ne by congruence. exact Hj.
  - intros Hc. destruct (ShutdownFacts.shutdown_spec s Hc) as (s' & -> & _).
    eexists. reflexivity.
Qed.

End LifeCycleFacts.

(** ** From the workers to the main thread and the averager *)

Module PipelineFacts.

Import Wire Decode Unpacker.
Local Open Scope Z_scope.

(** *** The end test *)

(** The end test holds during one second of the day.  For an end time
    that a clock can show, the test of [run] succeeds on a time [t] if
    and only if the whole seconds of [t] are, within their day of 86400
    seconds, the second [3600 hr + 60 min + sec]: a dictionary must have
    been stamped within that very second for the loop to end. *)
Theorem end_test_is_one_second (tg : KurtosisDataServer.target) (t : Q) :
  0 <= KurtosisDataServer.endhr tg < 24 ->
  0 <= KurtosisDataServer.endmin tg < 60 ->
  0 <= KurtosisDataServer.endsec tg < 60 ->
  (KurtosisDataServer.end_reached tg (KurtosisDataServer.gmtime t) = true
   <-> Z.quot (Qnum t) (Z.pos (Qden t)) mod 86400
       = 3600 * KurtosisDataServer.endhr tg + 60 * KurtosisDataServer.endmin tg
         + KurtosisDataServer.endsec tg).
Proof.
  intros Hh Hm Hs. rewrite RunFacts.end_reached_spec.
  unfold KurtosisDataServer.gmtime.
  cbn [KurtosisDataServer.tm_hour KurtosisDataServer.tm_min KurtosisDataServer.tm_sec].
  generalize (Z.quot (Qnum t) (Z.pos (Qden t))). intros s.
  generalize dependent (KurtosisDataServer.endhr tg).
  generalize dependent (KurtosisDataServer.endmin tg).
  generalize dependent (KurtosisDataServer.endsec tg).
  intros sc Hs mn Hm hr Hh.
  Z.div_mod_to_equations. lia.
Qed.

(** 13:20:00 UTC on 10 July 2018, and three tenths of a second. *)
Lemma end_test_is_one_second_witness :
  KurtosisDataServer.end_reached (KurtosisDataServer.Target 13 20 0)
    (KurtosisDataServer.gmtime (15312288003 # 10)) = true.
Proof.
  apply (end_test_is_one_second (KurtosisDataServer.Target 13 20 0) (15312288003 # 10));
    cbn [KurtosisDataServer.endhr KurtosisDataServer.endmin KurtosisDataServer.endsec];
    try lia.
  vm_compute. reflexivity.
Defined.

(** *** A dictionary without a time *)

(** [run] catches [KeyboardInterrupt] only.  A dictionary without the
    key ['time'] makes [one_second['time']] raise [KeyError] out of the
    loop, whatever was processed before: the lines after the loop are
    not reached, so that nothing is shut down. *)
Theorem run_crashes_on_untimed_dictionary (tg : KurtosisDataServer.target)
    (pre : list one_second) (e : one_second)
    (rest : list KurtosisDataServer.event) (r : KurtosisDataServer.recorder) :
  forallb (fun x => KurtosisDataServer.timed x
                    && negb (KurtosisDataServer.at_target tg x)) pre = true ->
  os_time e = None ->
  KurtosisDataServer.run_loop tg
    (map KurtosisDataServer.Dequeued pre ++ KurtosisDataServer.Dequeued e :: rest) r
  = KurtosisDataServer.Crashed.
Proof.
  intros Hpre He. rewrite RunFacts.run_loop_processed.
  - cbn [KurtosisDataServer.run_loop]. rewrite He. reflexivity.
  - apply Forall_forall. intros x Hx%list_elem_of_In.
    rewrite forallb_forall in Hpre. apply Hpre in Hx.
    apply andb_true_iff in Hx as [Ht Ha]. apply negb_true_iff in Ha. auto.
Qed.

(** The first dictionary of a worker with batch size zero. *)
Lemma run_crashes_on_untimed_dictionary_witness :
  KurtosisDataServer.run_loop (KurtosisDataServer.Target 13 20 0)
    (map KurtosisDataServer.Dequeued [] ++
     KurtosisDataServer.Dequeued fresh :: []) KurtosisDataServer.recorder_start
  = KurtosisDataServer.Crashed
  /\ w_output (unscramble_packet 0 1 (start 0 [])) = [fresh].
Proof.
  split; [|reflexivity].
  apply run_crashes_on_untimed_dictionary; reflexivity.
Defined.

(** *** What the workers put on the queues *)

Lemma decode_widths (buf : list byte) (d : decoded) :
  decode buf = Some d ->
  length (d_pwr_I d) = 1024%nat /\ length (d_krt_I d) = 1024%nat
  /\ length (d_pwr_Q d) = 1024%nat /\ length (d_krt_Q d) = 1024%nat.
Proof.
  unfold decode. destruct (unpack_from buf) as [result|] eqn:Hun; [|discriminate].
  cbn [mbind option_bind].
  rewrite (DecodeFacts.unscramble_eq _ (DecodeFacts.unpack_from_wf _ _ Hun)).
  cbn [mbind option_bind fst snd sel at_I at_Q]. intros Heq.
  apply (inj Some) in Heq. rewrite <- Heq.
  cbn [d_pwr_I d_krt_I d_pwr_Q d_krt_Q].
  rewrite !length_map, !DecodeFacts.length_spec_concat. auto.
Qed.

Lemma Forall2_decoded (consumed : list arrival) (rs : list stamped) :
  Forall2 decodes_to consumed rs ->
  Forall (fun r => exists a, decodes_to a r) rs.
Proof.
  induction 1 as [|a r consumed rs Har _ IH]; constructor; [|exact IH].
  exists a. exact Har.
Qed.

Lemma rows_ok_map {A} (f : decoded -> list A) (ds : list decoded) :
  ds <> [] -> Forall (fun d => length (f d) = 1024%nat) ds ->
  Averager.rows_ok (map f ds) = true.
Proof.
  intros Hne Hall. apply AveragerFacts.rows_ok_spec. split.
  - destruct ds; [contradiction|discriminate].
  - apply Forall_map. exact Hall.
Qed.

(** A block of decoded packets makes a dictionary the averager can
    take. *)
Lemma epoch_of_ok (blk : list stamped) :
  blk <> [] -> Forall (fun r => exists a, decodes_to a r) blk ->
  Averager.epoch_ok (epoch_of blk) = true
  /\ KurtosisDataServer.timed (epoch_of blk) = true.
Proof.
  intros Hne Hall.
  assert (Hw : Forall (fun d => length (d_pwr_I d) = 1024%nat
                                /\ length (d_krt_I d) = 1024%nat
                                /\ length (d_pwr_Q d) = 1024%nat
                                /\ length (d_krt_Q d) = 1024%nat) (map snd blk)).
  { apply Forall_map. eapply Forall_impl; [exact Hall|].
    intros r (a & _ & Hdec). exact (decode_widths _ _ Hdec). }
  assert (Hne' : map snd blk <> []) by (destruct blk; [contradiction|discriminate]).
  unfold Averager.epoch_ok, KurtosisDataServer.timed, epoch_of, rows_into.
  cbn [os_time os_raw_pkt_cnt os_pwr_I os_krt_I os_pwr_Q os_krt_Q].
  destruct blk as [|[t d] blk]; [contradiction|].
  change (head (map fst ((t, d) :: blk))) with (Some t).
  split; [|reflexivity].
  change (map d_raw_pkt_cnt (map snd ((t, d) :: blk)))
    with (d_raw_pkt_cnt d :: map d_raw_pkt_cnt (map snd blk)).
  rewrite !rows_ok_map; try exact Hne'; try reflexivity;
    (eapply Forall_impl; [exact Hw|]); intros x (H1 & H2 & H3 & H4); assumption.
Qed.

Lemma worker_output_ok (b : Z) (input : list arrival) (fuel : nat) :
  0 < b ->
  Forall (fun e => Averager.epoch_ok e = true /\ KurtosisDataServer.timed e = true)
         (w_output (unscramble_packet b fuel (start b input))).
Proof.
  intros Hb.
  destruct (UnpackerFacts.batched_run b input fuel _
              (UnpackerFacts.batched_start b input))
    as (consumed & blocks & cur & _ & Hdec & Hblocks & Hout & _).
  rewrite Hout. apply Forall_map.
  apply Forall2_decoded, Forall_app in Hdec as [Hdec _].
  clear Hout. induction blocks as [|blk blocks IH]; constructor.
  - apply Forall_cons in Hblocks as [Hlen _].
    cbn [concat] in Hdec. apply Forall_app in Hdec as [Hdec _].
    apply epoch_of_ok; [|exact Hdec]. destruct blk; [cbn in Hlen; lia|discriminate].
  - apply Forall_cons in Hblocks as [_ Hblocks].
    cbn [concat] in Hdec. apply Forall_app in Hdec as [_ Hdec].
    apply IH; assumption.
Qed.

Lemma run_loop_timed (tg : KurtosisDataServer.target) (es : list one_second) :
  Forall (fun e => KurtosisDataServer.timed e = true) es ->
  forall r, KurtosisDataServer.run_loop tg (map KurtosisDataServer.Dequeued es) r
            <> KurtosisDataServer.Crashed.
Proof.
  induction 1 as [|e es He _ IH]; intros r; cbn [map KurtosisDataServer.run_loop];
    [discriminate|].
  unfold KurtosisDataServer.timed in He.
  destruct (os_time e) as [t|]; [|discriminate].
  destruct (KurtosisDataServer.end_reached tg (KurtosisDataServer.gmtime t));
    [discriminate|apply IH].
Qed.

Lemma gots_map_Got (es : list one_second) :
  Averager.gots (map Averager.Got es) = es
  /\ Averager.stopped (map Averager.Got es) = false.
Proof.
  induction es as [|e es [IH1 IH2]]; [auto|].
  cbn [map Averager.gots Averager.stopped]. rewrite IH1. auto.
Qed.

(** The workers, the main thread and the averager fit together.  With a
    batch size [b > 0], whatever packets arrive, every dictionary a
    worker has put on its output queue has a time, a first packet
    counter and, for both channels, [b] rows of power and of kurtosis of
    1024 elements each.  Neither does [run] raise on such dictionaries
    nor does an averager that has its two monitor files, their paths
    being different: it writes one row for each of them. *)
Theorem worker_epochs_are_well_formed (b : Z) (input : list arrival) (fuel : nat) :
  0 < b ->
  let out := w_output (unscramble_packet b fuel (start b input)) in
  forallb Averager.epoch_ok out = true
  /\ forallb KurtosisDataServer.timed out = true
  /\ (forall tg r,
        KurtosisDataServer.run_loop tg (map KurtosisDataServer.Dequeued out) r
        <> KurtosisDataServer.Crashed)
  /\ (forall conv paths signal,
        sel paths ChI <> sel paths ChQ ->
        Averager.average_one_second conv (map Averager.Got out) paths signal
        = Averager.Polling
            (Averager.MkAverager (Averager.written conv paths signal out)
                                 (length out))).
Proof.
  intros Hb out. pose proof (worker_output_ok b input fuel Hb) as Hok.
  fold out in Hok.
  assert (Hok1 : Forall (fun e => Averager.epoch_ok e = true) out)
    by (eapply Forall_impl; [exact Hok|]; intros e [H _]; exact H).
  assert (Hok2 : Forall (fun e => KurtosisDataServer.timed e = true) out)
    by (eapply Forall_impl; [exact Hok|]; intros e [_ H]; exact H).
  split; [apply forallb_forall; intros e He%list_elem_of_In;
          rewrite Forall_forall in Hok1; exact (Hok1 e He)|].
  split; [apply forallb_forall; intros e He%list_elem_of_In;
          rewrite Forall_forall in Hok2; exact (Hok2 e He)|].
  split; [intros tg r; apply run_loop_timed, Hok2|].
  intros conv paths signal Hne.
  destruct (gots_map_Got out) as [Hg Hs].
  rewrite (AveragerFacts.average_one_second_written conv paths signal _ Hne)
    by (rewrite Hg; exact Hok1).
  rewrite Hg, Hs. reflexivity.
Qed.

(** Two packets of 8208 bytes for a worker with batches of one. *)
Lemma worker_epochs_are_well_formed_witness :
  let p (t : Q) := Arrival t (repeat x00 (8 * 1026)) in
  forallb Averager.epoch_ok
    (w_output (unscramble_packet 1 4 (start 1 [p 10%Q; p 11%Q]))) = true.
Proof.
  intros p.
  destruct (worker_epochs_are_well_formed 1 [p 10%Q; p 11%Q] 4) as (Hok & _); [lia|].
  exact Hok.
Defined.

(** *** How the averager ends *)

Lemma gots_app_stop (polls later : list Averager.poll) :
  Averager.stopped polls = false ->
  Averager.gots (polls ++ Averager.Stop :: later) = Averager.gots polls
  /\ Averager.stopped (polls ++ Averager.Stop :: later) = true.
Proof.
  induction polls as [|[| |e] polls IH]; cbn [app Averager.gots Averager.stopped];
    intros Hs; try discriminate; auto.
  destruct (IH Hs) as [-> ->]. auto.
Qed.

Lemma average_loop_app (conv : Z -> Z) (polls rest : list Averager.poll) :
  forall a a',
    Averager.average_loop conv polls a = Averager.Polling a' ->
    Averager.average_loop conv (polls ++ rest) a
    = Averager.average_loop conv rest a'.
Proof.
  induction polls as [|[| |e] polls IH]; intros a a';
    cbn [app Averager.average_loop].
  - intros [= <-]. reflexivity.
  - discriminate.
  - apply IH.
  - destruct (Averager.record_one_second conv e a) as [a1|]; [apply IH|discriminate].
Qed.

(** The averager stops cleanly.  An averager that has opened its two
    monitor files, their paths being different, and sees its flag
    cleared closes both files as the dictionaries taken so far have left
    them, no row lost or changed; what is still on the queue then is
    never written. *)
Theorem averager_stops_cleanly (conv : Z -> Z)
    (paths signal : per_channel (list byte)) (polls later : list Averager.poll) :
  sel paths ChI <> sel paths ChQ ->
  forallb Averager.epoch_ok (Averager.gots polls) = true ->
  Averager.stopped polls = false ->
  exists files,
    Averager.average_one_second conv polls paths signal
    = Averager.Polling (Averager.MkAverager files (length (Averager.gots polls)))
    /\ Averager.average_one_second conv (polls ++ Averager.Stop :: later) paths signal
       = Averager.Finished (PerChannel (Averager.close (sel files ChI))
                                       (Averager.close (sel files ChQ)))
    /\ forall IF,
         let f := sel files IF in
         Averager.aqtime (Averager.close f) = Averager.aqtime f
         /\ Averager.pkt_cnt (Averager.close f) = Averager.pkt_cnt f
         /\ Averager.power (Averager.close f) = Averager.power f
         /\ Averager.kurtosis (Averager.close f) = Averager.kurtosis f
         /\ Averager.mf_open f = true
         /\ Averager.mf_open (Averager.close f) = false
         /\ Averager.mf_ops (Averager.close f)
            = Averager.mf_ops f ++ [Averager.Close].
Proof.
  intros Hne Hok Hs.
  assert (Hall : Forall (fun e => Averager.epoch_ok e = true) (Averager.gots polls)).
  { apply Forall_forall. intros e He%list_elem_of_In.
    rewrite forallb_forall in Hok. apply Hok, He. }
  exists (Averager.written conv paths signal (Averager.gots polls)).
  destruct (gots_app_stop polls later Hs) as [Hg Hs'].
  split; [|split].
  - rewrite (AveragerFacts.average_one_second_written conv paths signal _ Hne)
      by exact Hall.
    rewrite Hs. reflexivity.
  - rewrite (AveragerFacts.average_one_second_written conv paths signal _ Hne)
      by (rewrite Hg; exact Hall).
    rewrite Hg, Hs'. reflexivity.
  - intros [|]; cbv zeta; repeat split.
Qed.

(** The flag is cleared while a dictionary is still on the queue. *)
Lemma averager_stops_cleanly_witness :
  exists files,
    Averager.average_one_second Averager.int32_wrap
      ([Averager.Empty] ++ Averager.Stop :: [Averager.Got fresh])
      (PerChannel [x49] [x51]) (PerChannel [x4b] [x4b])
    = Averager.Finished files
    /\ Averager.mf_open (sel files ChI) = false.
Proof.
  destruct (averager_stops_cleanly Averager.int32_wrap
              (PerChannel [x49] [x51]) (PerChannel [x4b] [x4b])
              [Averager.Empty] [Averager.Got fresh])
    as (files & _ & Hrun & Hf); [discriminate | reflexivity | reflexivity |].
  eexists. split; [exact Hrun|].
  destruct (Hf ChI) as (_ & _ & _ & _ & _ & Hopen & _). exact Hopen.
Defined.

(** The averager has no way to skip a dictionary.  One without a time
    ([KeyError]) or without a packet counter ([IndexError]) raises out of
    [average_one_second]: the process dies without closing its files,
    and what is behind that dictionary on the queue is never written. *)
Theorem averager_dies_on_bad_dictionary (conv : Z -> Z)
    (paths signal : per_channel (list byte)) (polls later : list Averager.poll)
    (e : one_second) :
  forallb Averager.epoch_ok (Averager.gots polls) = true ->
  Averager.stopped polls = false ->
  os_time e = None \/ os_raw_pkt_cnt e = [] ->
  Averager.average_one_second conv (polls ++ Averager.Got e :: later) paths signal
  = Averager.Died.
Proof.
  intros Hok Hs Hbad.
  assert (Hall : Forall (fun e => Averager.epoch_ok e = true) (Averager.gots polls)).
  { apply Forall_forall. intros x Hx%list_elem_of_In.
    rewrite forallb_forall in Hok. apply Hok, Hx. }
  destruct (decide (sel paths ChI = sel paths ChQ)) as [Heq|Hne];
    [apply AveragerFacts.average_one_second_same, Heq|].
  pose proof (AveragerFacts.average_one_second_written conv paths signal polls
                Hne Hall) as Hrun.
  rewrite Hs in Hrun. unfold Averager.ending_of in Hrun.
  unfold Averager.average_one_second in Hrun |- *.
  rewrite (AveragerFacts.open_monitor_files_distinct conv paths signal Hne)
    in Hrun |- *.
  rewrite (average_loop_app conv polls _ _ _ Hrun).
  cbn [Averager.average_loop].
  assert (Hnone : forall a, Averager.record_one_second conv e a = None).
  { intros a. unfold Averager.record_one_second.
    destruct Hbad as [-> | Hraw]; [reflexivity|].
    rewrite Hraw. destruct (os_time e); reflexivity. }
  rewrite Hnone. reflexivity.
Qed.

(** The dictionary of a worker with batch size zero. *)
Lemma averager_dies_on_bad_dictionary_witness :
  Averager.average_one_second Averager.int32_wrap
    ([Averager.Empty] ++ Averager.Got fresh :: [])
    (PerChannel [x49] [x51]) (PerChannel [x4b] [x4b])
  = Averager.Died.
Proof.
  apply averager_dies_on_bad_dictionary; [reflexivity | reflexivity |].
  left. reflexivity.
Defined.

End PipelineFacts.

(** ** A first packet that cannot be read *)

Module StartupFacts.

Import Wire KurtosisDataServer.

(** The start has no handler but the one for the timeout.  A first
    datagram of fewer than 8208 bytes makes [unpack_from] raise, and one
    of full size whose station digits [int] cannot read makes [int]
    raise: either exception leaves [__init__], after the socket was
    bound and before any worker exists.  What is behind the first 8208
    bytes of the datagram plays no part. *)
Theorem startup_raises_on_bad_first_packet (int : list byte -> option Z)
    (delay : Q) (data : list byte) :
  Qle_bool delay 2 = true ->
  ((length data < calcsize)%nat ->
   first_packet int (Some (delay, data)) = Uncaught)
  /\ ((calcsize <= length data)%nat ->
      int (take 2 (drop 1 (take 4 data))) = None
      \/ int (take 2 (drop 1 (take 4 (drop 4 data)))) = None ->
      first_packet int (Some (delay, data)) = Uncaught)
  /\ first_packet int (Some (delay, data))
     = first_packet int (Some (delay, take pkt_size data)).
Proof.
  intros Hle. unfold first_packet. rewrite !InitFacts.recvfrom_arrives.
  unfold arrives_within. rewrite Hle. split; [|split].
  - intros Hlen.
    assert (Hshort : (length (take pkt_size data) < calcsize)%nat)
      by (rewrite length_take; lia).
    apply InitFacts.unpack_from_short in Hshort. rewrite Hshort. reflexivity.
  - intros Hlen Hbad.
    destruct (InitFacts.unpack_from_hdr (take pkt_size data)) as (packet & -> & Hhdr).
    { rewrite length_take, InitFacts.pkt_size_calcsize. lia. }
    rewrite Hhdr, InitFacts.header_of_datagram. cbn [sel at_I at_Q].
    assert (HI : take 4 (take 8 data) = take 4 data)
      by (rewrite take_take; reflexivity).
    assert (HQ : take 4 (drop 4 (take 8 data)) = take 4 (drop 4 data)).
    { rewrite !take_drop_commute, take_take. reflexivity. }
    rewrite HI, HQ. destruct Hbad as [-> | ->]; [reflexivity|].
    destruct (int _); reflexivity.
  - rewrite take_take, Nat.min_id. reflexivity.
Qed.

(** A datagram of full size with the header [KxxIK14Q], and one of
    five bytes. *)
Lemma startup_raises_on_bad_first_packet_witness :
  first_packet two_digits
    (Some ((1 # 2)%Q, [x4b; x78; x78; x49; x4b; x31; x34; x51] ++ repeat x00 (8 * 1025)))
  = Uncaught
  /\ first_packet two_digits (Some ((1 # 2)%Q, repeat x00 5)) = Uncaught.
Proof.
  split.
  - destruct (startup_raises_on_bad_first_packet two_digits (1 # 2)%Q
                ([x4b; x78; x78; x49; x4b; x31; x34; x51] ++ repeat x00 (8 * 1025)))
      as (_ & Hbad & _); [reflexivity|].
    apply Hbad.
    + rewrite length_app, repeat_length. vm_compute. lia.
    + left. reflexivity.
  - destruct (startup_raises_on_bad_first_packet two_digits (1 # 2)%Q (repeat x00 5))
      as (Hshort & _); [reflexivity|].
    apply Hshort. rewrite repeat_length. vm_compute. lia.
Defined.

End StartupFacts.

(** ** The names of the groups *)

Module RawFileFacts.

Import KurtosisDataServer RawFile.

Lemma to_uint_nonnil (n : nat) : Nat.to_uint n <> Decimal.Nil.
Proof.
  intros Hnil. pose proof (DecimalNat.Unsigned.of_to n) as Hn.
  rewrite Hnil in Hn. cbn in Hn. subst n. discriminate.
Qed.

(** The digits of a number begin with a digit. *)
Lemma decimal_head (n : nat) :
  exists c s, decimal n = c :: s /\ c <> Ascii.Space.
Proof.
  unfold decimal. pose proof (to_uint_nonnil n) as Hnil.
  destruct (Nat.to_uint n) as [|d|d|d|d|d|d|d|d|d|d]; [contradiction|..];
    cbn [DecimalString.NilEmpty.string_of_uint String.list_ascii_of_string];
    eexists _, _; (split; [reflexivity|discriminate]).
Qed.

Lemma decimal_inj (n m : nat) : decimal n = decimal m -> n = m.
Proof.
  unfold decimal. intros H.
  apply (f_equal String.string_of_list_ascii) in H.
  rewrite !String.string_of_list_ascii_of_string in H.
  apply (f_equal DecimalString.NilEmpty.uint_of_string) in H.
  rewrite !DecimalString.NilEmpty.usu in H. injection H as H.
  apply DecimalNat.Unsigned.to_uint_inj, H.
Qed.

Lemma lstrip_blanks (k : nat) (c : Ascii.ascii) (s : list Ascii.ascii) :
  c <> Ascii.Space -> lstrip (repeat Ascii.Space k ++ c :: s) = c :: s.
Proof.
  intros Hc. induction k as [|k IH]; cbn [repeat app lstrip].
  - destruct (Ascii.ascii_dec c Ascii.Space); [contradiction|reflexivity].
  - destruct (Ascii.ascii_dec Ascii.Space Ascii.Space); [exact IH|contradiction].
Qed.

Lemma lstrip_grpname (n : nat) : lstrip (grpname n) = decimal n.
Proof.
  unfold grpname. destruct (decimal_head n) as (c & s & -> & Hc).
  apply lstrip_blanks, Hc.
Qed.

(** Different numbers have different names. *)
Lemma grpname_inj (n m : nat) : grpname n = grpname m -> n = m.
Proof.
  intros H. apply decimal_inj. rewrite <- !lstrip_grpname, H. reflexivity.
Qed.

Section Examples.

Import String.

(** The names of group 7 and of group 123456. *)
Lemma grpname_examples :
  grpname 7 = list_ascii_of_string "    7"%string
  /\ grpname (192 * 643) = list_ascii_of_string "123456"%string.
Proof. split; vm_compute; reflexivity. Qed.

End Examples.

Lemma create_groups_spec (k : nat) :
  forall (g : nat) (names : list (list Ascii.ascii)),
    (forall n, g <= n < g + k -> ~ In (grpname n) names) ->
    create_groups k g names = Some (names ++ map grpname (seq g k)).
Proof.
  induction k as [|k IH]; intros g names Hnew; cbn [create_groups seq map].
  - rewrite app_nil_r. reflexivity.
  - unfold create_group.
    destruct (in_dec _ (grpname g) names) as [Hin|_];
      [exfalso; apply (Hnew g); [lia | exact Hin]|].
    cbn [mbind option_bind]. rewrite IH.
    + rewrite <- app_assoc. reflexivity.
    + intros n Hn [Hin|Hin]%in_app_or.
      * apply (Hnew n); [lia | exact Hin].
      * destruct Hin as [Heq|[]]. apply grpname_inj in Heq. lia.
Qed.

Lemma create_groups_fail (k : nat) :
  forall (g : nat) (names : list (list Ascii.ascii)) (n : nat),
    g <= n < g + k -> In (grpname n) names -> create_groups k g names = None.
Proof.
  induction k as [|k IH]; intros g names n Hn Hin; [lia|].
  cbn [create_groups]. unfold create_group.
  destruct (in_dec _ (grpname g) names) as [_|Hnot]; [reflexivity|].
  cbn [mbind option_bind]. apply (IH (S g) _ n).
  - destruct (decide (g = n)) as [->|]; [contradiction|lia].
  - apply in_or_app. left. exact Hin.
Qed.

(** The groups of the raw file never clash.  The names ["%5d" % grpnum]
    of different numbers differ, so that making the groups for any
    number of dictionaries, counted from 0, goes through exactly when
    the file holds none of these names beforehand, as in a file just
    made; the groups are then added in the order of the dictionaries.
    The names of the groups the recorder has made are these. *)
Theorem group_names_never_clash (k : nat) (names : list (list Ascii.ascii)) :
  (is_Some (create_groups k 0 names)
   <-> forall n, n < k -> ~ In (grpname n) names)
  /\ (forall names', create_groups k 0 names = Some names' ->
        names' = names ++ map grpname (seq 0 k))
  /\ create_groups k 0 [] = Some (map grpname (seq 0 k))
  /\ NoDup (map grpname (seq 0 k))
  /\ (forall pre : list Unpacker.one_second,
        length pre = k ->
        map (fun g => grpname g.1) (groups (processed pre recorder_start))
        = map grpname (seq 0 k)).
Proof.
  assert (Hiff : is_Some (create_groups k 0 names)
                 <-> forall n, n < k -> ~ In (grpname n) names).
  { split.
    - intros [names' Hrun] n Hn Hin.
      rewrite (create_groups_fail k 0 names n) in Hrun by (lia || assumption).
      discriminate.
    - intros Hnew. rewrite create_groups_spec; [eexists; reflexivity|].
      intros n Hn. apply Hnew. lia. }
  split; [exact Hiff|]. split; [|split; [|split]].
  - intros names' Hrun.
    assert (Hsome : is_Some (create_groups k 0 names)) by (eexists; exact Hrun).
    pose proof (proj1 Hiff Hsome) as Hnew. rewrite create_groups_spec in Hrun.
    + injection Hrun as <-. reflexivity.
    + intros n Hn. apply Hnew. lia.
  - apply (create_groups_spec k 0 []). intros n _ [].
  - apply NoDup_fmap_2; [|apply NoDup_seq]. intros n m. apply grpname_inj.
  - intros pre Hlen.
    destruct (RunFacts.processed_fields pre recorder_start) as (_ & Hg & _).
    rewrite Hg, Hlen. cbn [recorder_start groups grpnum app].
    rewrite <- (map_map fst grpname). f_equal.
    apply fst_zip. rewrite length_seq. lia.
Qed.

End RawFileFacts.
